(** * RetailAIChatbot frontend: chat session, PO sidebar channel and pollers

    A shallow embedding of the client-side coordination code of the
    Next.js application:

    - [Js]: the JavaScript values the handlers manipulate (JSON payloads,
      truthiness, property access, [||] and [?.]);
    - [Chat]: [ChatInterface] of [components/chat-interface.tsx]
      ([loadConversationMessages], [handleSendMessage], the conversation
      effect, the suggestion click handlers);
    - [Net]: settled [fetch] calls as their callers observe them;
    - [Sidebar]: [POSidebar] (the WebSocket lifecycle effect,
      [connectWebSocket], [handleWebSocketMessage]);
    - [Poller]: the three polling effects (embedding status on the
      dashboard page and in [EmbeddingStatusBanner], purchase-order
      fallback in the sidebar);
    - [Upload]: [DocumentUploadDialog.handleUpload];
    - [Page]: the chat and the sidebar as two components of one page.

    React is modelled the way the components use it.  State hooks are fields
    of a store; a setter updates the store, a functional setter
    ([setX(prev => ...)]) is applied to the value the store holds when it
    runs.  A function defined in the component body is a fresh closure at
    every render: it reads the props and state values of the render that
    created it, not the store.  A handler that React attaches to the DOM is
    the one of the last committed render; a callback handed to [setTimeout],
    to a [WebSocket] or kept by [useCallback]/[useEffect] keeps the values of
    the render that created it.  An effect runs its previous cleanup and
    then its body whenever one of its dependencies changed.  An event, the
    state updates of its handler, the render they cause and the effects of
    that render make one turn of the event loop; what is awaited
    ([fetch], timers, socket events) arrives as a later event.

    A [string] holds a text as its UTF-8 bytes; [Js.length] counts the
    UTF-16 code units of the text, as [s.length] does. *)

From Stdlib Require Import ZArith String Ascii DecimalString List Bool Lia PeanoNat.
Import ListNotations.
Open Scope string_scope.
Set Warnings "-register-all".

(** ** JavaScript values *)

Module Js.

(** JSON numbers are only tested for truthiness and carried along by the
    code below; they are modelled as integers. *)
Inductive value : Type :=
| Undefined
| Null
| Bool (b : bool)
| Num (n : Z)
| Str (s : string)
| Arr (l : list value)
| Obj (o : list (string * value)).

(** ToBoolean *)
Definition truthy (v : value) : bool :=
  match v with
  | Undefined | Null => false
  | Bool b => b
  | Num n => negb (n =? 0)%Z
  | Str s => negb (s =? "")
  | Arr _ | Obj _ => true
  end.

(** [a || b] *)
Definition or (a b : value) : value := if truthy a then a else b.

Definition nullish (v : value) : bool :=
  match v with
  | Undefined | Null => true
  | _ => false
  end.

(** [Object.is(a, b)] for values that came out of [JSON.parse] or are
    literals of the code: an object or an array is a new one every time
    and is the same as no other. *)
Definition same_value (a b : value) : bool :=
  match a, b with
  | Undefined, Undefined | Null, Null => true
  | Bool x, Bool y => Bool.eqb x y
  | Num x, Num y => (x =? y)%Z
  | Str x, Str y => x =? y
  | _, _ => false
  end.

(** [typeof v] *)
Definition typeof (v : value) : string :=
  match v with
  | Undefined => "undefined"
  | Null | Arr _ | Obj _ => "object"
  | Bool _ => "boolean"
  | Num _ => "number"
  | Str _ => "string"
  end.

(** Strings hold text as its UTF-8 bytes.  The number of UTF-16 code
    units of the text, which is what [s.length] counts: one for a
    character of one to three bytes, two for one of four. *)
Fixpoint units (l : list ascii) : nat :=
  match l with
  | [] => 0
  | c :: l' =>
      let n := nat_of_ascii c in
      (if ((128 <=? n) && (n <? 192))%nat then 0
       else if (240 <=? n)%nat then 2 else 1)
      + units l'
  end.

Definition length (s : string) : nat := units (list_ascii_of_string s).

(** Own properties of an object, first binding of a key. *)
Fixpoint lookup (k : string) (o : list (string * value)) : value :=
  match o with
  | [] => Undefined
  | (k', v) :: o' => if k =? k' then v else lookup k o'
  end.

(** [v.k] for a [v] that is neither [null] nor [undefined] (on those the
    access throws; the callers below check [nullish] first where the
    source can meet them).  Of the inherited properties only [length] is
    read by the embedded code. *)
Definition get (v : value) (k : string) : value :=
  match v with
  | Obj o => lookup k o
  | Arr l => if k =? "length" then Num (Z.of_nat (List.length l)) else Undefined
  | Str s => if k =? "length" then Num (Z.of_nat (length s)) else Undefined
  | _ => Undefined
  end.

(** [v?.k] *)
Definition opt_get (v : value) (k : string) : value :=
  if nullish v then Undefined else get v k.

(** [v === "s"] *)
Definition is_str (v : value) (s : string) : bool :=
  match v with
  | Str s' => s' =? s
  | _ => false
  end.

Definition of_Z (n : Z) : string := NilZero.string_of_int (Z.to_int n).

Fixpoint join (sep : string) (l : list string) : string :=
  match l with
  | [] => ""
  | [s] => s
  | s :: l' => s ++ sep ++ join sep l'
  end.

(** [String(v)], as [new Error(v)] applies it to its argument. *)
Fixpoint to_string (v : value) : string :=
  match v with
  | Undefined => "undefined"
  | Null => "null"
  | Bool true => "true"
  | Bool false => "false"
  | Num n => of_Z n
  | Str s => s
  | Arr l =>
      join "," (List.map (fun x => if nullish x then "" else to_string x) l)
  | Obj _ => "[object Object]"
  end.

(** [s.includes(sub)] *)
Definition includes (s sub : string) : bool :=
  match String.index 0 sub s with
  | Some _ => true
  | None => false
  end.

(** A character of the ASCII range is one byte; [is_space] is the white
    space and the line terminators of that range (TAB, LF, VT, FF, CR,
    SP). *)
Definition is_space (c : ascii) : bool :=
  let n := nat_of_ascii c in
  (n =? 32)%nat || ((9 <=? n)%nat && (n <=? 13)%nat).

Definition byte (c : ascii) (n : nat) : bool := (nat_of_ascii c =? n)%nat.

(** The other white space and line terminators, by their bytes: U+00A0 in
    two bytes; U+1680, U+2000 to U+200A, U+2028, U+2029, U+202F, U+205F,
    U+3000 and U+FEFF in three. *)
Definition wide2 (a b : ascii) : bool := byte a 194 && byte b 160.

Definition wide3 (a b c : ascii) : bool :=
  (byte a 225 && byte b 154 && byte c 128)
  || (byte a 226 && byte b 128
      && (((128 <=? nat_of_ascii c)%nat && (nat_of_ascii c <=? 138)%nat)
          || byte c 168 || byte c 169 || byte c 175))
  || (byte a 226 && byte b 129 && byte c 159)
  || (byte a 227 && byte b 128 && byte c 128)
  || (byte a 239 && byte b 187 && byte c 191).

(** Removal of the white space at the head of a list of bytes, where
    [two] and [three] recognise the characters of two and three bytes. *)
Fixpoint strip (two : ascii -> ascii -> bool)
         (three : ascii -> ascii -> ascii -> bool) (l : list ascii)
  : list ascii :=
  match l with
  | [] => []
  | c :: l1 =>
      if is_space c then strip two three l1
      else
        match l1 with
        | c2 :: l2 =>
            if two c c2 then strip two three l2
            else
              match l2 with
              | c3 :: l3 => if three c c2 c3 then strip two three l3 else l
              | [] => l
              end
        | [] => l
        end
  end.

Definition trim_start (l : list ascii) : list ascii := strip wide2 wide3 l.

(** The white space at the end, on the reversed list: the bytes of a
    character come last byte first. *)
Definition trim_end (l : list ascii) : list ascii :=
  rev (strip (fun a b => wide2 b a) (fun a b c => wide3 c b a) (rev l)).

(** [s.trim()] *)
Definition trim (s : string) : string :=
  string_of_list_ascii (trim_end (trim_start (list_ascii_of_string s))).

(** *** The number a text spells ([ToNumber] on strings)

    Only the sign of the number is needed: whether the text, trimmed,
    is a numeric literal of the language with a value above zero.  A
    decimal literal with digits [d], taken as one integer, and decimal
    exponent [k] is above zero as a double exactly when [d * 10 ^ k]
    exceeds half of the smallest double, [2 ^ -1075]. *)
Definition digit (base : Z) (c : ascii) : option Z :=
  let n := Z.of_nat (nat_of_ascii c) in
  let d := (if (48 <=? n) && (n <=? 57) then n - 48
            else if (97 <=? n) && (n <=? 102) then n - 87
            else if (65 <=? n) && (n <=? 70) then n - 55
            else 16)%Z in
  if (d <? base)%Z then Some d else None.

(** The digits at the head of [l] in [base], read after [acc], with their
    number and what follows them. *)
Fixpoint read_digits (base : Z) (l : list ascii) (acc : Z) (count : nat)
  : Z * nat * list ascii :=
  match l with
  | c :: l' =>
      match digit base c with
      | Some d => read_digits base l' (base * acc + d)%Z (S count)
      | None => (acc, count, l)
      end
  | [] => (acc, count, [])
  end.

Definition above_zero (d k : Z) : bool :=
  ((0 <? d) && ((0 <=? k) || (10 ^ (- k) <? d * 2 ^ 1075)))%Z.

(** The exponent part and the end of a decimal literal with digits [d],
    [f] of them after the point; [None] when the text is no literal. *)
Definition exponent (d : Z) (f : nat) (l : list ascii) : option bool :=
  match l with
  | [] => Some (above_zero d (- Z.of_nat f)%Z)
  | e :: l1 =>
      if byte e 101 || byte e 69 then
        let '(negative, l2) :=
          match l1 with
          | s :: l2 =>
              if byte s 45 then (true, l2)
              else if byte s 43 then (false, l2) else (false, l1)
          | [] => (false, l1)
          end in
        match read_digits 10 l2 0%Z 0 with
        | (_, O, _) => None
        | (x, S _, []) =>
            Some (above_zero d ((if negative then - x else x) - Z.of_nat f)%Z)
        | (_, S _, _ :: _) => None
        end
      else None
  end.

Definition unsigned_decimal (l : list ascii) : option bool :=
  if String.eqb (string_of_list_ascii l) "Infinity" then Some true
  else
    match read_digits 10 l 0%Z 0 with
    | (i, ni, dot :: l1) =>
        if byte dot 46 then
          match read_digits 10 l1 i 0 with
          | (d, nf, l2) =>
              match ni, nf with
              | O, O => None
              | _, _ => exponent d nf l2
              end
          end
        else match ni with
             | O => None
             | S _ => exponent i 0 (dot :: l1)
             end
    | (i, O, []) => None
    | (i, S _, []) => Some (above_zero i 0)
    end.

(** A literal in base 16, 8 or 2 after its prefix. *)
Definition prefixed (base : Z) (l : list ascii) : option bool :=
  match read_digits base l 0%Z 0 with
  | (x, S _, []) => Some (0 <? x)%Z
  | _ => None
  end.

Definition numeric_literal (l : list ascii) : option bool :=
  match l with
  | [] => Some false
  | z :: x :: l2 =>
      if byte z 48 && (byte x 120 || byte x 88) then prefixed 16 l2
      else if byte z 48 && (byte x 111 || byte x 79) then prefixed 8 l2
      else if byte z 48 && (byte x 98 || byte x 66) then prefixed 2 l2
      else if byte z 43 then unsigned_decimal (x :: l2)
      else if byte z 45 then
        match unsigned_decimal (x :: l2) with
        | Some _ => Some false
        | None => None
        end
      else unsigned_decimal l
  | [_] => unsigned_decimal l
  end.

(** [Number(s) > 0] *)
Definition spells_positive (s : string) : bool :=
  match numeric_literal (list_ascii_of_string (trim s)) with
  | Some b => b
  | None => false
  end.

End Js.

(** ** Settled network calls *)

Module Net.

(** What [response.json()] resolves to, or the message of the error it
    rejects with when the body is not JSON text. *)
Inductive Body : Type :=
| Json (v : Js.value)
| NotJson (err : string).

(** A [Response] as the callers observe it: [response.ok],
    [response.status], [response.headers.get('content-type')] and the
    body. *)
Record Response : Type := {
  ok : bool;
  status : Z;
  content_type : option string;
  body : Body
}.

(** A settled [fetch]: rejected (network failure) or responded. *)
Inductive FetchResult : Type :=
| Rejected (reason : string)
| Responded (resp : Response).

End Net.

(** ** The chat component: data and state *)

Module Chat.

Import Net.

Inductive Sender : Type := user | ai.

(** [new Date()] at a clock reading, or [new Date(v)] of a server value. *)
Inductive Timestamp : Type :=
| DateNow (ms : Z)
| DateOf (v : Js.value).

(** A [Message] object: the four fields every message has, and the other
    properties of the object literal in source order. *)
Record Message : Type := {
  id : Js.value;
  content : Js.value;
  sender : Sender;
  timestamp : Timestamp;
  fields : list (string * Js.value)
}.

Record Project : Type := {
  proj_id : string;
  proj_name : string;
  proj_description : string
}.

(** The four [useState] cells of [ChatInterface]. *)
Record State : Type := {
  messages : list Message;
  message : string;
  isTyping : bool;
  error : option string
}.

Record Props : Type := {
  selectedProject : option Project;
  isEmbeddingProcessing : bool;
  currentConversationId : option string
}.

(** What the closures of one render see. *)
Record Render : Type := {
  r_state : State;
  r_props : Props
}.

(** The body of the POST to [/chat/query] and its bearer token. *)
Record Request : Type := {
  req_message : string;
  req_project_id : string;
  req_conversation_id : option string;
  req_token : string
}.

(** A [handleSendMessage] call suspended at [await fetch]. *)
Record Pending : Type := {
  p_request : Request;
  p_render : Render
}.

Definition nl : string := String (ascii_of_nat 10) "".
Definition dquote : string := String (ascii_of_nat 34) "".

(** [if (x)] on a [string | null] *)
Definition present (x : option string) : bool :=
  match x with
  | Some s => negb (s =? "")
  | None => false
  end.

(** Message of the [TypeError] of reading the property [prop] of [v],
    which is [null] or [undefined], in the wording of V8 (Chrome, Node). *)
Definition type_error (v : Js.value) (prop : string) : string :=
  "Cannot read properties of "
  ++ match v with
     | Js.Null => "null"
     | _ => "undefined"
     end
  ++ " (reading '" ++ prop ++ "')".

(** Message of the [TypeError] of calling [callee], which is no function,
    in the same wording. *)
Definition not_a_function (callee : string) : string :=
  callee ++ " is not a function".


(** *** [loadConversationMessages] *)

Section Loader.

(** [JSON.parse]: the parsed value, or [None] when it throws. *)
Variable JSON_parse : string -> option Js.value.

Definition parse_or_null (s : string) : Js.value :=
  match JSON_parse s with
  | Some v => v
  | None => Js.Null
  end.

(** [let queryResult = msg.query_result] and the [if] that parses it
    when it is a string. *)
Definition decode_query_result (raw : Js.value) : Js.value :=
  match raw with
  | Js.Str s => parse_or_null s
  | _ => raw
  end.

(** [let metadata = msg.metadata || {}] and the two [if]s that parse it
    when it is a string and replace what is not an object by [{}]. *)
Definition decode_metadata (raw : Js.value) : Js.value :=
  let metadata := Js.or raw (Js.Obj []) in
  let metadata :=
    match metadata with
    | Js.Str s => if Js.truthy metadata then parse_or_null s else metadata
    | _ => metadata
    end in
  if negb (Js.truthy metadata) || negb (Js.typeof metadata =? "object")
  then Js.Obj [] else metadata.

(** The callback of [data.messages.map]; [None] when it throws (reading
    a property of a [null] record). *)
Definition formatMessage (msg : Js.value) : option Message :=
  if Js.nullish msg then None else
  let queryResult := decode_query_result (Js.get msg "query_result") in
  let metadata := decode_metadata (Js.get msg "metadata") in
  let visualizationData :=
    Js.or (Js.opt_get metadata "_pending_viz_data") (Js.Obj []) in
  let followupSuggestions :=
    Js.or (Js.opt_get metadata "followup_suggestions") (Js.Arr []) in
  let pendingVizData :=
    Js.or (Js.get metadata "_pending_viz_data") (Js.Obj []) in
  let chartData := Js.get metadata "chart" in
  let suggestionsContainer :=
    Js.or (Js.get pendingVizData "suggestions") (Js.Obj []) in
  let chartSuggestions :=
    Js.or (Js.get suggestionsContainer "suggestions") (Js.Arr []) in
  let dataInsights :=
    Js.or (Js.or (Js.opt_get (Js.opt_get (Js.get pendingVizData "suggestions")
                                         "metadata") "data_insights")
                 (Js.get metadata "data_insights"))
          (Js.Str "") in
  let isDirectChartGeneration :=
    Js.or (Js.opt_get metadata "is_direct_generation") (Js.Bool false) in
  let suggestedQuestions :=
    Js.or (Js.or (Js.or (Js.get metadata "suggested_next_questions")
                        (Js.get metadata "suggested_questions"))
                 (Js.get pendingVizData "suggested_questions"))
          (Js.Arr []) in
  Some {|
    id := Js.get msg "id";
    content := Js.get msg "content";
    sender := if Js.is_str (Js.get msg "role") "user" then user else ai;
    timestamp := DateOf (Js.get msg "created_at");
    fields :=
      [ ("sqlQuery", Js.get msg "sql_query");
        ("queryResult", queryResult);
        ("intent", Js.get msg "intent");
        ("tables_used", Js.get msg "tables_used");
        ("suggestion", suggestedQuestions);
        ("business_rules_applied", Js.get msg "business_rules_applied");
        ("reference_context", Js.get msg "reference_context");
        ("sample_data",
          Js.or (Js.or (Js.opt_get queryResult "sample_data")
                       (Js.opt_get queryResult "data"))
                (Js.get msg "sample_data"));
        ("total_rows",
          Js.or (Js.or (Js.opt_get queryResult "rows_count")
                       (Js.opt_get queryResult "row_count"))
                (Js.get msg "rows_count"));
        ("retrieval_stats", Js.get msg "retrieval_stats");
        ("context_sources", Js.get msg "context_sources");
        ("chart", if Js.truthy chartData then chartData else Js.Undefined);
        ("chart_suggestions", Js.or chartSuggestions (Js.Arr []));
        ("data_insights",
          Js.or (Js.or (Js.or dataInsights
                              (Js.opt_get (Js.opt_get visualizationData "metadata")
                                          "data_insights"))
                       (Js.opt_get metadata "data_insights"))
                (Js.Str ""));
        ("requires_chart_selection",
          Js.Bool (Js.truthy (Js.opt_get chartSuggestions "length")
                   || Js.truthy (Js.opt_get (Js.get pendingVizData "suggestions")
                                            "length")));
        ("direct_chart_generation", isDirectChartGeneration);
        ("followup_suggestions", followupSuggestions) ]
  |}.

(** [xs.map(f)] for an [f] that may throw. *)
Fixpoint map_throwing {A B : Type} (f : A -> option B) (xs : list A)
  : option (list B) :=
  match xs with
  | [] => Some []
  | x :: xs' =>
      match f x with
      | None => None
      | Some y =>
          match map_throwing f xs' with
          | None => None
          | Some ys => Some (y :: ys)
          end
      end
  end.

(** The welcome message of an empty conversation. *)
Definition empty_conversation_welcome (p : Props) (now : Z) : list Message :=
  match selectedProject p with
  | Some pr =>
      if negb (proj_id pr =? "") then
        [ {| id := Js.Str "welcome";
             content := Js.Str
               ("Hello! I'm your Supply Chain Assistant for " ++ dquote ++ proj_name pr
                ++ dquote ++ ". I can help you query your database using schema information, business rules, and documentation. What would you like to know?");
             sender := ai;
             timestamp := DateNow now;
             fields :=
               [ ("intent",
                  Js.Str (if isEmbeddingProcessing p
                          then "processing_status" else "welcome")) ] |} ]
      else []
  | None => []
  end.

Definition set_messages (ms : list Message) (s : State) : State :=
  {| messages := ms; message := message s;
     isTyping := isTyping s; error := error s |}.

(** The part of [loadConversationMessages] that runs when its [fetch]
    has settled.  [p] holds the props of the render whose effect
    started the load.  Every exception ends in the [catch], which only
    logs. *)
Definition load_settled (p : Props) (res : FetchResult) (now : Z)
           (s : State) : State :=
  match res with
  | Rejected _ => s
  | Responded resp =>
      if ok resp then
        match body resp with
        | NotJson _ => s
        | Json data =>
            if Js.nullish data then s else
            let msgs := Js.get data "messages" in
            if negb (Js.truthy msgs)
               || match Js.get msgs "length" with
                  | Js.Num 0 => true
                  | _ => false
                  end
            then set_messages (empty_conversation_welcome p now) s
            else
              match msgs with
              | Js.Arr l =>
                  match map_throwing formatMessage l with
                  | Some formattedMessages => set_messages formattedMessages s
                  | None => s
                  end
              | _ => s
              end
        end
      else s
  end.

End Loader.

(** *** [handleSendMessage] *)

(** How the [try] block ends once [fetch] has settled: with the parsed
    [data], or in the [catch] with the message of the error. *)
Inductive Outcome : Type :=
| Threw (msg : string)
| Got (data : Js.value).

(** [x.includes("processing")] exists on strings and arrays only. *)
Definition has_includes (v : Js.value) : bool :=
  match v with
  | Js.Str _ | Js.Arr _ => true
  | _ => false
  end.

(** The [try] block from [if (!response.ok)] down to the computation of
    [finalAnswer]; [r] is the render that created the handler.  The
    content type of the response is not read. *)
Definition query_outcome (r : Render) (res : FetchResult) : Outcome :=
  match res with
  | Rejected reason => Threw reason
  | Responded resp =>
      if negb (ok resp) then
        if (status resp =? 401)%Z
        then Threw "Authentication expired. Please log in again."
        else
          let errorData :=
            match body resp with
            | Json v => v
            | NotJson _ => Js.Obj []
            end in
          if Js.nullish errorData then Threw (type_error errorData "detail")
          else Threw (Js.to_string
                        (Js.or (Js.get errorData "detail")
                               (Js.Str ("Server error: " ++ Js.of_Z (status resp)))))
      else
        match body resp with
        | NotJson err => Threw err
        | Json data =>
            if Js.nullish data then Threw (type_error data "final_answer")
            else if isEmbeddingProcessing (r_props r)
                    && negb (has_includes (Js.get data "final_answer"))
            then
              if Js.nullish (Js.get data "final_answer")
              then Threw (type_error (Js.get data "final_answer") "includes")
              else Threw (not_a_function "data.final_answer.includes")
            else Got data
        end
  end.

(** The [aiResponse] object literal.  Its content is [data.final_answer]:
    the [finalAnswer] variable with the processing note is computed by the
    source and not used. *)
Definition aiResponse (data : Js.value) (now : Z) : Message :=
  {| id := Js.Str (Js.of_Z (now + 1));
     content := Js.get data "final_answer";
     sender := ai;
     timestamp := DateNow now;
     fields :=
       [ ("relatedDocuments", Js.or (Js.get data "tables_used") (Js.Arr []));
         ("sql_query", Js.get data "sql_query");
         ("query_result", Js.get data "query_result");
         ("intent", Js.get data "intent");
         ("confidence", Js.get data "confidence");
         ("tables_used", Js.get data "tables_used");
         ("suggestion", Js.get data "suggestion");
         ("business_rules_applied", Js.get data "business_rules_applied");
         ("reference_context", Js.get data "reference_context");
         ("sample_data", Js.get data "sample_data");
         ("total_rows", Js.get data "total_rows");
         ("retrieval_stats", Js.get data "retrieval_stats");
         ("context_sources", Js.get data "context_sources");
         ("po_workflow", Js.get data "po_workflow");
         ("po_workflow_started", Js.get data "po_workflow_started");
         ("chart", Js.get data "chart");
         ("chart_suggestions", Js.or (Js.get data "chart_suggestions") (Js.Arr []));
         ("data_insights", Js.or (Js.get data "data_insights") (Js.Str ""));
         ("requires_chart_selection",
           Js.or (Js.get data "requires_chart_selection") (Js.Bool false));
         ("followup_suggestions",
           Js.or (Js.opt_get (Js.get data "chart") "followup_suggestions")
                 (Js.Arr [])) ] |}.

Definition errorContent (r : Render) (msg : string) : string :=
  "I'm sorry, I encountered an error: " ++ msg
  ++ (if isEmbeddingProcessing (r_props r)
      then nl ++ nl ++ "This might be related to ongoing document processing. Please try again in a moment."
      else "").

(** The [errorResponse] object literal of the [catch] block. *)
Definition errorResponse (r : Render) (msg : string) (now : Z) : Message :=
  {| id := Js.Str (Js.of_Z (now + 1));
     content := Js.Str (errorContent r msg);
     sender := ai;
     timestamp := DateNow now;
     fields := [ ("intent", Js.Str "error") ] |}.

(** End of the [try] block, then [finally]: the reply is appended with a
    functional update, to the list the store holds at that moment. *)
Definition finish (r : Render) (o : Outcome) (now : Z) (s : State) : State :=
  match o with
  | Got data =>
      {| messages := messages s ++ [aiResponse data now];
         message := message s;
         isTyping := false;
         error := error s |}
  | Threw msg =>
      {| messages := messages s ++ [errorResponse r msg now];
         message := message s;
         isTyping := false;
         error := Some msg |}
  end.

(** [handleSendMessage] after its [await fetch]. *)
Definition send_settled (p : Pending) (res : FetchResult) (now : Z)
           (s : State) : State :=
  finish (p_render p) (query_outcome (p_render p) res) now s.

Definition userMessage (r : Render) (now : Z) : Message :=
  {| id := Js.Str (Js.of_Z now);
     content := Js.Str (Js.trim (message (r_state r)));
     sender := user;
     timestamp := DateNow now;
     fields := [] |}.

(** The guard [!message.trim() || !selectedProject || isTyping], on the
    values of the render that created the handler. *)
Definition send_blocked (r : Render) : bool :=
  (Js.trim (message (r_state r)) =? "")
  || match selectedProject (r_props r) with
     | Some _ => false
     | None => true
     end
  || isTyping (r_state r).

(** [handleSendMessage] up to its [await fetch]: the new store, and the
    request it is suspended on when it issued one.  [token] is
    [localStorage.getItem("access_token")]. *)
Definition handleSendMessage (r : Render) (token : option string) (now : Z)
           (s : State) : State * option Pending :=
  if send_blocked r then (s, None) else
  match selectedProject (r_props r) with
  | None => (s, None)
  | Some pr =>
      let s1 :=
        {| messages := messages s ++ [userMessage r now];
           message := "";
           isTyping := true;
           error := None |} in
      match token with
      | Some tok =>
          if tok =? "" then
            (finish r (Threw "No authentication token found. Please log in again.")
                    now s1, None)
          else
            (s1,
             Some {| p_request :=
                       {| req_message := Js.trim (message (r_state r));
                          req_project_id := proj_id pr;
                          req_conversation_id :=
                            currentConversationId (r_props r);
                          req_token := tok |};
                     p_render := r |})
      | None =>
          (finish r (Threw "No authentication token found. Please log in again.")
                  now s1, None)
      end
  end.

(** *** The conversation effect and the event loop *)

(** The indentation of the lines of the template literal below. *)
Definition indent : string := "                      ".

(** The welcome message of a new chat: the template literal with its line
    breaks, the indentation of its lines and the characters that open three
    of them, as the source file holds them. *)
Definition new_chat_welcome (p : Props) (now : Z) : list Message :=
  match selectedProject p with
  | Some pr =>
      if negb (proj_id pr =? "") then
        [ {| id := Js.Str "welcome";
             content := Js.Str
               ("Hello! I'm your Supply Chain Assistant for " ++ dquote
                ++ proj_name pr ++ dquote ++ ". " ++ nl
                ++ indent ++ "I can help you:" ++ nl
                ++ indent ++ "üìä Query your database using natural language" ++ nl
                ++ indent ++ "üìã Generate purchase orders by saying " ++ dquote
                ++ "generate PO for today" ++ dquote ++ nl
                ++ indent ++ "üí° Analyze data and suggest PO creation when shortfalls are found" ++ nl
                ++ indent ++ "What would you like to do?");
             sender := ai;
             timestamp := DateNow now;
             fields :=
               [ ("intent",
                  Js.Str (if isEmbeddingProcessing p
                          then "processing_status" else "welcome")) ] |} ]
      else []
  | None => []
  end.

(** What waits in the browser for the component: suspended handlers and
    timers, each with the closure it will resume. *)
Inductive Task : Type :=
| QueryTask (p : Pending)
| LoadTask (p : Props) (conversationId : string)
| SendTimer (r : Render).

(** The body of the effect on
    [[currentConversationId, selectedProject?.id, isEmbeddingProcessing]]. *)
Definition conversation_effect (p : Props) (now : Z) (s : State)
  : State * list Task :=
  match currentConversationId p with
  | Some cid =>
      if negb (cid =? "") then (s, [LoadTask p cid])
      else (set_messages (new_chat_welcome p now) s, [])
  | None => (set_messages (new_chat_welcome p now) s, [])
  end.

Definition eqb_opt (a b : option string) : bool :=
  match a, b with
  | Some x, Some y => x =? y
  | None, None => true
  | _, _ => false
  end.

Definition deps_changed (p p' : Props) : bool :=
  negb (eqb_opt (currentConversationId p) (currentConversationId p')
        && eqb_opt (option_map proj_id (selectedProject p))
                   (option_map proj_id (selectedProject p'))
        && Bool.eqb (isEmbeddingProcessing p) (isEmbeddingProcessing p')).

Record World : Type := {
  st : State;
  props : Props;
  token : option string;
  tasks : list Task
}.

Inductive Event : Type :=
| Input (s : string)                   (* onChange of the input field *)
| Submit (now : Z)                     (* form submit, Enter key *)
| SuggestionClick (s : string)         (* handleSuggestionClick and its two siblings *)
| SetProps (p : Props) (now : Z)       (* the parent renders with new props *)
| TimerFires (i : nat) (now : Z)
| QuerySettles (i : nat) (res : FetchResult) (now : Z)
| LoadSettles (i : nat) (res : FetchResult) (now : Z).

Definition render_of (w : World) : Render :=
  {| r_state := st w; r_props := props w |}.

Fixpoint remove_nth {A : Type} (i : nat) (l : list A) : list A :=
  match l, i with
  | [], _ => []
  | _ :: l', O => l'
  | x :: l', S i' => x :: remove_nth i' l'
  end.

Definition opt_list {A : Type} (o : option A) : list A :=
  match o with
  | Some x => [x]
  | None => []
  end.

Definition set_message (m : string) (s : State) : State :=
  {| messages := messages s; message := m;
     isTyping := isTyping s; error := error s |}.

Section Machine.

Variable JSON_parse : string -> option Js.value.

(** One turn of the event loop; [None] when the event names a task that
    is not there. *)
Definition step (w : World) (e : Event) : option World :=
  match e with
  | Input s =>
      Some {| st := set_message s (st w); props := props w;
              token := token w; tasks := tasks w |}
  | Submit now =>
      let (s', req) := handleSendMessage (render_of w) (token w) now (st w) in
      Some {| st := s'; props := props w; token := token w;
              tasks := tasks w ++ List.map QueryTask (opt_list req) |}
  | SuggestionClick s =>
      Some {| st := set_message s (st w); props := props w;
              token := token w;
              tasks := tasks w ++ [SendTimer (render_of w)] |}
  | SetProps p now =>
      if deps_changed (props w) p then
        let (s', ts) := conversation_effect p now (st w) in
        Some {| st := s'; props := p; token := token w;
                tasks := tasks w ++ ts |}
      else
        Some {| st := st w; props := p; token := token w;
                tasks := tasks w |}
  | TimerFires i now =>
      match nth_error (tasks w) i with
      | Some (SendTimer r) =>
          let (s', req) := handleSendMessage r (token w) now (st w) in
          Some {| st := s'; props := props w; token := token w;
                  tasks := remove_nth i (tasks w)
                           ++ List.map QueryTask (opt_list req) |}
      | _ => None
      end
  | QuerySettles i res now =>
      match nth_error (tasks w) i with
      | Some (QueryTask p) =>
          Some {| st := send_settled p res now (st w); props := props w;
                  token := token w; tasks := remove_nth i (tasks w) |}
      | _ => None
      end
  | LoadSettles i res now =>
      match nth_error (tasks w) i with
      | Some (LoadTask p _) =>
          Some {| st := load_settled JSON_parse p res now (st w);
                  props := props w; token := token w;
                  tasks := remove_nth i (tasks w) |}
      | _ => None
      end
  end.

Fixpoint run (w : World) (es : list Event) : option World :=
  match es with
  | [] => Some w
  | e :: es' =>
      match step w e with
      | Some w' => run w' es'
      | None => None
      end
  end.

(** The component after its first render and effect. *)
Definition mount (p : Props) (tok : option string) (now : Z) : World :=
  let s0 := {| messages := []; message := ""; isTyping := false;
               error := None |} in
  let (s', ts) := conversation_effect p now s0 in
  {| st := s'; props := p; token := tok; tasks := ts |}.

End Machine.

(** The [/chat/query] requests in flight. *)
Definition in_flight (w : World) : list Pending :=
  flat_map (fun t => match t with QueryTask p => [p] | _ => [] end) (tasks w).

Definition count_sender (who : Sender) (ms : list Message) : nat :=
  List.length
    (filter (fun m => match sender m, who with
                      | user, user | ai, ai => true
                      | _, _ => false
                      end) ms).

End Chat.

(** ** The purchase-order sidebar: WebSocket channel and events *)

Module Sidebar.

Record PurchaseOrder : Type := {
  po_number : string;
  vendor_name : string;
  total_amount : Z;
  status : string;
  needs_approval : bool;
  pdf_path : string;
  order_date : string;
  created_at : string;
  materials_count : option Z
}.

Record Project : Type := {
  proj_id : string;
  proj_name : string
}.

(** The [type] tag of an inbound message; the [default] branch of the
    switch receives every other string. *)
Inductive MessageType : Type :=
| workflow_progress
| workflow_complete
| workflow_error
| po_status_update
| connection_established
| unknown_type (t : string).

Record WebSocketMessage : Type := {
  type : MessageType;
  m_project_id : option string;
  m_workflow_id : option string;
  m_po_number : option string;
  m_step : option string;
  m_message : option string;
  m_error : option string;
  m_status : option string;
  m_timestamp : option string
}.

(** The [useState] cells the channel and its handlers write.  A socket is
    named by its position in the list of sockets created so far. *)
Record State : Type := {
  todayPOs : list PurchaseOrder;
  selectedDatePOs : list PurchaseOrder;
  workflowStatus : option string;
  lastWorkflowError : option (string * string);
  wsConnection : option nat;
  isConnected : bool;
  connectionRetries : nat
}.

(** What a handler does besides writing state. *)
Inductive Effect : Type :=
| ToastInfo
| ToastSuccess
| ToastError
| RefetchIn (ms : Z).

(** [x] as a condition, for an optional string field *)
Definition present (x : option string) : bool :=
  match x with
  | Some s => negb (s =? "")
  | None => false
  end.

(** [a || b] on optional strings *)
Definition or_else (a b : option string) : option string :=
  if present a then a else b.

(** [{ ...po, status: status }] *)
Definition with_status (po : PurchaseOrder) (s : string) : PurchaseOrder :=
  {| po_number := po_number po;
     vendor_name := vendor_name po;
     total_amount := total_amount po;
     status := s;
     needs_approval := needs_approval po;
     pdf_path := pdf_path po;
     order_date := order_date po;
     created_at := created_at po;
     materials_count := materials_count po |}.

(** The callback of [prev.map] in the [po_status_update] case. *)
Definition update_status (num stat : string) (po : PurchaseOrder)
  : PurchaseOrder :=
  if po_number po =? num then with_status po stat else po.

(** [handleWebSocketMessage]; [today] is
    [new Date().toLocaleDateString()]. *)
Definition handleWebSocketMessage (today : string) (data : WebSocketMessage)
           (s : State) : State * list Effect :=
  match type data with
  | workflow_progress =>
      ({| todayPOs := todayPOs s;
          selectedDatePOs := selectedDatePOs s;
          workflowStatus := or_else (m_message data) (Some "Processing...");
          lastWorkflowError := lastWorkflowError s;
          wsConnection := wsConnection s;
          isConnected := isConnected s;
          connectionRetries := connectionRetries s |},
       [ToastInfo])
  | workflow_complete =>
      ({| todayPOs := todayPOs s;
          selectedDatePOs := selectedDatePOs s;
          workflowStatus := None;
          lastWorkflowError := None;
          wsConnection := wsConnection s;
          isConnected := isConnected s;
          connectionRetries := connectionRetries s |},
       [ToastSuccess; RefetchIn 1000])
  | workflow_error =>
      ({| todayPOs := todayPOs s;
          selectedDatePOs := selectedDatePOs s;
          workflowStatus := None;
          lastWorkflowError :=
            Some (today,
                  match or_else (or_else (m_error data) (m_message data))
                                (Some "Unknown error") with
                  | Some e => e
                  | None => "Unknown error"
                  end);
          wsConnection := wsConnection s;
          isConnected := isConnected s;
          connectionRetries := connectionRetries s |},
       [ToastError])
  | po_status_update =>
      match m_po_number data, m_status data with
      | Some num, Some stat =>
          if negb (num =? "") && negb (stat =? "") then
            ({| todayPOs := List.map (update_status num stat) (todayPOs s);
                selectedDatePOs :=
                  List.map (update_status num stat) (selectedDatePOs s);
                workflowStatus := workflowStatus s;
                lastWorkflowError := lastWorkflowError s;
                wsConnection := wsConnection s;
                isConnected := isConnected s;
                connectionRetries := connectionRetries s |},
             [ToastInfo;
              if stat =? "approved" then ToastSuccess
              else if stat =? "rejected" then ToastError
              else if stat =? "sent_to_vendor" then ToastSuccess
              else ToastInfo])
          else (s, [ToastInfo])
      | _, _ => (s, [ToastInfo])
      end
  | connection_established => (s, [])
  | unknown_type _ => (s, [])
  end.

(** *** The channel *)

(** The values a [connectWebSocket] closure, and the socket handlers it
    installs, read from the render that created it.

    [connectWebSocket] is kept by [useCallback] on
    [[selectedProject?.id, connectionRetries]]; the lifecycle effect, on
    [[selectedProject?.id]], calls the closure of the render in which the
    project id changed.  Inside that closure the name [connectWebSocket] is
    the binding of the same render, so the timer its [onclose] sets calls
    the same closure again, and [selectedProject] and [connectionRetries]
    are the constants of that render in every handler of the chain. *)
Record Closure : Type := {
  c_selectedProject : option Project;
  c_connectionRetries : nat
}.

Inductive ReadyState : Type := CONNECTING | OPEN | CLOSING | CLOSED.

Record Socket : Type := {
  url : string;
  readyState : ReadyState;
  handlers : Closure
}.

(** [API_BASE_URL.replace('http', 'ws')] for the default base URL. *)
Definition wsBase : string := "wss://retail-ai-chatbot.onrender.com".

Record World : Type := {
  st : State;
  mounted : bool;
  selectedProject : option Project;
  token : option string;
  sockets : list Socket;            (* every socket created so far *)
  timers : list (Z * Closure);      (* pending [setTimeout]s: delay, closure *)
  cleanup : option (option nat)     (* the cleanup the lifecycle effect
                                       returned: the [wsConnection] of its render *)
}.

Inductive Event : Type :=
| SelectProject (p : option Project)   (* the parent renders with this prop *)
| Unmount
| Opens (i : nat)                      (* [open] event of socket [i] *)
| Closes (i : nat)                     (* [close] event of socket [i] *)
| TimerFires (k : nat)
| Receives (i : nat) (payload : option WebSocketMessage) (today : string).

Definition set_channel (c : option nat) (b : bool) (n : nat) (s : State)
  : State :=
  {| todayPOs := todayPOs s;
     selectedDatePOs := selectedDatePOs s;
     workflowStatus := workflowStatus s;
     lastWorkflowError := lastWorkflowError s;
     wsConnection := c;
     isConnected := b;
     connectionRetries := n |}.

(** Setters of an unmounted component do nothing. *)
Definition write (w : World) (s : State) : State :=
  if mounted w then s else st w.

Fixpoint update_nth {A : Type} (i : nat) (f : A -> A) (l : list A) : list A :=
  match l, i with
  | [], _ => []
  | x :: l', O => f x :: l'
  | x :: l', S i' => x :: update_nth i' f l'
  end.

Definition set_ready (r : ReadyState) (sk : Socket) : Socket :=
  {| url := url sk; readyState := r; handlers := handlers sk |}.

(** [ws.close()] *)
Definition close (sk : Socket) : Socket :=
  match readyState sk with
  | CONNECTING | OPEN => set_ready CLOSING sk
  | CLOSING | CLOSED => sk
  end.

Definition close_opt (c : option nat) (l : list Socket) : list Socket :=
  match c with
  | Some i => update_nth i close l
  | None => l
  end.

(** [connectWebSocket], as the closure [c] runs it: the sockets after the
    call. *)
Definition connectWebSocket (c : Closure) (tok : option string)
           (l : list Socket) : list Socket :=
  match c_selectedProject c with
  | None => l
  | Some pr =>
      match tok with
      | Some t =>
          if t =? "" then l
          else l ++ [ {| url := wsBase ++ "/ws/" ++ proj_id pr ++ "?token=" ++ t;
                         readyState := CONNECTING;
                         handlers := c |} ]
      | None => l
      end
  end.

(** [Math.min(1000 * Math.pow(2, connectionRetries), 30000)] *)
Definition delay (retries : nat) : Z :=
  Z.min (1000 * 2 ^ Z.of_nat retries) 30000.

Definition eqb_opt (a b : option string) : bool :=
  match a, b with
  | Some x, Some y => x =? y
  | None, None => true
  | _, _ => false
  end.

Fixpoint remove_nth {A : Type} (i : nat) (l : list A) : list A :=
  match l, i with
  | [], _ => []
  | _ :: l', O => l'
  | x :: l', S i' => x :: remove_nth i' l'
  end.

(** The lifecycle effect on [[selectedProject?.id]], for the render with
    prop [p]: the cleanup of the previous run, then the body. *)
Definition lifecycle_effect (p : option Project) (w : World) : World :=
  let closed :=
    match cleanup w with
    | Some c => close_opt c (sockets w)
    | None => sockets w
    end in
  match p with
  | None =>
      match wsConnection (st w) with
      | Some i =>
          {| st := write w (set_channel None false (connectionRetries (st w)) (st w));
             mounted := mounted w;
             selectedProject := p;
             token := token w;
             sockets := update_nth i close closed;
             timers := timers w;
             cleanup := None |}
      | None =>
          {| st := st w; mounted := mounted w; selectedProject := p;
             token := token w; sockets := closed; timers := timers w;
             cleanup := None |}
      end
  | Some _ =>
      {| st := st w;
         mounted := mounted w;
         selectedProject := p;
         token := token w;
         sockets :=
           connectWebSocket
             {| c_selectedProject := p;
                c_connectionRetries := connectionRetries (st w) |}
             (token w) closed;
         timers := timers w;
         cleanup := Some (wsConnection (st w)) |}
  end.

(** One turn of the event loop; [None] when the event cannot occur.
    [SelectProject] is a render with a new prop, with the lifecycle effect
    when the project id differs.  [Opens] runs [ws.onopen].  [Closes] runs
    [ws.onclose], which reads [selectedProject] and [connectionRetries]
    from the closure of its socket.  [TimerFires] runs the callback the
    [onclose] handed to [setTimeout]: [setConnectionRetries(prev => prev +
    1)], then [connectWebSocket()] of the same closure.  [Receives] runs
    [ws.onmessage]; a payload that [JSON.parse] rejects is [None], logged
    and dropped. *)
Definition step (w : World) (e : Event) : option World :=
  match e with
  | SelectProject p =>
      if negb (mounted w) then None
      else if eqb_opt (option_map proj_id (selectedProject w))
                      (option_map proj_id p)
      then Some {| st := st w; mounted := mounted w; selectedProject := p;
                   token := token w; sockets := sockets w;
                   timers := timers w; cleanup := cleanup w |}
      else Some (lifecycle_effect p w)
  | Unmount =>
      if negb (mounted w) then None
      else Some {| st := st w; mounted := false;
                   selectedProject := selectedProject w;
                   token := token w;
                   sockets := match cleanup w with
                              | Some c => close_opt c (sockets w)
                              | None => sockets w
                              end;
                   timers := timers w;
                   cleanup := None |}
  | Opens i =>
      match nth_error (sockets w) i with
      | Some sk =>
          match readyState sk with
          | CONNECTING =>
              Some {| st := write w (set_channel (Some i) true 0 (st w));
                      mounted := mounted w;
                      selectedProject := selectedProject w;
                      token := token w;
                      sockets := update_nth i (set_ready OPEN) (sockets w);
                      timers := timers w;
                      cleanup := cleanup w |}
          | _ => None
          end
      | None => None
      end
  | Closes i =>
      match nth_error (sockets w) i with
      | Some sk =>
          match readyState sk with
          | CLOSED => None
          | _ =>
              let c := handlers sk in
              Some {| st := write w (set_channel None false
                                       (connectionRetries (st w)) (st w));
                      mounted := mounted w;
                      selectedProject := selectedProject w;
                      token := token w;
                      sockets := update_nth i (set_ready CLOSED) (sockets w);
                      timers :=
                        match c_selectedProject c with
                        | Some _ =>
                            if (c_connectionRetries c <? 5)%nat
                            then timers w ++ [(delay (c_connectionRetries c), c)]
                            else timers w
                        | None => timers w
                        end;
                      cleanup := cleanup w |}
          end
      | None => None
      end
  | TimerFires k =>
      match nth_error (timers w) k with
      | Some (_, c) =>
          Some {| st := write w (set_channel (wsConnection (st w))
                                   (isConnected (st w))
                                   (S (connectionRetries (st w))) (st w));
                  mounted := mounted w;
                  selectedProject := selectedProject w;
                  token := token w;
                  sockets := connectWebSocket c (token w) (sockets w);
                  timers := remove_nth k (timers w);
                  cleanup := cleanup w |}
      | None => None
      end
  | Receives i payload today =>
      match nth_error (sockets w) i with
      | Some sk =>
          match readyState sk, payload with
          | OPEN, Some data =>
              Some {| st := write w (fst (handleWebSocketMessage today data (st w)));
                      mounted := mounted w;
                      selectedProject := selectedProject w;
                      token := token w;
                      sockets := sockets w;
                      timers := timers w;
                      cleanup := cleanup w |}
          | OPEN, None => Some w
          | _, _ => None
          end
      | None => None
      end
  end.

Fixpoint run (w : World) (es : list Event) : option World :=
  match es with
  | [] => Some w
  | e :: es' =>
      match step w e with
      | Some w' => run w' es'
      | None => None
      end
  end.

(** The sidebar after its first render with no project selected. *)
Definition mount (tok : option string) : World :=
  {| st := {| todayPOs := []; selectedDatePOs := [];
              workflowStatus := None; lastWorkflowError := None;
              wsConnection := None; isConnected := false;
              connectionRetries := 0 |};
     mounted := true;
     selectedProject := None;
     token := tok;
     sockets := [];
     timers := [];
     cleanup := None |}.

(** The sockets that are open. *)
Definition open_sockets (w : World) : list Socket :=
  filter (fun sk => match readyState sk with OPEN => true | _ => false end)
         (sockets w).

End Sidebar.

(** ** The status pollers *)

Module Poller.

Import Sidebar.


(** The three effects that call [setInterval]: the polling effect of the
    dashboard page, the one of the status banner, which the page mounts
    while it has a project, and the one of the sidebar. *)
Inductive Owner : Type := PageEffect | BannerEffect | SidebarEffect.


(** A timer made by [setInterval] and not cleared yet, with the effect
    that made it and the values its callback closes over. *)
Record Interval : Type := {
  handle : nat;
  period : Z;
  owner : Owner;
  i_project : Project;
  i_selectedDate : string;
  i_isConnected : bool
}.


Inductive Fetch : Type :=
| GetEmbeddingStatus (project_id : string)
| GetTodayPOs (project_id : string) (today : string)
| GetPOsForDate (project_id : string) (date : string).

(** The dashboard page holds the selected project and runs the first
    embedding poll; while it has a project it mounts the status banner,
    which runs the second while its [isProcessing] is set; the sidebar
    receives the project as a prop and runs the purchase-order poll.
    Dates are [format(date, 'yyyy-MM-dd')] strings. *)
Record World : Type := {
  dashboard_project : option Project;  (* [selectedProject] of the page *)
  sidebar_project : option Project;    (* [selectedProject] of the sidebar *)
  selectedDate : string;
  isConnected : bool;
  banner_isProcessing : Js.value;      (* [isProcessing] of the banner *)
  banner_awaited : nat;                (* its [fetchStatus] calls not settled *)
  intervals : list Interval;           (* the timers the browser holds *)
  next_handle : nat;
  embedding_cleanup : option nat;      (* [clearInterval] of the page effect *)
  banner_cleanup : option nat;         (* [clearInterval] of the banner effect *)
  po_cleanup : option nat;             (* [clearInterval] of the sidebar effect *)
  fetches : list Fetch                 (* requests issued so far *)
}.

Definition set_dashboard (p : option Project) (w : World) : World :=
  {| dashboard_project := p; sidebar_project := sidebar_project w;
     selectedDate := selectedDate w; isConnected := isConnected w;
     banner_isProcessing := banner_isProcessing w;
     banner_awaited := banner_awaited w; intervals := intervals w;
     next_handle := next_handle w; embedding_cleanup := embedding_cleanup w;
     banner_cleanup := banner_cleanup w; po_cleanup := po_cleanup w;
     fetches := fetches w |}.

Definition set_sidebar (p : option Project) (d : string) (b : bool)
           (w : World) : World :=
  {| dashboard_project := dashboard_project w; sidebar_project := p;
     selectedDate := d; isConnected := b;
     banner_isProcessing := banner_isProcessing w;
     banner_awaited := banner_awaited w; intervals := intervals w;
     next_handle := next_handle w; embedding_cleanup := embedding_cleanup w;
     banner_cleanup := banner_cleanup w; po_cleanup := po_cleanup w;
     fetches := fetches w |}.

Definition setIsProcessing (v : Js.value) (w : World) : World :=
  {| dashboard_project := dashboard_project w;
     sidebar_project := sidebar_project w; selectedDate := selectedDate w;
     isConnected := isConnected w; banner_isProcessing := v;
     banner_awaited := banner_awaited w; intervals := intervals w;
     next_handle := next_handle w; embedding_cleanup := embedding_cleanup w;
     banner_cleanup := banner_cleanup w; po_cleanup := po_cleanup w;
     fetches := fetches w |}.

Definition set_awaited (n : nat) (w : World) : World :=
  {| dashboard_project := dashboard_project w;
     sidebar_project := sidebar_project w; selectedDate := selectedDate w;
     isConnected := isConnected w;
     banner_isProcessing := banner_isProcessing w; banner_awaited := n;
     intervals := intervals w; next_handle := next_handle w;
     embedding_cleanup := embedding_cleanup w;
     banner_cleanup := banner_cleanup w; po_cleanup := po_cleanup w;
     fetches := fetches w |}.

(** The banner is unmounted, or mounted anew: its state is the initial
    one and no answer is awaited by it. *)
Definition unmount_banner (w : World) : World :=
  {| dashboard_project := dashboard_project w;
     sidebar_project := sidebar_project w; selectedDate := selectedDate w;
     isConnected := isConnected w; banner_isProcessing := Js.Bool false;
     banner_awaited := 0; intervals := intervals w;
     next_handle := next_handle w; embedding_cleanup := embedding_cleanup w;
     banner_cleanup := banner_cleanup w; po_cleanup := po_cleanup w;
     fetches := fetches w |}.

Definition set_intervals (l : list Interval) (w : World) : World :=
  {| dashboard_project := dashboard_project w;
     sidebar_project := sidebar_project w; selectedDate := selectedDate w;
     isConnected := isConnected w;
     banner_isProcessing := banner_isProcessing w;
     banner_awaited := banner_awaited w; intervals := l;
     next_handle := next_handle w; embedding_cleanup := embedding_cleanup w;
     banner_cleanup := banner_cleanup w; po_cleanup := po_cleanup w;
     fetches := fetches w |}.

(** [fetch(...)], once per entry of [fs] *)
Definition request (fs : list Fetch) (w : World) : World :=
  {| dashboard_project := dashboard_project w;
     sidebar_project := sidebar_project w; selectedDate := selectedDate w;
     isConnected := isConnected w;
     banner_isProcessing := banner_isProcessing w;
     banner_awaited := banner_awaited w; intervals := intervals w;
     next_handle := next_handle w; embedding_cleanup := embedding_cleanup w;
     banner_cleanup := banner_cleanup w; po_cleanup := po_cleanup w;
     fetches := (fetches w ++ fs)%list |}.

(** The interval the last run of the effect of [o] set, which its cleanup
    will clear. *)
Definition cleanup_of (o : Owner) (w : World) : option nat :=
  match o with
  | PageEffect => embedding_cleanup w
  | BannerEffect => banner_cleanup w
  | SidebarEffect => po_cleanup w
  end.

Definition set_cleanup (o : Owner) (h : option nat) (w : World) : World :=
  match o with
  | PageEffect =>
      {| dashboard_project := dashboard_project w;
         sidebar_project := sidebar_project w;
         selectedDate := selectedDate w; isConnected := isConnected w;
         banner_isProcessing := banner_isProcessing w;
         banner_awaited := banner_awaited w; intervals := intervals w;
         next_handle := next_handle w; embedding_cleanup := h;
         banner_cleanup := banner_cleanup w; po_cleanup := po_cleanup w;
         fetches := fetches w |}
  | BannerEffect =>
      {| dashboard_project := dashboard_project w;
         sidebar_project := sidebar_project w;
         selectedDate := selectedDate w; isConnected := isConnected w;
         banner_isProcessing := banner_isProcessing w;
         banner_awaited := banner_awaited w; intervals := intervals w;
         next_handle := next_handle w;
         embedding_cleanup := embedding_cleanup w; banner_cleanup := h;
         po_cleanup := po_cleanup w; fetches := fetches w |}
  | SidebarEffect =>
      {| dashboard_project := dashboard_project w;
         sidebar_project := sidebar_project w;
         selectedDate := selectedDate w; isConnected := isConnected w;
         banner_isProcessing := banner_isProcessing w;
         banner_awaited := banner_awaited w; intervals := intervals w;
         next_handle := next_handle w;
         embedding_cleanup := embedding_cleanup w;
         banner_cleanup := banner_cleanup w; po_cleanup := h;
         fetches := fetches w |}
  end.

(** [clearInterval(h)] *)
Definition clearInterval (h : option nat) (l : list Interval) : list Interval :=
  match h with
  | Some n => filter (fun iv => negb (handle iv =? n)%nat) l
  | None => l
  end.

(** The cleanup the last run of the effect of [o] returned, if it
    returned one. *)
Definition run_cleanup (o : Owner) (w : World) : World :=
  set_cleanup o None
    (set_intervals (clearInterval (cleanup_of o w) (intervals w)) w).

(** [const interval = setInterval(..., ms)] in the effect of [o], which
    returns the cleanup for it; the callback closes over [pr] and over
    the date and the connection flag of the render. *)
Definition setInterval (o : Owner) (ms : Z) (pr : Project) (w : World) : World :=
  set_cleanup o (Some (next_handle w))
    {| dashboard_project := dashboard_project w;
       sidebar_project := sidebar_project w; selectedDate := selectedDate w;
       isConnected := isConnected w;
       banner_isProcessing := banner_isProcessing w;
       banner_awaited := banner_awaited w;
       intervals := (intervals w
        ++ [ {| handle := next_handle w; period := ms; owner := o;
                i_project := pr; i_selectedDate := selectedDate w;
                i_isConnected := isConnected w |} ])%list;
       next_handle := S (next_handle w);
       embedding_cleanup := embedding_cleanup w;
       banner_cleanup := banner_cleanup w; po_cleanup := po_cleanup w;
       fetches := fetches w |}.

(** *** The page and the banner *)

(** The body of the page effect on [[selectedProject?.id, API_BASE_URL]]
    for the render with project [p]. *)
Definition page_effect (p : option Project) (w : World) : World :=
  match p with
  | None => w
  | Some pr =>
      setInterval PageEffect 3000 pr
        (request [GetEmbeddingStatus (proj_id pr)] w)
  end.

(** [fetchStatus()] of the banner *)
Definition fetchStatus (pr : Project) (w : World) : World :=
  set_awaited (S (banner_awaited w))
    (request [GetEmbeddingStatus (proj_id pr)] w).

(** The body of the banner effect on [[projectId]]. *)
Definition banner_fetch_effect (pr : Project) (w : World) : World :=
  if negb (proj_id pr =? "") then fetchStatus pr w else w.

(** The body of the banner effect on [[projectId, isProcessing]]. *)
Definition banner_poll_effect (pr : Project) (w : World) : World :=
  if negb (proj_id pr =? "") && Js.truthy (banner_isProcessing w)
  then setInterval BannerEffect 3000 pr w
  else w.

(** The page renders with the project [p].  When the project id is the
    one of the last render no effect runs.  Otherwise the cleanups of
    the banner and of the page run, then the bodies, those of the banner
    first; a banner that was not there before is mounted in its initial
    state, one that stays keeps its state. *)
Definition page_selects (p : option Project) (w : World) : World :=
  if eqb_opt (option_map proj_id (dashboard_project w)) (option_map proj_id p)
  then set_dashboard p w
  else
    let cleared := run_cleanup PageEffect (run_cleanup BannerEffect w) in
    match p with
    | None => set_dashboard p (unmount_banner cleared)
    | Some pr =>
        page_effect p
          (banner_poll_effect pr
             (banner_fetch_effect pr
                (set_dashboard p
                   (match dashboard_project w with
                    | Some _ => cleared
                    | None => unmount_banner cleared
                    end))))
    end.

(** A call of [fetchStatus] settles: [Some data] for an OK response
    with the JSON body [data], [None] for anything else, which leaves
    [isProcessing] as it is, as does the body [null], on which reading a
    property throws.  A new value of [isProcessing] re-runs the effect
    on [[projectId, isProcessing]]. *)
Definition banner_settles (res : option Js.value) (w : World)
  : option World :=
  match dashboard_project w, banner_awaited w with
  | Some pr, S n =>
      let w1 := set_awaited n w in
      match res with
      | Some data =>
          if Js.nullish data then Some w1
          else
            let processing := Js.get data "is_processing" in
            if Js.same_value processing (banner_isProcessing w) then Some w1
            else Some (banner_poll_effect pr
                         (setIsProcessing processing
                            (run_cleanup BannerEffect w1)))
      | None => Some w1
      end
  | _, _ => None
  end.

(** *** The sidebar *)

Section Clock.

(** [format(new Date(dateStr), 'yyyy-MM-dd')]: the day that the UTC
    midnight of [dateStr] falls on in the time zone of the browser, which
    is [dateStr] at and east of UTC and the day before it west of UTC. *)
Variable local_day : string -> string.

(** [fetchTodayPOs(); if (!isToday(selectedDate)) fetchPOsForDate(...)],
    where [fetchPOsForDate] returns at once when
    [isToday(new Date(dateStr))]; [today] is
    [format(new Date(), 'yyyy-MM-dd')]. *)
Definition fetch_pos (pr : Project) (date today : string) : list Fetch :=
  GetTodayPOs (proj_id pr) today
  :: (if date =? today then []
      else if local_day date =? today then []
      else [GetPOsForDate (proj_id pr) date]).

(** The sidebar effect on [[selectedProject, selectedDate, isConnected]],
    for the render with these three values: cleanup of the previous run,
    then the body. *)
Definition po_effect (p : option Project) (d : string) (b : bool)
           (today : string) (w : World) : World :=
  let w1 := set_sidebar p d b (run_cleanup SidebarEffect w) in
  match p with
  | None => w1
  | Some pr =>
      setInterval SidebarEffect 15000 pr (request (fetch_pos pr d today) w1)
  end.

(** The callback of an interval. *)
Definition tick (iv : Interval) (today : string) : list Fetch :=
  match owner iv with
  | PageEffect | BannerEffect => [GetEmbeddingStatus (proj_id (i_project iv))]
  | SidebarEffect =>
      if negb (i_isConnected iv)
      then fetch_pos (i_project iv) (i_selectedDate iv) today
      else []
  end.

(** [today] is [format(new Date(), 'yyyy-MM-dd')] when the event is
    handled.  Each component takes the new project in a turn of its own,
    in either order.  The sidebar receives a selected project as a new
    object and a picked date as a new [Date], so both re-run its effect;
    the page effect re-runs when the project id differs. *)
Inductive Event : Type :=
| PageSelects (p : option Project)
| BannerSettles (res : option Js.value)
| SidebarReceives (p : option Project) (today : string)
| SelectDate (d : string) (today : string)
| SetConnected (b : bool) (today : string)
| Ticks (h : nat) (today : string).

Definition step (w : World) (e : Event) : option World :=
  match e with
  | PageSelects p => Some (page_selects p w)
  | BannerSettles r => banner_settles r w
  | SidebarReceives p today =>
      Some (po_effect p (selectedDate w) (isConnected w) today w)
  | SelectDate d today =>
      Some (po_effect (sidebar_project w) d (isConnected w) today w)
  | SetConnected b today =>
      if Bool.eqb b (isConnected w) then Some w
      else Some (po_effect (sidebar_project w) (selectedDate w) b today w)
  | Ticks h today =>
      match find (fun iv => (handle iv =? h)%nat) (intervals w) with
      | Some iv =>
          let w1 := request (tick iv today) w in
          Some (match owner iv with
                | BannerEffect => set_awaited (S (banner_awaited w)) w1
                | _ => w1
                end)
      | None => None
      end
  end.

Fixpoint run (w : World) (es : list Event) : option World :=
  match es with
  | [] => Some w
  | e :: es' =>
      match step w e with
      | Some w' => run w' es'
      | None => None
      end
  end.

End Clock.

(** The components after their first render, no project selected. *)
Definition mount (date : string) : World :=
  {| dashboard_project := None;
     sidebar_project := None;
     selectedDate := date;
     isConnected := false;
     banner_isProcessing := Js.Bool false;
     banner_awaited := 0;
     intervals := [];
     next_handle := 0;
     embedding_cleanup := None;
     banner_cleanup := None;
     po_cleanup := None;
     fetches := [] |}.





End Poller.

(** ** The document upload dialog *)

Module Upload.

Import Net.

Inductive Status : Type := uploading | completed | failed.

Record UploadFile : Type := {
  uf_id : string;
  file : string;
  progress : Z;
  status : Status;
  error : option string
}.

Record State : Type := {
  uploadFiles : list UploadFile;
  isUploading : bool
}.

Inductive Effect : Type :=
| OnUploadComplete (files : list UploadFile)
| Alert (text : string).

(** [{ ...file, status: "completed", progress: 100 }] *)
Definition mark_completed (f : UploadFile) : UploadFile :=
  {| uf_id := uf_id f; file := file f; progress := 100;
     status := completed; error := error f |}.

(** [{ ...file, status: "error", error: msg }] *)
Definition mark_error (msg : string) (f : UploadFile) : UploadFile :=
  {| uf_id := uf_id f; file := file f; progress := progress f;
     status := failed; error := Some msg |}.

(** [v > 0]: a string is compared by the number it spells, an array by
    the text it joins to; [null], [undefined] and objects are never
    above zero. *)
Definition gt_zero (v : Js.value) : bool :=
  match v with
  | Js.Num n => (0 <? n)%Z
  | Js.Bool b => b
  | Js.Str s => Js.spells_positive s
  | Js.Arr _ => Js.spells_positive (Js.to_string v)
  | Js.Null | Js.Undefined | Js.Obj _ => false
  end.

(** The [catch] and [finally] blocks. *)
Definition fail (msg : string) (effs : list Effect) (s : State)
  : State * list Effect * option Js.value :=
  ({| uploadFiles := List.map (mark_error msg) (uploadFiles s);
      isUploading := false |},
   (effs ++ [Alert msg])%list,
   None).

(** [handleUpload] up to its [await fetch]: the new store and whether
    the request was issued. *)
Definition handleUpload (s : State) : State * bool :=
  match uploadFiles s with
  | [] => (s, false)
  | _ => ({| uploadFiles := uploadFiles s; isUploading := true |}, true)
  end.

(** [handleUpload] after its [await fetch]: the store, the callbacks and
    alerts, and the value the handler returns.  [captured] is the
    [uploadFiles] of the render that created the handler. *)
Definition upload_settled (captured : list UploadFile) (res : FetchResult)
           (s : State) : State * list Effect * option Js.value :=
  match res with
  | Rejected reason => fail reason [] s
  | Responded resp =>
      let contentType :=
        match content_type resp with
        | Some c => c
        | None => ""
        end in
      if Js.includes contentType "application/json" then
        match body resp with
        | NotJson err => fail err [] s
        | Json data =>
            if negb (ok resp) then
              if Js.nullish data then fail (Chat.type_error data "detail") [] s
              else fail (Js.to_string
                           (Js.or (Js.get data "detail")
                                  (Js.Str ("Upload failed: " ++ Js.of_Z (Net.status resp)))))
                        [] s
            else
              let s1 := {| uploadFiles := List.map mark_completed (uploadFiles s);
                           isUploading := isUploading s |} in
              let effs := [OnUploadComplete (List.map mark_completed captured)] in
              if Js.nullish data then fail (Chat.type_error data "failed_count") effs s1
              else
                let failed_count := Js.get data "failed_count" in
                ({| uploadFiles := uploadFiles s1; isUploading := false |},
                 (effs ++ if Js.truthy failed_count && gt_zero failed_count
                          then [Alert ("Upload completed: "
                                       ++ Js.to_string (Js.get data "success_count")
                                       ++ " successful, "
                                       ++ Js.to_string failed_count ++ " failed")]
                          else [])%list,
                 Some data)
        end
      else
        fail ("Server error: Expected JSON but received HTML (Status: "
              ++ Js.of_Z (Net.status resp) ++ ")") [] s
  end.

End Upload.

(** ** The page: chat and sidebar side by side *)

Module Page.

(** [ChatInterface] and [POSidebar] are two components of the dashboard;
    each owns its state, and the sidebar takes no callback from the
    page. *)
Record World : Type := {
  chat : Chat.World;
  sidebar : Sidebar.World
}.

(** A WebSocket event reaches the sidebar only. *)
Definition sidebar_step (w : World) (e : Sidebar.Event) : option World :=
  match Sidebar.step (sidebar w) e with
  | Some sb => Some {| chat := chat w; sidebar := sb |}
  | None => None
  end.

End Page.

(** ** Sample data *)

Module Sample.

(** Two JSON texts: an object with the key [chart], one with the key
    [rows_count]. *)
Definition chart_text : string :=
  "{" ++ Chat.dquote ++ "chart" ++ Chat.dquote ++ ":1}".

Definition rows_text : string :=
  "{" ++ Chat.dquote ++ "rows_count" ++ Chat.dquote ++ ":3}".

(** [JSON.parse] on these two texts; every other text the samples hold
    is no JSON and is rejected. *)
Definition parse (s : string) : option Js.value :=
  if s =? chart_text then Some (Js.Obj [("chart", Js.Num 1)])
  else if s =? rows_text then Some (Js.Obj [("rows_count", Js.Num 3)])
  else None.

Definition stored_encoded : Js.value :=
  Js.Obj [ ("id", Js.Str "m1"); ("role", Js.Str "assistant");
           ("content", Js.Str "3 rows");
           ("metadata", Js.Str chart_text);
           ("query_result", Js.Str rows_text) ].

Definition stored_parsed : Js.value :=
  Js.Obj [ ("id", Js.Str "m1"); ("role", Js.Str "assistant");
           ("content", Js.Str "3 rows");
           ("metadata", Js.Obj [("chart", Js.Num 1)]);
           ("query_result", Js.Obj [("rows_count", Js.Num 3)]) ].

Definition stored_broken : Js.value :=
  Js.Obj [ ("id", Js.Str "m2"); ("role", Js.Str "user");
           ("content", Js.Str "hello");
           ("metadata", Js.Str "<html>");
           ("query_result", Js.Str "<html>") ].

Definition stored_empty : Js.value :=
  Js.Obj [ ("id", Js.Str "m2"); ("role", Js.Str "user");
           ("content", Js.Str "hello");
           ("metadata", Js.Obj []);
           ("query_result", Js.Null) ].

Definition project : Chat.Project :=
  {| Chat.proj_id := "p1"; Chat.proj_name := "Retail";
     Chat.proj_description := "" |}.

Definition in_conversation (c : option string) : Chat.Props :=
  {| Chat.selectedProject := Some project;
     Chat.isEmbeddingProcessing := false;
     Chat.currentConversationId := c |}.

Definition answer (text : string) (suggestions : list Js.value) : Js.value :=
  Js.Obj [ ("final_answer", Js.Str text);
           ("suggestion", Js.Arr suggestions) ].

Definition responds (content_type : option string) (data : Js.value)
  : Net.FetchResult :=
  Net.Responded {| Net.ok := true; Net.status := 200;
                   Net.content_type := content_type;
                   Net.body := Net.Json data |}.

(** The stored messages of conversation B. *)
Definition history_B : Js.value :=
  Js.Obj [ ("messages",
            Js.Arr [ Js.Obj [ ("id", Js.Str "b1"); ("role", Js.Str "user");
                              ("content", Js.Str "stock of item 7?") ];
                     Js.Obj [ ("id", Js.Str "b2"); ("role", Js.Str "assistant");
                              ("content", Js.Str "12 units") ] ]) ].

(** A request sent from conversation A, still awaited. *)
Definition pending_A : Chat.Pending :=
  {| Chat.p_request :=
       {| Chat.req_message := "total sales?"; Chat.req_project_id := "p1";
          Chat.req_conversation_id := Some "A"; Chat.req_token := "tok" |};
     Chat.p_render :=
       {| Chat.r_state := {| Chat.messages := []; Chat.message := "total sales?";
                             Chat.isTyping := false; Chat.error := None |};
          Chat.r_props := in_conversation (Some "A") |} |}.

(** Conversation B on display while the request of A is awaited. *)
Definition showing_B : Chat.World :=
  {| Chat.st := {| Chat.messages := []; Chat.message := "";
                   Chat.isTyping := true; Chat.error := None |};
     Chat.props := in_conversation (Some "B");
     Chat.token := Some "tok";
     Chat.tasks := [Chat.QueryTask pending_A] |}.

(** A new chat with a message typed in the input. *)
Definition ready_to_send : Chat.World :=
  {| Chat.st := {| Chat.messages := [];
                   Chat.message := " generate PO for today ";
                   Chat.isTyping := false; Chat.error := None |};
     Chat.props := in_conversation None;
     Chat.token := Some "tok";
     Chat.tasks := [] |}.

End Sample.

Module SampleOrders.

Import Sidebar.

Definition order (num stat : string) : PurchaseOrder :=
  {| po_number := num; vendor_name := "Acme"; total_amount := 1200;
     status := stat; needs_approval := true; pdf_path := "/po/" ++ num;
     order_date := "2025-01-15"; created_at := "2025-01-15T08:00:00";
     materials_count := Some 3%Z |}.

Definition approved (num : string) : WebSocketMessage :=
  {| type := po_status_update; m_project_id := Some "p1";
     m_workflow_id := None; m_po_number := Some num; m_step := None;
     m_message := None; m_error := None; m_status := Some "approved";
     m_timestamp := None |}.

Definition lists (today other : list PurchaseOrder) : State :=
  {| todayPOs := today; selectedDatePOs := other;
     workflowStatus := None; lastWorkflowError := None;
     wsConnection := Some 0%nat; isConnected := true;
     connectionRetries := 0 |}.

Definition project : Project := {| proj_id := "p1"; proj_name := "Retail" |}.

(** The body of an answer to the banner while documents are
    processed. *)
Definition processing : Js.value :=
  Js.Obj [ ("embedding_status",
            Js.Obj [ ("total", Js.Num 4); ("processing", Js.Num 1);
                     ("completed", Js.Num 3); ("failed", Js.Num 0);
                     ("pending", Js.Num 0) ]);
           ("is_processing", Js.Bool true) ].

(** The local day of the UTC midnight of a date in a time zone at or
    east of UTC, and, for the two dates the samples pick, in one west of
    it. *)
Definition utc (d : string) : string := d.

Definition west (d : string) : string :=
  if d =? "2025-01-16" then "2025-01-15"
  else if d =? "2025-01-10" then "2025-01-09"
  else d.

End SampleOrders.

From Stdlib Require Import Permutation Sorted.

(** ** Exceptions *)

Module Exn.

(** An expression evaluates to a value or throws an error with a
    message. *)
Inductive result (A : Type) : Type :=
| Return (a : A)
| Throw (msg : string).

Arguments Return {A} a.
Arguments Throw {A} msg.

(** A block of statements run on a state: the state it leaves, and the
    message of the error when it ended by throwing.  State written before
    the throw stays written. *)
Definition block (S : Type) : Type := S -> S * option string.

Definition skip {S : Type} : block S := fun s => (s, None).

(** A statement that writes the state and completes. *)
Definition write {S : Type} (f : S -> S) : block S := fun s => (f s, None).

Definition throw {S : Type} (msg : string) : block S := fun s => (s, Some msg).

(** [a; b] *)
Definition seq {S : Type} (a b : block S) : block S :=
  fun s =>
    match a s with
    | (s1, None) => b s1
    | (s1, Some msg) => (s1, Some msg)
    end.

(** [const x = e; k(x)] *)
Definition eval {S A : Type} (e : result A) (k : A -> block S) : block S :=
  match e with
  | Return a => k a
  | Throw msg => throw msg
  end.

(** [try { a } catch (error) { h }] *)
Definition try_catch {S : Type} (a : block S) (h : string -> block S) : block S :=
  fun s =>
    match a s with
    | (s1, None) => (s1, None)
    | (s1, Some msg) => h msg s1
    end.

(** [try { a } finally { f }], for an [f] that completes. *)
Definition finally {S : Type} (a : block S) (f : S -> S) : block S :=
  fun s => let (s1, e) := a s in (f s1, e).

End Exn.

(** ** The purchase-order sidebar: lists on display, refresh *)

Module SidebarViews.

Import Sidebar Exn.

Inductive FilterType : Type := all | pending | sent_to_vendor | rejected.

(** The [switch] of [filteredTodayPOs] and [filteredSelectedDatePOs]. *)
Definition filterPOs (f : FilterType) (pos : list PurchaseOrder)
  : list PurchaseOrder :=
  match f with
  | pending => filter (fun po => status po =? "pending_approval") pos
  | sent_to_vendor =>
      filter (fun po => (status po =? "sent_to_vendor") || (status po =? "approved"))
             pos
  | rejected => filter (fun po => status po =? "rejected") pos
  | all => pos
  end.

(** [priority[status] || 3] for the table
    [{ pending_approval: 0, rejected: 1, sent_to_vendor: 2, approved: 2 }]:
    the entry 0 is falsy, so [pending_approval] gets 3 like a status that is
    not in the table.  (A status that names a property of
    [Object.prototype] is outside this model, see [plain_status].) *)
Definition priority (s : string) : Z :=
  let entry :=
    if s =? "pending_approval" then Js.Num 0
    else if s =? "rejected" then Js.Num 1
    else if s =? "sent_to_vendor" then Js.Num 2
    else if s =? "approved" then Js.Num 2
    else Js.Undefined in
  match Js.or entry (Js.Num 3) with
  | Js.Num n => n
  | _ => 3
  end.

(** The comparator of [sort]:
    [(priority[a.status] || 3) - (priority[b.status] || 3)]. *)
Definition compare_priority (a b : PurchaseOrder) : Z :=
  priority (status a) - priority (status b).

(** [Array.prototype.sort] is stable: an element goes before the first
    element the comparator does not put it after. *)
Fixpoint insert_sorted (x : PurchaseOrder) (l : list PurchaseOrder)
  : list PurchaseOrder :=
  match l with
  | [] => [x]
  | y :: l' =>
      if (compare_priority x y <=? 0)%Z then x :: l
      else y :: insert_sorted x l'
  end.

(** [pos.sort((a, b) => ...)] *)
Definition sortPOs (pos : list PurchaseOrder) : list PurchaseOrder :=
  fold_right insert_sorted [] pos.

(** One render of a list under a filter: the list the state holds after
    the render and the list on display.  [sort] works in place; under the
    filter [all] the filtered list is the state array itself. *)
Definition render_list (f : FilterType) (pos : list PurchaseOrder)
  : list PurchaseOrder * list PurchaseOrder :=
  match f with
  | all => (sortPOs pos, sortPOs pos)
  | _ => (pos, sortPOs (filterPOs f pos))
  end.

(** One render of the sidebar with the filters [ft] and [fs] on its two
    lists: what the state holds after it. *)
Definition render (ft fs : FilterType) (s : State) : State :=
  {| todayPOs := fst (render_list ft (todayPOs s));
     selectedDatePOs := fst (render_list fs (selectedDatePOs s));
     workflowStatus := workflowStatus s;
     lastWorkflowError := lastWorkflowError s;
     wsConnection := wsConnection s;
     isConnected := isConnected s;
     connectionRetries := connectionRetries s |}.

(** One message from the socket and the render that follows it. *)
Definition deliver (today : string) (ft fs : FilterType)
           (data : WebSocketMessage) (s : State) : State :=
  render ft fs (fst (handleWebSocketMessage today data s)).

Record StatusCounts : Type := {
  n_pending : nat;
  n_sent_to_vendor : nat;
  n_rejected : nat;
  n_total : nat
}.

(** [getStatusCounts] *)
Definition getStatusCounts (pos : list PurchaseOrder) : StatusCounts :=
  {| n_pending :=
       List.length (filter (fun po => status po =? "pending_approval") pos);
     n_sent_to_vendor :=
       List.length
         (filter (fun po => (status po =? "sent_to_vendor") || (status po =? "approved"))
                 pos);
     n_rejected := List.length (filter (fun po => status po =? "rejected") pos);
     n_total := List.length pos |}.

(** *** Fetching the lists *)

(** The body of a response of [/po/project/{id}?order_date=]: JSON with
    its [pos] field ([None] when the field is missing or falsy), the JSON
    value [null], or text that is not JSON. *)
Inductive PosBody : Type :=
| PosJson (pos : option (list PurchaseOrder))
| PosNull
| PosNotJson (err : string).

Inductive PosFetch : Type :=
| PosRejected (reason : string)
| PosResponded (ok : bool) (status : Z) (body : PosBody).

(** The state cells the two fetchers and [handleRefresh] write, and the
    toasts shown so far. *)
Record ViewState : Type := {
  store : State;
  isLoading : bool;
  isRefreshing : bool;
  toasts : list Effect
}.

Definition set_todayPOs (pos : list PurchaseOrder) (v : ViewState) : ViewState :=
  {| store := {| todayPOs := pos;
                 selectedDatePOs := selectedDatePOs (store v);
                 workflowStatus := workflowStatus (store v);
                 lastWorkflowError := lastWorkflowError (store v);
                 wsConnection := wsConnection (store v);
                 isConnected := isConnected (store v);
                 connectionRetries := connectionRetries (store v) |};
     isLoading := isLoading v;
     isRefreshing := isRefreshing v;
     toasts := toasts v |}.

Definition set_selectedDatePOs (pos : list PurchaseOrder) (v : ViewState)
  : ViewState :=
  {| store := {| todayPOs := todayPOs (store v);
                 selectedDatePOs := pos;
                 workflowStatus := workflowStatus (store v);
                 lastWorkflowError := lastWorkflowError (store v);
                 wsConnection := wsConnection (store v);
                 isConnected := isConnected (store v);
                 connectionRetries := connectionRetries (store v) |};
     isLoading := isLoading v;
     isRefreshing := isRefreshing v;
     toasts := toasts v |}.

Definition set_isLoading (b : bool) (v : ViewState) : ViewState :=
  {| store := store v; isLoading := b; isRefreshing := isRefreshing v;
     toasts := toasts v |}.

Definition set_isRefreshing (b : bool) (v : ViewState) : ViewState :=
  {| store := store v; isLoading := isLoading v; isRefreshing := b;
     toasts := toasts v |}.

(** [toast.success(...)], [toast.error(...)] *)
Definition toast (t : Effect) (v : ViewState) : ViewState :=
  {| store := store v; isLoading := isLoading v;
     isRefreshing := isRefreshing v; toasts := toasts v ++ [t] |}.

(** [data.pos || []] after [await response.json()], which throws on text
    that is not JSON; reading [pos] of [null] throws. *)
Definition read_pos (body : PosBody) : result (list PurchaseOrder) :=
  match body with
  | PosJson (Some pos) => Return pos
  | PosJson None => Return []
  | PosNull => Throw (Chat.type_error Js.Null "pos")
  | PosNotJson err => Throw err
  end.

(** [await fetch(...)], then the [if (response.ok)] of a fetcher that
    stores the list with [set]. *)
Definition store_response (set : list PurchaseOrder -> ViewState -> ViewState)
           (res : PosFetch) : block ViewState :=
  match res with
  | PosRejected reason => throw reason
  | PosResponded ok _ body =>
      if ok then eval (read_pos body) (fun pos => write (set pos))
      else skip
  end.

(** [fetchTodayPOs], for the render with project [p]; the [catch] only
    logs. *)
Definition fetchTodayPOs (p : option Project) (res : PosFetch) : block ViewState :=
  match p with
  | None => skip
  | Some _ => try_catch (store_response set_todayPOs res) (fun _ => skip)
  end.

(** [fetchPOsForDate(dateStr)]; [parsed_today] is
    [isToday(new Date(dateStr))].  The [catch] only logs; [finally] resets
    [isLoading]. *)
Definition fetchPOsForDate (p : option Project) (parsed_today : bool)
           (res : PosFetch) : block ViewState :=
  match p with
  | None => skip
  | Some _ =>
      if parsed_today then skip
      else
        seq (write (set_isLoading true))
            (finally (try_catch (store_response set_selectedDatePOs res)
                                (fun _ => skip))
                     (set_isLoading false))
  end.

(** [handleRefresh], for the render with project [p] and the flag
    [refreshing], run with no other event in between.  [date_today] is
    [isToday(selectedDate)]; [selectedDate] is the time of the mount or a
    day picked in the calendar, a date that [format] accepts. *)
Definition handleRefresh (p : option Project) (refreshing : bool)
           (date_today parsed_today : bool) (res_today res_date : PosFetch)
  : block ViewState :=
  match p with
  | None => skip
  | Some _ =>
      if refreshing then skip
      else
        seq (write (set_isRefreshing true))
            (finally
               (try_catch
                  (seq (fetchTodayPOs p res_today)
                       (seq (if date_today then skip
                             else fetchPOsForDate p parsed_today res_date)
                            (write (toast ToastSuccess))))
                  (fun _ => write (toast ToastError)))
               (set_isRefreshing false))
  end.

End SidebarViews.

(** ** Export of a result table (chat-interface.tsx, [SQLResultDisplay]) *)

Module SqlResult.

Import Chat.

(** A row, [Record<string, any>], with its properties in the order
    [Object.keys] lists them. *)
Definition Row : Type := list (string * Js.value).

Definition keys (row : Row) : list string := map fst row.

(** [value.replace(...)]: every quote character becomes two. *)
Fixpoint double_quotes (s : string) : string :=
  match s with
  | EmptyString => EmptyString
  | String c s' =>
      if Ascii.eqb c (ascii_of_nat 34)
      then String c (String c (double_quotes s'))
      else String c (double_quotes s')
  end.

(** The callback of [headers.map]. *)
Definition cell (value : Js.value) : Js.value :=
  match value with
  | Js.Str s => Js.Str (dquote ++ double_quotes s ++ dquote)
  | _ => value
  end.

(** An element under [Array.prototype.join]. *)
Definition joined (v : Js.value) : string :=
  if Js.nullish v then "" else Js.to_string v.

Definition line (headers : list string) (row : Row) : string :=
  Js.join "," (map (fun header => joined (cell (Js.lookup header row))) headers).

(** [csvContent], for an [exportData] with a first row. *)
Definition csvContent (first : Row) (exportData : list Row) : string :=
  Js.join nl (Js.join "," (keys first) :: map (line (keys first)) exportData).

(** [data && data.length > 0 ? data : sample_data] *)
Definition exportData (data sample_data : option (list Row))
  : option (list Row) :=
  match data with
  | Some ((_ :: _) as d) => Some d
  | _ => sample_data
  end.

(** The text handed to the browser as [query_results.csv]; [None] when
    nothing is downloaded. *)
Definition downloadCSV (data sample_data : option (list Row)) : option string :=
  match exportData data sample_data with
  | Some ((first :: _) as d) => Some (csvContent first d)
  | _ => None
  end.

End SqlResult.

(** ** The upload dialog as a whole (part_000, [DocumentUploadDialog]) *)

Module UploadDialog.

Import Upload.

(** [handleFiles]; an entry of [files] is the id drawn for the file
    ([Date.now()] and [Math.random()]) and the file. *)
Definition handleFiles (files : list (string * string)) (s : State) : State :=
  {| uploadFiles :=
       (uploadFiles s
        ++ map (fun f => {| uf_id := fst f; file := snd f; progress := 0;
                            status := uploading; error := None |}) files)%list;
     isUploading := isUploading s |}.

Definition removeFile (fileId : string) (s : State) : State :=
  {| uploadFiles := filter (fun f => negb (uf_id f =? fileId)) (uploadFiles s);
     isUploading := isUploading s |}.

Definition is_completed (f : UploadFile) : bool :=
  match status f with
  | completed => true
  | _ => false
  end.

Definition completedCount (s : State) : nat :=
  List.length (filter is_completed (uploadFiles s)).

(** [handleComplete]: the store, the files handed to [onUploadComplete];
    [onClose] is called after. *)
Definition handleComplete (s : State) : State * list Effect :=
  ({| uploadFiles := []; isUploading := isUploading s |},
   [OnUploadComplete (filter is_completed (uploadFiles s))]).

(** The dialog with its requests in flight, each with the files its
    form data carries (the [uploadFiles] of the render that issued it),
    the callbacks and alerts so far and the number of calls of
    [onClose]. *)
Record World : Type := {
  st : State;
  inflight : list (list UploadFile);
  log : list Effect;
  closes : nat
}.

Inductive Event : Type :=
| SelectFiles (files : list (string * string))
| ClickRemove (fileId : string)
| ClickUpload
| UploadSettles (res : Net.FetchResult)
| ClickComplete.

Definition init : World :=
  {| st := {| uploadFiles := []; isUploading := false |};
     inflight := []; log := []; closes := 0 |}.

(** One event and the render after it.  The buttons are there, and
    enabled, as the JSX has them: remove per listed file unless
    uploading; upload when there are files, none completed, and no
    upload runs; complete when a file is completed. *)
Definition step (w : World) (e : Event) : option World :=
  match e with
  | SelectFiles files =>
      Some {| st := handleFiles files (st w); inflight := inflight w;
              log := log w; closes := closes w |}
  | ClickRemove fileId =>
      if negb (isUploading (st w))
         && existsb (fun f => uf_id f =? fileId) (uploadFiles (st w))
      then Some {| st := removeFile fileId (st w); inflight := inflight w;
                   log := log w; closes := closes w |}
      else None
  | ClickUpload =>
      if negb (isUploading (st w))
         && negb (Nat.eqb (List.length (uploadFiles (st w))) 0)
         && Nat.eqb (completedCount (st w)) 0
      then
        let (s, sent) := handleUpload (st w) in
        Some {| st := s;
                inflight := (inflight w
                             ++ if sent then [uploadFiles (st w)] else [])%list;
                log := log w; closes := closes w |}
      else None
  | UploadSettles res =>
      match inflight w with
      | [] => None
      | captured :: rest =>
          let '(s, effs, _) := upload_settled captured res (st w) in
          Some {| st := s; inflight := rest; log := (log w ++ effs)%list;
                  closes := closes w |}
      end
  | ClickComplete =>
      if Nat.ltb 0 (completedCount (st w))
      then
        let (s, effs) := handleComplete (st w) in
        Some {| st := s; inflight := inflight w; log := (log w ++ effs)%list;
                closes := S (closes w) |}
      else None
  end.

Fixpoint run (w : World) (evs : list Event) : option World :=
  match evs with
  | [] => Some w
  | e :: evs' =>
      match step w e with
      | Some w' => run w' evs'
      | None => None
      end
  end.

End UploadDialog.

(** ** The alert panel (part_000, [AlertManagementSystem]) *)

Module Alerts.

Record Alert : Type := {
  id : Z;
  message : string;
  creationDate : string;
  creationTime : string
}.

Record TriggeredAlert : Type := {
  t_alert : Alert;
  triggeredDate : string;
  triggeredTime : string
}.

Record AcknowledgedAlert : Type := {
  a_alert : TriggeredAlert;
  acknowledgedDate : string;
  acknowledgedTime : string
}.

Inductive TabType : Type := created | triggered | acknowledged.

Record State : Type := {
  activeTab : TabType;
  createdAlerts : list Alert;
  triggeredAlerts : list TriggeredAlert;
  acknowledgedAlerts : list AcknowledgedAlert;
  editingAlert : option Z;
  editMessage : string
}.

Definition init : State :=
  {| activeTab := created;
     createdAlerts :=
       [ {| id := 1; message := "iPhone 15 Pro stock below minimum threshold";
            creationDate := "2025-09-26"; creationTime := "10:30 AM" |};
         {| id := 2; message := "Samsung Galaxy S24 inventory running low";
            creationDate := "2025-09-26"; creationTime := "11:15 AM" |};
         {| id := 3; message := "MacBook Air M3 requires immediate restocking";
            creationDate := "2025-09-25"; creationTime := "03:45 PM" |} ];
     triggeredAlerts :=
       [ {| t_alert := {| id := 4; message := "iPad Pro 12.9 stock critically low";
                          creationDate := "2025-09-25";
                          creationTime := "02:20 PM" |};
            triggeredDate := "2025-09-26"; triggeredTime := "09:15 AM" |} ];
     acknowledgedAlerts := [];
     editingAlert := None;
     editMessage := "" |}.

Definition setActiveTab (t : TabType) (s : State) : State :=
  {| activeTab := t; createdAlerts := createdAlerts s;
     triggeredAlerts := triggeredAlerts s;
     acknowledgedAlerts := acknowledgedAlerts s;
     editingAlert := editingAlert s; editMessage := editMessage s |}.

Definition setCreatedAlerts (l : list Alert) (s : State) : State :=
  {| activeTab := activeTab s; createdAlerts := l;
     triggeredAlerts := triggeredAlerts s;
     acknowledgedAlerts := acknowledgedAlerts s;
     editingAlert := editingAlert s; editMessage := editMessage s |}.

Definition setEditing (e : option Z) (m : string) (s : State) : State :=
  {| activeTab := activeTab s; createdAlerts := createdAlerts s;
     triggeredAlerts := triggeredAlerts s;
     acknowledgedAlerts := acknowledgedAlerts s;
     editingAlert := e; editMessage := m |}.

Definition handleEdit (alert : Alert) (s : State) : State :=
  setEditing (Some (id alert)) (message alert) s.

Definition setEditMessage (m : string) (s : State) : State :=
  setEditing (editingAlert s) m s.

(** [{ ...alert, message: m }] *)
Definition with_message (m : string) (alert : Alert) : Alert :=
  {| id := id alert; message := m; creationDate := creationDate alert;
     creationTime := creationTime alert |}.

Definition saveEdit (alertId : Z) (s : State) : State :=
  setEditing None ""
    (setCreatedAlerts
       (map (fun alert => if (id alert =? alertId)%Z
                          then with_message (editMessage s) alert
                          else alert)
            (createdAlerts s))
       s).

Definition cancelEdit (s : State) : State := setEditing None "" s.

Definition handleDelete (alertId : Z) (s : State) : State :=
  setCreatedAlerts
    (filter (fun alert => negb (id alert =? alertId)%Z) (createdAlerts s)) s.

(** [handleAcknowledge]; [date] and [time] are the two texts made from
    [new Date()]. *)
Definition handleAcknowledge (alert : TriggeredAlert) (date time : string)
           (s : State) : State :=
  {| activeTab := activeTab s; createdAlerts := createdAlerts s;
     triggeredAlerts :=
       filter (fun a => negb (id (t_alert a) =? id (t_alert alert))%Z)
              (triggeredAlerts s);
     acknowledgedAlerts :=
       acknowledgedAlerts s
       ++ [ {| a_alert := alert; acknowledgedDate := date;
               acknowledgedTime := time |} ];
     editingAlert := editingAlert s; editMessage := editMessage s |}.

(** The click on the add button; [now] is [Date.now()]. *)
Definition addAlert (now : Z) (date time : string) (s : State) : State :=
  setCreatedAlerts
    ({| id := now; message := "New alert message"; creationDate := date;
        creationTime := time |} :: createdAlerts s) s.

(** The ids of the cards of the active tab. *)
Definition shown (s : State) : list Z :=
  match activeTab s with
  | created => map id (createdAlerts s)
  | triggered => map (fun a => id (t_alert a)) (triggeredAlerts s)
  | acknowledged =>
      map (fun a => id (t_alert (a_alert a))) (acknowledgedAlerts s)
  end.

(** [editingAlert === alert.id] for the card of [i]. *)
Definition in_edit (s : State) (i : Z) : bool :=
  match editingAlert s with
  | Some e => (e =? i)%Z
  | None => false
  end.

(** The clicks and the typing the rendered cards allow; a card is named
    by its place in the list of the active tab. *)
Inductive Event : Type :=
| ClickTab (t : TabType)
| ClickEdit (n : nat)
| TypeMessage (n : nat) (m : string)
| ClickSave (n : nat)
| ClickCancel (n : nat)
| ClickDelete (n : nat)
| ClickAcknowledge (n : nat) (date time : string)
| ClickAdd (now : Z) (date time : string).

(** One event and the render after it.  A card in edit shows the text
    area with Save and Cancel and none of the other buttons; Edit and
    Delete are on the cards of the created tab, Acknowledge on those of
    the triggered tab, the add button under the created tab. *)
Definition step (s : State) (e : Event) : option State :=
  match e with
  | ClickTab t => Some (setActiveTab t s)
  | ClickEdit n =>
      match activeTab s, nth_error (createdAlerts s) n with
      | created, Some alert =>
          if in_edit s (id alert) then None else Some (handleEdit alert s)
      | _, _ => None
      end
  | TypeMessage n m =>
      match nth_error (shown s) n with
      | Some i => if in_edit s i then Some (setEditMessage m s) else None
      | None => None
      end
  | ClickSave n =>
      match nth_error (shown s) n with
      | Some i => if in_edit s i then Some (saveEdit i s) else None
      | None => None
      end
  | ClickCancel n =>
      match nth_error (shown s) n with
      | Some i => if in_edit s i then Some (cancelEdit s) else None
      | None => None
      end
  | ClickDelete n =>
      match activeTab s, nth_error (createdAlerts s) n with
      | created, Some alert =>
          if in_edit s (id alert) then None
          else Some (handleDelete (id alert) s)
      | _, _ => None
      end
  | ClickAcknowledge n date time =>
      match activeTab s, nth_error (triggeredAlerts s) n with
      | triggered, Some alert =>
          if in_edit s (id (t_alert alert)) then None
          else Some (handleAcknowledge alert date time s)
      | _, _ => None
      end
  | ClickAdd now date time =>
      match activeTab s with
      | created => Some (addAlert now date time s)
      | _ => None
      end
  end.

Fixpoint run (s : State) (evs : list Event) : option State :=
  match evs with
  | [] => Some s
  | e :: evs' =>
      match step s e with
      | Some s' => run s' evs'
      | None => None
      end
  end.

End Alerts.

(** ** The user badge of the dashboard (login/page.tsx) *)

Module Profile.

(** [toUpperCase] as it acts on ASCII letters; every other byte is
    kept. *)
Definition upper_char (c : ascii) : ascii :=
  let n := nat_of_ascii c in
  if ((97 <=? n) && (n <=? 122))%nat then ascii_of_nat (n - 32) else c.

Fixpoint toUpperCase (s : string) : string :=
  match s with
  | EmptyString => EmptyString
  | String c s' => String (upper_char c) (toUpperCase s')
  end.

(** [s.split(sep)] for a separator of one character. *)
Fixpoint split (sep : ascii) (s : string) : list string :=
  match s with
  | EmptyString => [EmptyString]
  | String c s' =>
      if Ascii.eqb c sep then EmptyString :: split sep s'
      else match split sep s' with
           | piece :: pieces => String c piece :: pieces
           | [] => [String c EmptyString]
           end
  end.

(** [s[0]]: a string of one character, or [undefined]; the character is
    the first byte, which is [s[0]] when the text starts with an ASCII
    character. *)
Definition first (s : string) : Js.value :=
  match s with
  | EmptyString => Js.Undefined
  | String c _ => Js.Str (String c EmptyString)
  end.

(** [a + b] on two values that are strings or [undefined]; the sum of
    two [undefined] is [NaN], which has no [toUpperCase]. *)
Definition add (a b : Js.value) : Exn.result string :=
  match a, b with
  | Js.Undefined, Js.Undefined =>
      Exn.Throw "(intermediate value).toUpperCase is not a function"
  | _, _ => Exn.Return (Js.to_string a ++ Js.to_string b)
  end.

(** [v.toUpperCase()] on a string or [undefined]. *)
Definition upper (v : Js.value) : Exn.result string :=
  match v with
  | Js.Str s => Exn.Return (toUpperCase s)
  | _ => Exn.Throw (Chat.type_error v "toUpperCase")
  end.

(** The body of the [try] of [getUserInitials]; [None] when it falls
    through to the final [return]. *)
Definition initials_of (user : Js.value) : Exn.result (option string) :=
  let by_email :=
    match Js.get user "email" with
    | Js.Str e =>
        if Js.truthy (Js.Str e)
        then match upper (first e) with
             | Exn.Return s => Exn.Return (Some s)
             | Exn.Throw msg => Exn.Throw msg
             end
        else Exn.Return None
    | _ => Exn.Return None
    end in
  match Js.get user "full_name" with
  | Js.Str n =>
      if Js.truthy (Js.Str n) then
        match split " " (Js.trim n) with
        | n0 :: n1 :: _ =>
            match add (first n0) (first n1) with
            | Exn.Return s => Exn.Return (Some (toUpperCase s))
            | Exn.Throw msg => Exn.Throw msg
            end
        | [n0] =>
            match upper (first n0) with
            | Exn.Return s => Exn.Return (Some s)
            | Exn.Throw msg => Exn.Throw msg
            end
        | [] => by_email
        end
      else by_email
  | _ => by_email
  end.

Definition getUserInitials (user : Js.value) : string :=
  if negb (Js.truthy user) then "U"
  else match initials_of user with
       | Exn.Return (Some s) => s
       | Exn.Return None => "U"
       | Exn.Throw _ => "U"
       end.

End Profile.

(** ** The login page (login/page.tsx, [LoginPage]) *)

Module LoginPage.

Import Net Exn.

(** What the handlers do to the world outside the component: requests
    (path and JSON body), alerts, writes to [localStorage], navigation,
    and the click on the login tab, if the page has one. *)
Inductive Effect : Type :=
| Fetch (path : string) (body : Js.value)
| Alert (text : string)
| SetItem (key value : string)
| Push (route : string)
| ClickLoginTab.

Record State : Type := {
  isLoading : bool;
  error : string;
  log : list Effect
}.

Definition setIsLoading (b : bool) (s : State) : State :=
  {| isLoading := b; error := error s; log := log s |}.

Definition setError (e : string) (s : State) : State :=
  {| isLoading := isLoading s; error := e; log := log s |}.

Definition emit (e : Effect) : block State :=
  write (fun s => {| isLoading := isLoading s; error := error s;
                     log := (log s ++ [e])%list |}).

(** [await fetch(...)] settled with [res], then [k] on the response. *)
Definition fetched (res : FetchResult) (k : Response -> block State)
  : block State :=
  match res with
  | Rejected reason => throw reason
  | Responded resp => k resp
  end.

(** [await response.json()] *)
Definition json (resp : Response) : result Js.value :=
  match body resp with
  | Json v => Return v
  | NotJson err => Throw err
  end.

(** [v.k], which throws on [null] and [undefined]. *)
Definition member (v : Js.value) (k : string) : result Js.value :=
  if Js.nullish v then Throw (Chat.type_error v k) else Return (Js.get v k).

Definition network_error : string :=
  "Network error occurred. Please check if the backend is running.".

Definition handleLogin (loginEmail loginPassword : string) (res : FetchResult)
  : block State :=
  seq (write (setIsLoading true))
   (seq (write (setError ""))
     (finally
        (try_catch
           (seq (emit (Fetch "/auth/login"
                         (Js.Obj [("email", Js.Str loginEmail);
                                  ("password", Js.Str loginPassword)])))
              (fetched res (fun response =>
                 if ok response then
                   eval (json response) (fun data =>
                   eval (member data "access_token") (fun token =>
                   seq (emit (SetItem "access_token" (Js.to_string token)))
                       (emit (Push "/dashboard"))))
                 else
                   eval (json response) (fun errorData =>
                   eval (member errorData "detail") (fun detail =>
                   emit (Alert ("Login failed: " ++ Js.to_string detail)))))))
           (fun _ => emit (Alert network_error)))
        (setIsLoading false))).

(** The fields of the registration form. *)
Record Form : Type := {
  registerEmail : string;
  registerPassword : string;
  registerConfirmPassword : string;
  fullName : string
}.

Definition handleRegister (f : Form) (res login_res : FetchResult)
  : block State :=
  seq (write (setIsLoading true))
   (if negb (registerPassword f =? registerConfirmPassword f) then
      seq (emit (Alert "Passwords don't match!")) (write (setIsLoading false))
    else if (Js.length (registerPassword f) <? 6)%nat then
      seq (emit (Alert "Password must be at least 6 characters long!"))
          (write (setIsLoading false))
    else
      finally
        (try_catch
           (seq (emit (Fetch "/auth/register"
                         (Js.Obj [("email", Js.Str (registerEmail f));
                                  ("password", Js.Str (registerPassword f));
                                  ("full_name",
                                   Js.or (Js.Str (fullName f)) Js.Null)])))
              (fetched res (fun response =>
                 if ok response then
                   eval (json response) (fun userData =>
                   seq (emit (Fetch "/auth/login"
                                (Js.Obj [("email", Js.Str (registerEmail f));
                                         ("password",
                                          Js.Str (registerPassword f))])))
                     (fetched login_res (fun loginResponse =>
                        if ok loginResponse then
                          eval (json loginResponse) (fun loginData =>
                          eval (member loginData "access_token") (fun token =>
                          seq (emit (SetItem "access_token" (Js.to_string token)))
                          (eval (member loginData "token_type") (fun type =>
                           seq (emit (SetItem "token_type" (Js.to_string type)))
                           (seq (emit (Alert "Registration successful! You are now logged in."))
                                (emit (Push "/dashboard")))))))
                        else
                          seq (emit (Alert "Registration successful! Please login with your credentials."))
                              (emit ClickLoginTab))))
                 else
                   eval (json response) (fun errorData =>
                   eval (member errorData "detail") (fun detail =>
                   emit (Alert ("Registration failed: "
                                ++ Js.to_string detail)))))))
           (fun _ => emit (Alert network_error)))
        (setIsLoading false)).

End LoginPage.

(** ** The project list of the dashboard (login/page.tsx, [DashboardPage]) *)

Module Dashboard.

Record Counts : Type := {
  metadata : Z;
  businesslogic : Z;
  references : Z
}.

Record ProjectDocument : Type := {
  doc_id : string;
  doc_name : string;
  doc_type : string;
  uploadedAt : string;
  size : string
}.

Record Project : Type := {
  id : string;
  name : string;
  description : string;
  created_at : string;
  updated_at : string;
  documentCounts : option Counts;
  documents : option (list ProjectDocument)
}.

(** The cells of [DashboardPage] that the project list, the selection
    and the upload dialog use. *)
Record State : Type := {
  projects : list Project;
  selectedProject : option Project;
  isRefreshingCounts : bool;
  uploadOpen : bool
}.

(** The awaits in flight, each with what its closure captured: the
    document fetch and the count refresh of the two effects on
    [selectedProject?.id] (the id of the render that started them), the
    request of [handleCreateProject] (the [projects] of its render), and
    [refreshProjectData] in [handleUploadComplete] (the [selectedProject]
    of its render). *)
Inductive Task : Type :=
| DocsFor (projectId : string)
| CountsFor (projectId : string)
| Creating (captured : list Project)
| Refreshing (captured : Project).

(** What an await resolves to.  The document fetch brings the
    transformed documents, or nothing when the request failed, was not ok
    or its body could not be read (the [catch] only logs);
    [fetchDocumentCounts] resolves to counts in every case;
    the creation brings the project of a 2xx answer;
    [refreshProjectData] resolves to documents and counts, or to [null]. *)
Inductive Outcome : Type :=
| Docs (docs : option (list ProjectDocument))
| Counted (counts : Counts)
| Created (newProject : option Project)
| Refreshed (data : option (list ProjectDocument * Counts)).

Record World : Type := {
  st : State;
  tasks : list Task
}.

Inductive Event : Type :=
| Select (n : nat)
| OpenUpload
| CloseUpload
| UploadCompleted
| ClickCreate (newProjectName : string)
| Settle (k : nat) (o : Outcome).

(** [{ ...p, documents: docs }] *)
Definition with_documents (docs : list ProjectDocument) (p : Project) : Project :=
  {| id := id p; name := name p; description := description p;
     created_at := created_at p; updated_at := updated_at p;
     documentCounts := documentCounts p; documents := Some docs |}.

(** [{ ...p, documentCounts: counts }] *)
Definition with_counts (counts : Counts) (p : Project) : Project :=
  {| id := id p; name := name p; description := description p;
     created_at := created_at p; updated_at := updated_at p;
     documentCounts := Some counts; documents := documents p |}.

(** [transformedProject] *)
Definition transformed (newProject : Project) : Project :=
  {| id := id newProject; name := name newProject;
     description := description newProject;
     created_at := created_at newProject; updated_at := updated_at newProject;
     documentCounts :=
       Some {| metadata := 0; businesslogic := 0; references := 0 |};
     documents := Some [] |}.

(** [prev.map(p => p.id === projectId ? f(p) : p)] *)
Definition update_project (projectId : string) (f : Project -> Project)
           (l : list Project) : list Project :=
  map (fun p => if id p =? projectId then f p else p) l.

(** The settled document fetch of the effect on [selectedProject?.id]. *)
Definition docs_settled (projectId : string) (docs : option (list ProjectDocument))
           (s : State) : State :=
  match docs with
  | None => s
  | Some transformedDocs =>
      {| projects := update_project projectId (with_documents transformedDocs)
                                    (projects s);
         selectedProject := option_map (with_documents transformedDocs)
                                       (selectedProject s);
         isRefreshingCounts := isRefreshingCounts s;
         uploadOpen := uploadOpen s |}
  end.

(** The [then] and [finally] of the count refresh. *)
Definition counts_settled (projectId : string) (counts : Counts) (s : State)
  : State :=
  {| projects := update_project projectId (with_counts counts) (projects s);
     selectedProject := option_map (with_counts counts) (selectedProject s);
     isRefreshingCounts := false;
     uploadOpen := uploadOpen s |}.

(** [handleCreateProject] after its [await fetch]. *)
Definition create_settled (captured : list Project) (newProject : option Project)
           (s : State) : State :=
  match newProject with
  | None => s
  | Some p =>
      {| projects := transformed p :: captured;
         selectedProject := Some (transformed p);
         isRefreshingCounts := isRefreshingCounts s;
         uploadOpen := uploadOpen s |}
  end.

(** The last project that the updater of [handleUploadComplete] hands
    to [setSelectedProject], if any. *)
Definition last_updated (projectId : string) (f : Project -> Project)
           (l : list Project) : option Project :=
  match rev (filter (fun p => id p =? projectId) l) with
  | p :: _ => Some (f p)
  | [] => None
  end.

(** [handleUploadComplete] after its [await refreshProjectData]. *)
Definition refresh_settled (captured : Project)
           (data : option (list ProjectDocument * Counts)) (s : State) : State :=
  match data with
  | None =>
      {| projects := projects s; selectedProject := selectedProject s;
         isRefreshingCounts := false; uploadOpen := uploadOpen s |}
  | Some (docs, counts) =>
      let f := fun p => with_counts counts (with_documents docs p) in
      {| projects := update_project (id captured) f (projects s);
         selectedProject :=
           match last_updated (id captured) f (projects s) with
           | Some p => Some p
           | None => selectedProject s
           end;
         isRefreshingCounts := false;
         uploadOpen := uploadOpen s |}
  end.

(** [selectedProject?.id] *)
Definition selected_id (s : State) : option string :=
  option_map id (selectedProject s).

Definition same_id (a b : option string) : bool :=
  match a, b with
  | Some x, Some y => x =? y
  | None, None => true
  | _, _ => false
  end.

(** The two effects after the render that follows a change of state
    from [old] to [new]: the document fetch runs again when
    [selectedProject?.id] changed, the count refresh when that or
    [uploadDialog.isOpen] changed. *)
Definition effects (old new : State) : State * list Task :=
  let moved := negb (same_id (selected_id old) (selected_id new)) in
  let docs :=
    match selectedProject new with
    | Some p => if moved then [DocsFor (id p)] else []
    | None => []
    end in
  match selectedProject new with
  | Some p =>
      if (moved || negb (Bool.eqb (uploadOpen old) (uploadOpen new)))
         && negb (uploadOpen new)
      then ({| projects := projects new; selectedProject := selectedProject new;
               isRefreshingCounts := true; uploadOpen := uploadOpen new |},
            (docs ++ [CountsFor (id p)])%list)
      else (new, docs)
  | None => (new, docs)
  end.

(** The state after the handler of an event, and the tasks it starts and
    leaves. *)
Definition handle (w : World) (e : Event) : option (State * list Task) :=
  let s := st w in
  match e with
  | Select n =>
      match nth_error (projects s) n with
      | Some project =>
          Some ({| projects := projects s; selectedProject := Some project;
                   isRefreshingCounts := isRefreshingCounts s;
                   uploadOpen := uploadOpen s |}, tasks w)
      | None => None
      end
  | OpenUpload =>
      Some ({| projects := projects s; selectedProject := selectedProject s;
               isRefreshingCounts := isRefreshingCounts s;
               uploadOpen := true |}, tasks w)
  | CloseUpload =>
      Some ({| projects := projects s; selectedProject := selectedProject s;
               isRefreshingCounts := isRefreshingCounts s;
               uploadOpen := false |}, tasks w)
  | UploadCompleted =>
      match selectedProject s with
      | None => Some (s, tasks w)
      | Some p =>
          Some ({| projects := projects s; selectedProject := selectedProject s;
                   isRefreshingCounts := true; uploadOpen := uploadOpen s |},
                (tasks w ++ [Refreshing p])%list)
      end
  | ClickCreate newProjectName =>
      if Js.trim newProjectName =? "" then Some (s, tasks w)
      else Some (s, (tasks w ++ [Creating (projects s)])%list)
  | Settle k o =>
      match nth_error (tasks w) k, o with
      | Some (DocsFor pid), Docs docs =>
          Some (docs_settled pid docs s,
                (firstn k (tasks w) ++ skipn (S k) (tasks w))%list)
      | Some (CountsFor pid), Counted counts =>
          Some (counts_settled pid counts s,
                (firstn k (tasks w) ++ skipn (S k) (tasks w))%list)
      | Some (Creating captured), Created p =>
          Some (create_settled captured p s,
                (firstn k (tasks w) ++ skipn (S k) (tasks w))%list)
      | Some (Refreshing captured), Refreshed data =>
          Some (refresh_settled captured data s,
                (firstn k (tasks w) ++ skipn (S k) (tasks w))%list)
      | _, _ => None
      end
  end.

(** One event, the render after it and the effects of that render. *)
Definition step (w : World) (e : Event) : option World :=
  match handle w e with
  | Some (s, ts) =>
      let (s', started) := effects (st w) s in
      Some {| st := s'; tasks := (ts ++ started)%list |}
  | None => None
  end.

Fixpoint run (w : World) (evs : list Event) : option World :=
  match evs with
  | [] => Some w
  | e :: evs' =>
      match step w e with
      | Some w' => run w' evs'
      | None => None
      end
  end.

End Dashboard.

(** ** The generated documents (chat-interface.tsx, [DownloadManagement]) *)

Module Downloads.

(** A [Date] is its time value in milliseconds. *)
Record GeneratedDocument : Type := {
  id : string;
  name : string;
  type : string;
  projectId : string;
  projectName : string;
  generatedAt : Z;
  size : string;
  status : string;
  description : option string
}.

(** The prop and the cells the filter effect depends on; of the selected
    project the effect reads the id. *)
Record Filters : Type := {
  selectedProject : option string;
  projectFilter : string;
  searchQuery : string;
  typeFilter : string;
  dateFilter : string;
  customFrom : option Z;
  customTo : option Z
}.

(** [toLowerCase] on ASCII text. *)
Definition lower_char (c : ascii) : ascii :=
  let n := nat_of_ascii c in
  if ((65 <=? n) && (n <=? 90))%nat then ascii_of_nat (n + 32) else c.

Fixpoint toLowerCase (s : string) : string :=
  match s with
  | EmptyString => EmptyString
  | String c s' => String (lower_char c) (toLowerCase s')
  end.

(** The callback of the search filter. *)
Definition found (q : string) (doc : GeneratedDocument) : bool :=
  Js.includes (toLowerCase (name doc)) (toLowerCase q)
  || match description doc with
     | Some d => Js.includes (toLowerCase d) (toLowerCase q)
     | None => false
     end.

Definition day : Z := 86400000.

(** The filters of the effect, one after the other; [today] is the local
    midnight before [new Date()].  A filter that does not apply leaves
    [filtered] the very array it was. *)
Definition by_project (f : Filters) (l : list GeneratedDocument)
  : list GeneratedDocument :=
  match selectedProject f with
  | Some p => filter (fun doc => projectId doc =? p) l
  | None =>
      if negb (projectFilter f =? "all")
      then filter (fun doc => projectId doc =? projectFilter f) l
      else l
  end.

Definition by_search (f : Filters) (l : list GeneratedDocument)
  : list GeneratedDocument :=
  if negb (searchQuery f =? "") then filter (found (searchQuery f)) l else l.

Definition by_type (f : Filters) (l : list GeneratedDocument)
  : list GeneratedDocument :=
  if negb (typeFilter f =? "all")
  then filter (fun doc => type doc =? typeFilter f) l
  else l.

Definition by_date (f : Filters) (today : Z) (l : list GeneratedDocument)
  : list GeneratedDocument :=
  if dateFilter f =? "today" then
    filter (fun doc => (today <=? generatedAt doc)%Z) l
  else if dateFilter f =? "yesterday" then
    filter (fun doc => ((today - day <=? generatedAt doc)
                        && (generatedAt doc <? today))%Z) l
  else if dateFilter f =? "week" then
    filter (fun doc => (today - 7 * day <=? generatedAt doc)%Z) l
  else if dateFilter f =? "month" then
    filter (fun doc => (today - 30 * day <=? generatedAt doc)%Z) l
  else if dateFilter f =? "custom" then
    match customFrom f, customTo f with
    | Some from, Some to =>
        filter (fun doc => ((from <=? generatedAt doc)
                            && (generatedAt doc <=? to))%Z) l
    | _, _ => l
    end
  else l.

(** [filtered] is still the array [documents]: no filter was applied. *)
Definition aliased (f : Filters) : bool :=
  match selectedProject f with
  | Some _ => false
  | None => projectFilter f =? "all"
  end
  && (searchQuery f =? "")
  && (typeFilter f =? "all")
  && negb ((dateFilter f =? "today") || (dateFilter f =? "yesterday")
           || (dateFilter f =? "week") || (dateFilter f =? "month")
           || ((dateFilter f =? "custom")
               && match customFrom f, customTo f with
                  | Some _, Some _ => true
                  | _, _ => false
                  end)).

(** [sort((a, b) => b.generatedAt.getTime() - a.generatedAt.getTime())];
    the sort is stable. *)
Fixpoint insert_newest (x : GeneratedDocument) (l : list GeneratedDocument)
  : list GeneratedDocument :=
  match l with
  | [] => [x]
  | y :: l' =>
      if (generatedAt y - generatedAt x <=? 0)%Z then x :: l
      else y :: insert_newest x l'
  end.

Definition sort_newest (l : list GeneratedDocument) : list GeneratedDocument :=
  fold_right insert_newest [] l.

(** The filter effect: the array [documents] after it, which [sort] has
    rearranged when it is the array sorted, and the list handed to
    [setFilteredDocuments]. *)
Definition filter_effect (f : Filters) (today : Z) (documents : list GeneratedDocument)
  : list GeneratedDocument * list GeneratedDocument :=
  let filtered :=
    sort_newest (by_date f today (by_type f (by_search f (by_project f documents)))) in
  (if aliased f then filtered else documents, filtered).

End Downloads.

(** * Vocabulary of the properties *)

(** ** Stored records and their decoding *)

Module LoaderSpec.

(** An object or an array: what [typeof] calls ["object"], [null] apart. *)
Definition is_object (v : Js.value) : bool :=
  Js.truthy v && (Js.typeof v =? "object").

Section WithParser.

Variable JSON_parse : string -> option Js.value.

(** [raw] is a text that [JSON.parse] rejects. *)
Definition unparseable (raw : Js.value) : Prop :=
  exists s, raw = Js.Str s /\ JSON_parse s = None.

(** [raw] is [parsed] itself, or a JSON text of the object [parsed]. *)
Definition stores (raw parsed : Js.value) : Prop :=
  raw = parsed
  \/ (is_object parsed = true
      /\ exists s, raw = Js.Str s /\ s <> "" /\ JSON_parse s = Some parsed).

(** [raw] is [v] itself, or an unparseable text where [v] is the
    fallback. *)
Definition falls_back (fallback raw v : Js.value) : Prop :=
  raw = v \/ (unparseable raw /\ v = fallback).

End WithParser.

(** Two server records with the same properties, the two decoded ones
    apart. *)
Definition same_record (m1 m2 : Js.value) : Prop :=
  Js.nullish m1 = false /\ Js.nullish m2 = false
  /\ forall k, k <> "metadata" -> k <> "query_result" ->
               Js.get m1 k = Js.get m2 k.

End LoaderSpec.

(** ** Replies and requests in flight *)

Module SendSpec.

Import Net Chat.

(** The message a settled request appends: it is fixed by the render
    that sent the request, the result of the call and the clock. *)
Definition reply (p : Pending) (res : FetchResult) (now : Z) : Message :=
  match query_outcome (p_render p) res with
  | Got data => aiResponse data now
  | Threw msg => errorResponse (p_render p) msg now
  end.

(** A reply that explains the error [msg]. *)
Definition is_error_reply (m : Message) (msg : string) : Prop :=
  sender m = ai
  /\ Js.lookup "intent" (fields m) = Js.Str "error"
  /\ exists rest,
      content m
      = Js.Str ("I'm sorry, I encountered an error: " ++ msg ++ rest)%string.

(** The call brought the answer [data]: a status in the 2xx range and a
    JSON body that is neither [null] nor, while documents are processed,
    without a [final_answer] that is a text or a list. *)
Definition answers (r : Render) (res : FetchResult) (data : Js.value) : Prop :=
  exists resp,
    res = Responded resp /\ ok resp = true /\ body resp = Json data
    /\ Js.nullish data = false
    /\ match Js.get data "final_answer" with
       | Js.Str _ | Js.Arr _ => True
       | _ => isEmbeddingProcessing (r_props r) = false
       end.

(** [msg] is what the failed call [res] is explained with: the reason of
    the rejection, the fixed text for 401, the [detail] of the body when
    it holds a text, the status when the body is no JSON. *)
Definition explains (res : FetchResult) (msg : string) : Prop :=
  match res with
  | Rejected reason => msg = reason
  | Responded resp =>
      (status resp = 401%Z ->
       msg = "Authentication expired. Please log in again.")
      /\ (status resp <> 401%Z ->
          (forall err, body resp = NotJson err ->
                       msg = "Server error: " ++ Js.of_Z (status resp))
          /\ (forall v detail,
                 body resp = Json v -> Js.get v "detail" = Js.Str detail ->
                 detail <> "" -> msg = detail))
  end.

(** The call failed: [fetch] rejected, or the status is not OK. *)
Definition call_failed (res : FetchResult) : bool :=
  match res with
  | Rejected _ => true
  | Responded resp => negb (ok resp)
  end.

(** The events of the form and of the network: every event but the click
    on a suggestion and the timer it sets. *)
Definition from_form (e : Event) : bool :=
  match e with
  | SuggestionClick _ | TimerFires _ _ => false
  | _ => true
  end.

(** The requests among the tasks. *)
Definition awaited (ts : list Task) : list Pending :=
  flat_map (fun t => match t with QueryTask p => [p] | _ => [] end) ts.

(** At most one request is in flight, and [isTyping] is set while one
    is. *)
Definition serialized (w : World) : Prop :=
  (List.length (in_flight w) <= 1)%nat
  /\ (in_flight w <> [] -> isTyping (st w) = true).

End SendSpec.

(** ** Two traces of the chat *)

Module Traces.

Import Chat.

(** The trace of the switch: a question is sent in conversation A, the
    user switches to B, the history of B arrives. *)
Definition switch_while_waiting : list Event :=
  [ LoadSettles 0 (Sample.responds (Some "application/json")
                                   (Js.Obj [("messages", Js.Arr [])])) 500;
    Input "total sales?";
    Submit 1000;
    SetProps (Sample.in_conversation (Some "B")) 2000;
    LoadSettles 1 (Sample.responds (Some "application/json") Sample.history_B)
                2500 ].

(** A question is asked in a new chat and the answer brings the
    suggestion "show totals"; the input is empty again. *)
Definition suggestion_shown : list Event :=
  [ Input "sales by store";
    Submit 100;
    QuerySettles 0 (Sample.responds (Some "application/json")
                      (Sample.answer "see the table" [Js.Str "show totals"]))
                 900 ].

(** The trace of the double click: an answer has brought the suggestion
    "show totals"; the user has typed a text and clicks the suggestion
    twice, 50 ms apart.  Each click sets a timer of 100 ms on the
    [handleSendMessage] of its render; the first timer has fired. *)
Definition double_click : list Event :=
  [ Input "sales by store";
    Submit 100;
    QuerySettles 0 (Sample.responds (Some "application/json")
                      (Sample.answer "see the table" [Js.Str "show totals"]))
                 900;
    Input "hello";
    SuggestionClick "show totals";
    SuggestionClick "show totals";
    TimerFires 0 1100 ].

End Traces.

(** ** Content types *)

Module ContentTypeSpec.

Import Net.

(** [response.headers.get('content-type') || ''] *)
Definition contentType (resp : Response) : string :=
  match content_type resp with
  | Some c => c
  | None => ""
  end.


End ContentTypeSpec.

(** ** Order lists *)

Module OrdersSpec.

Import Sidebar.

(** [after] is [before] with the status of the orders numbered [num] set
    to [stat]: same length, same order, every other field as it was. *)
Definition updated_in_place (num stat : string)
           (before after : list PurchaseOrder) : Prop :=
  List.length after = List.length before
  /\ forall (i : nat) (po : PurchaseOrder),
      nth_error before i = Some po ->
      exists po',
        nth_error after i = Some po'
        /\ po_number po' = po_number po
        /\ vendor_name po' = vendor_name po
        /\ total_amount po' = total_amount po
        /\ needs_approval po' = needs_approval po
        /\ pdf_path po' = pdf_path po
        /\ order_date po' = order_date po
        /\ created_at po' = created_at po
        /\ materials_count po' = materials_count po
        /\ status po' = if po_number po =? num then stat else status po.

(** No order of [l] has the number [num]. *)
Definition absent (num : string) (l : list PurchaseOrder) : Prop :=
  forall po, In po l -> po_number po <> num.

End OrdersSpec.

(** ** The reconnect chain *)

Module ChannelSpec.

Import Sidebar.

(** The closure of the chain started when [pr] was selected with the
    counter at [r]. *)
Definition chain (pr : Project) (r : nat) : Closure :=
  {| c_selectedProject := Some pr; c_connectionRetries := r |}.

(** A socket of the chain that [pr] started with the counter at 0. *)
Definition attempt (pr : Project) (tok : string) (rs : ReadyState) : Socket :=
  {| url := (wsBase ++ "/ws/" ++ proj_id pr ++ "?token=" ++ tok)%string;
     readyState := rs;
     handlers := chain pr 0 |}.

(** [n] reconnects have been made, the sockets [old] are closed and one
    more socket is connecting. *)
Definition connecting (pr : Project) (tok : string) (n : nat)
           (old : list Socket) : World :=
  {| st := set_channel None false n (st (mount (Some tok)));
     mounted := true;
     selectedProject := Some pr;
     token := Some tok;
     sockets := old ++ [attempt pr tok CONNECTING];
     timers := [];
     cleanup := Some None |}.

(** The socket number [i] closes without having opened, and the timer
    set by its [onclose] fires. *)
Definition failed_attempt (i : nat) : list Event := [Closes i; TimerFires 0].

(** [n] failed attempts in a row, on the sockets [first], [first + 1],
    ... *)
Definition failed_attempts (first n : nat) : list Event :=
  flat_map failed_attempt (seq first n).

(** A project is selected and its socket is open. *)
Definition connected : list Event :=
  [SelectProject (Some SampleOrders.project); Opens 0].

(** [close()] has been called on the socket, or it is closed. *)
Definition closing (sk : Socket) : Prop :=
  readyState sk = CLOSING \/ readyState sk = CLOSED.

End ChannelSpec.

(** ** The intervals held *)

Module PollerSpec.

Import Sidebar Poller.










Section Clock.

Variable local_day : string -> string.


End Clock.

End PollerSpec.

(** ** Lists on display *)

Module ViewsSpec.

Import Sidebar SidebarViews.

(** A status that is no name of a property every object inherits:
    [priority[status]] is then the entry of the table or [undefined]. *)
Definition plain_status (s : string) : bool :=
  negb (existsb (String.eqb s)
          [ "constructor"; "hasOwnProperty"; "isPrototypeOf";
            "propertyIsEnumerable"; "toLocaleString"; "toString"; "valueOf";
            "__proto__"; "__defineGetter__"; "__defineSetter__";
            "__lookupGetter__"; "__lookupSetter__" ]).

Definition is_pending (po : PurchaseOrder) : bool :=
  status po =? "pending_approval".

Definition is_sent (po : PurchaseOrder) : bool :=
  (status po =? "sent_to_vendor") || (status po =? "approved").

Definition is_rejected (po : PurchaseOrder) : bool :=
  status po =? "rejected".

(** Neither rejected nor sent: pending, generated and every other
    status. *)
Definition is_rest (po : PurchaseOrder) : bool :=
  negb (is_rejected po) && negb (is_sent po).

(** Whether the filter [f] shows an order of status [stat]. *)
Definition shows (f : FilterType) (stat : string) : bool :=
  match f with
  | all => true
  | pending => stat =? "pending_approval"
  | sent_to_vendor => (stat =? "sent_to_vendor") || (stat =? "approved")
  | rejected => stat =? "rejected"
  end.

(** A [po_status_update] event that passes the test of its handler. *)
Definition status_event (data : WebSocketMessage) (num stat : string) : Prop :=
  type data = po_status_update
  /\ m_po_number data = Some num /\ m_status data = Some stat
  /\ num <> "" /\ stat <> "".

(** Two lists under the filter [f] with the same orders, and in the same
    order unless the filter is [all], where the render sorts the state. *)
Definition agree (f : FilterType) (l1 l2 : list PurchaseOrder) : Prop :=
  Permutation l1 l2 /\ (f <> all -> l1 = l2).

(** Two states that differ at most in the order of a list under the
    filter [all]. *)
Definition same_orders (ft fs : FilterType) (s1 s2 : State) : Prop :=
  agree ft (todayPOs s1) (todayPOs s2)
  /\ agree fs (selectedDatePOs s1) (selectedDatePOs s2)
  /\ workflowStatus s1 = workflowStatus s2
  /\ lastWorkflowError s1 = lastWorkflowError s2
  /\ wsConnection s1 = wsConnection s2
  /\ isConnected s1 = isConnected s2
  /\ connectionRetries s1 = connectionRetries s2.

(** Every order of the two lists has a plain status. *)
Definition plain_lists (s : State) : Prop :=
  Forall (fun po => plain_status (status po) = true) (todayPOs s)
  /\ Forall (fun po => plain_status (status po) = true) (selectedDatePOs s).

(** The fetch did not bring a list: rejected, status not OK, or a body
    that is not a JSON object. *)
Definition fetch_failed (res : PosFetch) : bool :=
  match res with
  | PosRejected _ => true
  | PosResponded ok _ body =>
      negb ok || match body with
                 | PosJson _ => false
                 | _ => true
                 end
  end.

End ViewsSpec.

(** ** Reading a CSV text *)

Module CsvSpec.

Import SqlResult.

Definition comma : ascii := ascii_of_nat 44.
Definition quote : ascii := ascii_of_nat 34.
Definition newline : ascii := ascii_of_nat 10.

(** Where a reader of CSV stands: in a cell written bare, inside a quoted
    cell, or just after a quote met inside a quoted cell. *)
Inductive mode : Type := Bare | Quoted | QuoteSeen.

(** A reader of CSV text (RFC 4180, with line feed as the record
    separator): a doubled quote inside a quoted cell is one quote, commas
    and line feeds inside a quoted cell belong to the cell, and a quote
    elsewhere than at the start of a cell is refused.  [cur] is the cell
    being read, [cells] the cells of the record before it, [rows] the
    records before that. *)
Fixpoint read (m : mode) (cur : string) (cells : list string)
         (rows : list (list string)) (s : string)
  : option (list (list string)) :=
  match s with
  | EmptyString =>
      match m with
      | Quoted => None
      | _ => Some (rows ++ [cells ++ [cur]])%list
      end
  | String c s' =>
      match m with
      | Quoted =>
          if Ascii.eqb c quote then read QuoteSeen cur cells rows s'
          else read Quoted (cur ++ String c "") cells rows s'
      | QuoteSeen =>
          if Ascii.eqb c quote
          then read Quoted (cur ++ String c "") cells rows s'
          else if Ascii.eqb c comma
               then read Bare "" (cells ++ [cur])%list rows s'
               else if Ascii.eqb c newline
                    then read Bare "" [] (rows ++ [cells ++ [cur]])%list s'
                    else None
      | Bare =>
          if Ascii.eqb c comma
          then read Bare "" (cells ++ [cur])%list rows s'
          else if Ascii.eqb c newline
               then read Bare "" [] (rows ++ [cells ++ [cur]])%list s'
               else if Ascii.eqb c quote
                    then if cur =? "" then read Quoted "" cells rows s'
                         else None
                    else read Bare (cur ++ String c "") cells rows s'
      end
  end.

Definition parse (s : string) : option (list (list string)) :=
  read Bare "" [] [] s.

(** A name that holds no comma, quote or line feed. *)
Fixpoint plain (s : string) : bool :=
  match s with
  | EmptyString => true
  | String c s' =>
      negb (Ascii.eqb c comma) && negb (Ascii.eqb c newline)
      && negb (Ascii.eqb c quote) && plain s'
  end.

Definition is_text (v : Js.value) : bool :=
  match v with
  | Js.Str _ => true
  | _ => false
  end.

(** Every column of the row holds a string. *)
Definition all_text (headers : list string) (row : Row) : bool :=
  forallb (fun header => is_text (Js.lookup header row)) headers.

(** The cells of a row as the table shows them. *)
Definition cells_of (headers : list string) (row : Row) : list string :=
  map (fun header => Js.to_string (Js.lookup header row)) headers.

(** A row whose cells hold a comma, a quote and a line feed. *)
Definition sample_row : Row :=
  [ ("name", Js.Str "Bolt, M8");
    ("note", Js.Str ("6" ++ Chat.dquote ++ " long" ++ Chat.nl ++ "zinc")) ].

(** The rest of the text after a record: nothing, or a line feed and the
    next records. *)
Definition ends (rest : string) : Prop :=
  rest = "" \/ exists r, rest = String newline r.

(** What the reader does at the end of a record with cells [cs]. *)
Definition after (cs : list string) (rows : list (list string)) (rest : string)
  : option (list (list string)) :=
  match rest with
  | EmptyString => Some (rows ++ [cs])%list
  | String _ r => read Bare "" [] (rows ++ [cs])%list r
  end.

(** A line reads as the cells [cs] when the reader, started on it at the
    start of a record, ends the record with these cells. *)
Definition reads_as (l : string) (cs : list string) : Prop :=
  forall cells rows rest,
    ends rest ->
    read Bare "" cells rows (l ++ rest) = after (cells ++ cs)%list rows rest.

End CsvSpec.

(** ** Outcomes of an upload *)

Module UploadSpec.

Import Net Upload UploadDialog.

(** The server answered the upload with a JSON object and a status in
    the 2xx range. *)
Definition succeeded (res : FetchResult) : bool :=
  match res with
  | Responded resp =>
      ok resp
      && Js.includes (match content_type resp with Some c => c | None => "" end)
                     "application/json"
      && match body resp with
         | Json data => negb (Js.nullish data)
         | NotJson _ => false
         end
  | Rejected _ => false
  end.

Definition is_done (f : UploadFile) : Prop :=
  status f = completed /\ progress f = 100%Z.

Definition has_failed (msg : string) (f : UploadFile) : Prop :=
  status f = failed /\ error f = Some msg.

Definition is_alert (e : Effect) : bool :=
  match e with
  | Alert _ => true
  | OnUploadComplete _ => false
  end.

(** The calls of [onUploadComplete] in a log. *)
Definition reported (l : list Effect) : list (list UploadFile) :=
  flat_map (fun e => match e with
                     | OnUploadComplete fs => [fs]
                     | Alert _ => []
                     end) l.

(** A dialog at rest with files to upload. *)
Definition ready (w : World) : Prop :=
  isUploading (st w) = false /\ inflight w = []
  /\ uploadFiles (st w) <> [] /\ completedCount (st w) = 0.

Definition new_file (f : string * string) : UploadFile :=
  {| uf_id := fst f; file := snd f; progress := 0; status := uploading;
     error := None |}.

Definition two_files : list (string * string) :=
  [("1-0.25", "prices.csv"); ("1-0.75", "stock.csv")].

Definition accepted : FetchResult :=
  Responded {| ok := true; Net.status := 200;
               content_type := Some "application/json";
               body := Json (Js.Obj [("success_count", Js.Num 2)]) |}.

(** The dialog after two files were selected. *)
Definition two_listed : World :=
  {| st := {| uploadFiles := map new_file two_files; isUploading := false |};
     inflight := []; log := []; closes := 0 |}.

Definition late_file : list (string * string) := [("2-0.5", "orders.csv")].

(** The dialog is at rest, or one request is in flight whose files are
    the first files of the list, none of which is completed. *)
Definition one_request (w : World) : Prop :=
  (isUploading (st w) = false /\ inflight w = [])
  \/ (isUploading (st w) = true
      /\ completedCount (st w) = 0
      /\ exists c later,
          inflight w = [c] /\ uploadFiles (st w) = (c ++ later)%list).

End UploadSpec.

(** ** The alert panel *)

Module AlertsSpec.

Import Alerts.

Definition triggered_id (a : TriggeredAlert) : Z := id (t_alert a).

(** The alerts that were triggered: those waiting and those
    acknowledged, as they were triggered. *)
Definition all_triggered (s : State) : list TriggeredAlert :=
  (triggeredAlerts s ++ map a_alert (acknowledgedAlerts s))%list.

(** The alert under edit, if any, is a created alert. *)
Definition edit_is_listed (s : State) : Prop :=
  forall i, editingAlert s = Some i -> In i (map id (createdAlerts s)).

(** The list with the message of its [n]-th alert replaced. *)
Definition reworded (n : nat) (m : string) (l : list Alert) : list Alert :=
  match nth_error l n with
  | Some a => (firstn n l ++ with_message m a :: skipn (S n) l)%list
  | None => l
  end.

Definition acknowledge_first : list Event :=
  [ClickTab triggered; ClickAcknowledge 0 "2025-09-27" "08:00 AM"].

(** What a step leaves of the triggered and acknowledged alerts. *)
Definition moved (s s' : State) : Prop :=
  Permutation (all_triggered s) (all_triggered s')
  /\ (NoDup (map triggered_id (triggeredAlerts s)) ->
      NoDup (map triggered_id (triggeredAlerts s')))
  /\ exists newly,
      acknowledgedAlerts s' = (acknowledgedAlerts s ++ newly)%list
      /\ List.length (triggeredAlerts s') + List.length newly
         = List.length (triggeredAlerts s).

End AlertsSpec.

(** ** The user badge *)

Module ProfileSpec.

Import Profile.

(** A user record with the given full name. *)
Definition named (full_name : string) (others : list (string * Js.value))
  : Js.value :=
  Js.Obj (("full_name", Js.Str full_name) :: others).

(** No space in the word. *)
Fixpoint one_word (s : string) : bool :=
  match s with
  | EmptyString => true
  | String c s' => negb (Ascii.eqb c " ") && one_word s'
  end.

(** What [initials_of] can give. *)
Definition badge (s : string) : Prop :=
  String.length s = 1 \/ String.length s = 2
  \/ exists c, s = String (upper_char c) "UNDEFINED".

End ProfileSpec.

(** ** Signing in *)

Module LoginSpec.

Import Net LoginPage.

(** The JSON body of a response with a status in the 2xx range. *)
Definition ok_json (res : FetchResult) : option Js.value :=
  match res with
  | Responded resp =>
      if ok resp then
        match body resp with
        | Json v => Some v
        | NotJson _ => None
        end
      else None
  | Rejected _ => None
  end.

(** The registration was accepted: 2xx and a JSON body, whatever it is. *)
Definition registers (res : FetchResult) : bool :=
  match ok_json res with
  | Some _ => true
  | None => false
  end.

(** The login was accepted: 2xx and a JSON body other than [null]. *)
Definition logs_in (res : FetchResult) : bool :=
  match ok_json res with
  | Some data => negb (Js.nullish data)
  | None => false
  end.

(** The two checks of the registration form. *)
Definition valid (f : Form) : bool :=
  (registerPassword f =? registerConfirmPassword f)
  && (6 <=? Js.length (registerPassword f))%nat.

Definition is_alert (e : Effect) : bool :=
  match e with Alert _ => true | _ => false end.

Definition is_fetch (e : Effect) : bool :=
  match e with Fetch _ _ => true | _ => false end.

Definition is_store (e : Effect) : bool :=
  match e with SetItem _ _ => true | _ => false end.

Definition is_push (e : Effect) : bool :=
  match e with Push _ => true | _ => false end.

End LoginSpec.

(** ** The project list of the dashboard *)

Module DashboardSpec.

Import Dashboard.

(** A dashboard at rest with nothing selected and the upload dialog
    closed. *)
Definition idle (w : World) : Prop :=
  selectedProject (st w) = None /\ uploadOpen (st w) = false /\ tasks w = [].

Definition project (i n : string) : Project :=
  {| id := i; name := n; description := ""; created_at := "2025-09-26";
     updated_at := "2025-09-26"; documentCounts := None; documents := None |}.

Definition doc (i n : string) : ProjectDocument :=
  {| doc_id := i; doc_name := n; doc_type := "metadata";
     uploadedAt := "2025-09-26"; size := "Unknown" |}.

Definition two_projects : World :=
  {| st := {| projects := [project "p1" "Stores"; project "p2" "Vendors"];
              selectedProject := None; isRefreshingCounts := false;
              uploadOpen := false |};
     tasks := [] |}.

End DashboardSpec.

(** ** The typing indicator and the connection indicator *)

Module IndicatorSpec.

Import Sidebar.

(** While the typing indicator is on, a request is in flight. *)
Definition backed (w : Chat.World) : Prop :=
  Chat.isTyping (Chat.st w) = true -> Chat.in_flight w <> [].

(** A socket that has opened and whose [close] event has not been
    handled. *)
Definition live (r : ReadyState) : bool :=
  match r with
  | OPEN | CLOSING => true
  | CONNECTING | CLOSED => false
  end.

(** The socket the state holds, if any, is live. *)
Definition held (l : list Socket) (c : option nat) : Prop :=
  forall i, c = Some i ->
            exists sk, nth_error l i = Some sk /\ live (readyState sk) = true.

(** [isConnected] says whether a socket is held, and a held socket is
    live. *)
Definition indicator_ok (w : World) : Prop :=
  (isConnected (st w) = true <-> wsConnection (st w) <> None)
  /\ held (sockets w) (wsConnection (st w)).

End IndicatorSpec.

(** ** The generated documents *)

Module DownloadsSpec.

Import Downloads.

Definition in_project (f : Filters) (doc : GeneratedDocument) : bool :=
  match selectedProject f with
  | Some p => projectId doc =? p
  | None => (projectFilter f =? "all") || (projectId doc =? projectFilter f)
  end.

Definition in_search (f : Filters) (doc : GeneratedDocument) : bool :=
  (searchQuery f =? "") || found (searchQuery f) doc.

Definition of_type (f : Filters) (doc : GeneratedDocument) : bool :=
  (typeFilter f =? "all") || (type doc =? typeFilter f).

(** The period chosen, as bounds on the time of generation: from the
    lower bound on, and up to the upper bound or below it. *)
Definition in_period (f : Filters) (today : Z) (doc : GeneratedDocument) : bool :=
  let t := generatedAt doc in
  if dateFilter f =? "today" then (today <=? t)%Z
  else if dateFilter f =? "yesterday" then ((today - day <=? t) && (t <? today))%Z
  else if dateFilter f =? "week" then (today - 7 * day <=? t)%Z
  else if dateFilter f =? "month" then (today - 30 * day <=? t)%Z
  else if dateFilter f =? "custom" then
    match customFrom f, customTo f with
    | Some from, Some to => ((from <=? t) && (t <=? to))%Z
    | _, _ => true
    end
  else true.

(** The document passes every filter that is set. *)
Definition passes (f : Filters) (today : Z) (doc : GeneratedDocument) : bool :=
  in_project f doc && in_search f doc && of_type f doc && in_period f today doc.

Definition newest_first (a b : GeneratedDocument) : Prop :=
  (generatedAt b <= generatedAt a)%Z.

(** The same filters with another choice in the project list. *)
Definition with_projectFilter (p : string) (f : Filters) : Filters :=
  {| selectedProject := selectedProject f; projectFilter := p;
     searchQuery := searchQuery f; typeFilter := typeFilter f;
     dateFilter := dateFilter f; customFrom := customFrom f;
     customTo := customTo f |}.

End DownloadsSpec.

(** * Properties *)

(** ** The conversation loader *)

Module LoaderFacts.

Import Chat LoaderSpec.

Section WithParser.

Variable JSON_parse : string -> option Js.value.

Lemma is_object_cases (v : Js.value) :
  is_object v = true -> (exists o, v = Js.Obj o) \/ (exists l, v = Js.Arr l).
Proof.
  unfold is_object.
  destruct v; cbn; rewrite ?andb_false_r; try discriminate; eauto.
Qed.

Lemma decode_metadata_object (v : Js.value) :
  is_object v = true -> decode_metadata JSON_parse v = v.
Proof.
  intros H. destruct (is_object_cases v H) as [[o ->] | [l ->]]; reflexivity.
Qed.

Lemma decode_metadata_stores (raw parsed : Js.value) :
  stores JSON_parse raw parsed ->
  decode_metadata JSON_parse raw = decode_metadata JSON_parse parsed.
Proof.
  intros [-> | (Hobj & s & -> & Hne & Hparse)]; [reflexivity|].
  rewrite (decode_metadata_object parsed Hobj).
  apply String.eqb_neq in Hne.
  unfold decode_metadata, Js.or, parse_or_null. cbn.
  rewrite Hne. cbn. rewrite Hne, Hparse. cbn.
  destruct (is_object_cases parsed Hobj) as [[o ->] | [l ->]]; reflexivity.
Qed.

Lemma decode_query_result_stores (raw parsed : Js.value) :
  stores JSON_parse raw parsed ->
  decode_query_result JSON_parse raw
  = decode_query_result JSON_parse parsed.
Proof.
  intros [-> | (Hobj & s & -> & _ & Hparse)]; [reflexivity|].
  unfold decode_query_result, parse_or_null. rewrite Hparse.
  destruct (is_object_cases parsed Hobj) as [[o ->] | [l ->]]; reflexivity.
Qed.

Lemma decode_metadata_unparseable (raw : Js.value) :
  unparseable JSON_parse raw -> decode_metadata JSON_parse raw = Js.Obj [].
Proof.
  intros (s & -> & Hparse).
  unfold decode_metadata, Js.or, parse_or_null. cbn.
  destruct (s =? "") eqn:Hs; cbn; rewrite ?Hs, ?Hparse; reflexivity.
Qed.

Lemma decode_query_result_unparseable (raw : Js.value) :
  unparseable JSON_parse raw -> decode_query_result JSON_parse raw = Js.Null.
Proof.
  intros (s & -> & Hparse).
  unfold decode_query_result, parse_or_null. rewrite Hparse. reflexivity.
Qed.

(** [formatMessage] reads its record through [Js.get] only. *)
Lemma formatMessage_same_record (m1 m2 : Js.value) :
  same_record m1 m2 ->
  decode_metadata JSON_parse (Js.get m1 "metadata")
  = decode_metadata JSON_parse (Js.get m2 "metadata") ->
  decode_query_result JSON_parse (Js.get m1 "query_result")
  = decode_query_result JSON_parse (Js.get m2 "query_result") ->
  formatMessage JSON_parse m1 = formatMessage JSON_parse m2.
Proof.
  intros (Hn1 & Hn2 & Hsame) Hmeta Hqr.
  unfold formatMessage. rewrite Hn1, Hn2, Hmeta, Hqr.
  repeat match goal with
         | |- context [Js.get m1 ?k] =>
             rewrite (Hsame k) by (intro E; discriminate E)
         end.
  reflexivity.
Qed.

Lemma formatMessage_returns (m : Js.value) :
  Js.nullish m = false -> formatMessage JSON_parse m <> None.
Proof.
  intros Hn. unfold formatMessage. rewrite Hn. discriminate.
Qed.

(** C4. Loading a stored record whose [metadata] or [query_result] is a
    JSON text of an object gives the same [Message] as loading the
    record that holds the parsed object; and when such a text does not
    parse, the loader goes on with [{}] for [metadata] and [null] for
    [query_result]: it returns the [Message] of the record that holds
    these values, and throws nothing. *)
Theorem load_decodes_string_fields :
  (forall m1 m2 : Js.value,
      same_record m1 m2 ->
      stores JSON_parse (Js.get m1 "metadata") (Js.get m2 "metadata") ->
      stores JSON_parse (Js.get m1 "query_result") (Js.get m2 "query_result") ->
      formatMessage JSON_parse m1 = formatMessage JSON_parse m2
      /\ formatMessage JSON_parse m1 <> None)
  /\ (forall m1 m2 : Js.value,
      same_record m1 m2 ->
      falls_back JSON_parse (Js.Obj []) (Js.get m1 "metadata") (Js.get m2 "metadata") ->
      falls_back JSON_parse Js.Null (Js.get m1 "query_result") (Js.get m2 "query_result") ->
      formatMessage JSON_parse m1 = formatMessage JSON_parse m2
      /\ formatMessage JSON_parse m1 <> None).
Proof.
  split; intros m1 m2 Hsame Hmeta Hqr.
  - split; [|apply formatMessage_returns, Hsame].
    apply formatMessage_same_record; trivial.
    + now apply decode_metadata_stores.
    + now apply decode_query_result_stores.
  - split; [|apply formatMessage_returns, Hsame].
    apply formatMessage_same_record; trivial.
    + destruct Hmeta as [-> | [Hu ->]]; [reflexivity|].
      now rewrite decode_metadata_unparseable.
    + destruct Hqr as [-> | [Hu ->]]; [reflexivity|].
      now rewrite decode_query_result_unparseable.
Qed.

End WithParser.

Lemma sample_same_record (a b c x y x' y' : Js.value) :
  same_record
    (Js.Obj [("id", a); ("role", b); ("content", c);
             ("metadata", x); ("query_result", y)])
    (Js.Obj [("id", a); ("role", b); ("content", c);
             ("metadata", x'); ("query_result", y')]).
Proof.
  repeat split. intros k Hm Hq. cbn.
  apply String.eqb_neq in Hm, Hq. rewrite Hm, Hq. reflexivity.
Defined.

Lemma load_decodes_string_fields_witness :
  formatMessage Sample.parse Sample.stored_encoded
  = formatMessage Sample.parse Sample.stored_parsed
  /\ formatMessage Sample.parse Sample.stored_broken
     = formatMessage Sample.parse Sample.stored_empty.
Proof.
  destruct (load_decodes_string_fields Sample.parse) as [Hround Hfail].
  split.
  - apply Hround.
    + apply sample_same_record.
    + right. split; [reflexivity|].
      exists Sample.chart_text. repeat split. discriminate.
    + right. split; [reflexivity|].
      exists Sample.rows_text. repeat split. discriminate.
  - apply Hfail.
    + apply sample_same_record.
    + right. split; [|reflexivity]. exists "<html>". split; reflexivity.
    + right. split; [|reflexivity]. exists "<html>". split; reflexivity.
Defined.

End LoaderFacts.

(** ** Sending a chat message *)

Module SendFacts.

Import Net Chat SendSpec.
Local Open Scope list_scope.

Lemma reply_sender (p : Pending) (res : FetchResult) (now : Z) :
  sender (reply p res now) = ai.
Proof.
  unfold reply. destruct (query_outcome (p_render p) res); reflexivity.
Qed.

Lemma send_settled_appends (p : Pending) (res : FetchResult) (now : Z)
      (s : State) :
  messages (send_settled p res now s) = messages s ++ [reply p res now].
Proof.
  unfold send_settled, reply, finish.
  destruct (query_outcome (p_render p) res); reflexivity.
Qed.

Lemma send_settled_idle (p : Pending) (res : FetchResult) (now : Z)
      (s : State) :
  isTyping (send_settled p res now s) = false
  /\ message (send_settled p res now s) = message s.
Proof.
  unfold send_settled, finish.
  destruct (query_outcome (p_render p) res); split; reflexivity.
Qed.

Lemma count_sender_app (who : Sender) (l1 l2 : list Message) :
  count_sender who (l1 ++ l2)
  = (count_sender who l1 + count_sender who l2)%nat.
Proof.
  unfold count_sender. now rewrite filter_app, length_app.
Qed.

(** The guard of [handleSendMessage], read on the closure. *)
Lemma send_blocked_false (r : Render) :
  send_blocked r = false <->
  Js.trim (message (r_state r)) <> ""
  /\ selectedProject (r_props r) <> None
  /\ isTyping (r_state r) = false.
Proof.
  unfold send_blocked. rewrite !orb_false_iff, String.eqb_neq.
  destruct (selectedProject (r_props r)); intuition congruence.
Qed.

Lemma handleSendMessage_blocked (r : Render) (tok : option string) (now : Z)
      (s : State) :
  send_blocked r = true -> handleSendMessage r tok now s = (s, None).
Proof.
  intros H. unfold handleSendMessage. now rewrite H.
Qed.

(** A handler that passes its guard appends the optimistic message and
    clears the input; it issues the request exactly when a token is
    stored, and otherwise appends the error reply at once. *)
Lemma handleSendMessage_passes (r : Render) (tok : option string) (now : Z)
      (s : State) :
  send_blocked r = false ->
  let '(s1, req) := handleSendMessage r tok now s in
  message s1 = ""
  /\ match req with
     | Some p =>
         messages s1 = messages s ++ [userMessage r now]
         /\ isTyping s1 = true /\ p_render p = r
         /\ req_message (p_request p) = Js.trim (message (r_state r))
         /\ req_conversation_id (p_request p)
            = currentConversationId (r_props r)
         /\ present tok = true
     | None =>
         messages s1
         = messages s
           ++ [userMessage r now;
               errorResponse r "No authentication token found. Please log in again." now]
         /\ isTyping s1 = false /\ present tok = false
     end.
Proof.
  intros Hb. unfold handleSendMessage. rewrite Hb.
  apply send_blocked_false in Hb. destruct Hb as (_ & Hp & _).
  destruct (selectedProject (r_props r)) as [pr|]; [|congruence].
  destruct tok as [t|]; cbn.
  - destruct (t =? "") eqn:Ht; cbn; rewrite ?Ht; cbn.
    + rewrite <- app_assoc. repeat split.
    + repeat split.
  - rewrite <- app_assoc. repeat split.
Qed.

Lemma nth_error_appended {A : Type} (l : list A) (x : A) :
  nth_error (l ++ [x]) (List.length l) = Some x.
Proof. induction l as [|y l IH]; [reflexivity | exact IH]. Qed.

Lemma remove_nth_appended {A : Type} (l : list A) (x : A) :
  remove_nth (List.length l) (l ++ [x]) = l.
Proof. induction l as [|y l IH]; [reflexivity | cbn; now rewrite IH]. Qed.

Section Submit.

Variable JSON_parse : string -> option Js.value.

(** The path of the form.  A submission from the form (its handler reads
    the input and [isTyping] of the store) of a message that is not
    blank once trimmed, with a project selected and no reply awaited,
    whatever the current conversation id: the optimistic [user] message
    with the trimmed input as content is appended and the input is
    cleared in the same turn, before the call resolves; whenever the call
    settles, exactly one [ai] message is appended to the list on display.
    Without a stored token no call is made and the one [ai] message, the
    error explanation, follows the optimistic message in the same turn. *)
Lemma form_submit_appends_optimistic_then_one_reply
      (w : World) (now : Z) (pr : Project) :
  Js.trim (message (st w)) <> "" ->
  selectedProject (props w) = Some pr ->
  isTyping (st w) = false ->
  exists w' um,
    step JSON_parse w (Submit now) = Some w'
    /\ message (st w') = ""
    /\ sender um = user
    /\ content um = Js.Str (Js.trim (message (st w)))
    /\ ((exists p,
           tasks w' = tasks w ++ [QueryTask p]
           /\ messages (st w') = messages (st w) ++ [um]
           /\ req_message (p_request p) = Js.trim (message (st w))
           /\ req_conversation_id (p_request p)
              = currentConversationId (props w)
           /\ forall (w2 : World) (i : nat) (res : FetchResult) (now' : Z),
               nth_error (tasks w2) i = Some (QueryTask p) ->
               exists w3 m,
                 step JSON_parse w2 (QuerySettles i res now') = Some w3
                 /\ sender m = ai
                 /\ messages (st w3) = messages (st w2) ++ [m]
                 /\ count_sender ai (messages (st w3))
                    = S (count_sender ai (messages (st w2))))
        \/ (present (token w) = false
            /\ tasks w' = tasks w
            /\ exists m,
                sender m = ai
                /\ messages (st w') = messages (st w) ++ [um; m])).
Proof.
  intros Hmsg Hproj Htyping.
  assert (Hb : send_blocked (render_of w) = false).
  { apply send_blocked_false. cbn. repeat split; congruence. }
  pose proof (handleSendMessage_passes (render_of w) (token w) now (st w) Hb) as H.
  cbn [step].
  destruct (handleSendMessage (render_of w) (token w) now (st w)) as [s1 req].
  destruct H as (Hclear & H).
  eexists. exists (userMessage (render_of w) now).
  split; [reflexivity|]. cbn [st tasks].
  split; [exact Hclear|]. split; [reflexivity|]. split; [reflexivity|].
  destruct req as [p|].
  - left. exists p. destruct H as (Happ & _ & _ & Hreq & Hcid & _).
    repeat split; trivial.
    intros w2 i res now' Hi. cbn [step]. rewrite Hi.
    eexists. exists (reply p res now'). split; [reflexivity|]. cbn [st].
    rewrite send_settled_appends, count_sender_app.
    repeat split; [apply reply_sender|].
    unfold count_sender at 2. cbn. rewrite reply_sender. cbn. lia.
  - right. destruct H as (Happ & _ & Htok). cbn [opt_list List.map].
    rewrite app_nil_r. repeat split; trivial.
    eexists. split; [|exact Happ]. reflexivity.
Qed.

(** C6, on the code.  A click on a suggestion [s] puts [s] in the input
    and sets a timer on the [handleSendMessage] of the render of the
    click, whose guard reads the input of that render.  With an input
    that was blank at the click, a project selected and no reply awaited,
    the timer submits nothing: the input holds [s], which is not blank,
    and yet no message is appended, the input is not cleared and no
    request is issued. *)
Theorem suggestion_click_over_blank_input_sends_nothing
        (w : World) (s : string) (now : Z) (pr : Project) :
  Js.trim (message (st w)) = "" ->
  Js.trim s <> "" ->
  selectedProject (props w) = Some pr ->
  isTyping (st w) = false ->
  exists w1 w2,
    step JSON_parse w (SuggestionClick s) = Some w1
    /\ message (st w1) = s
    /\ step JSON_parse w1 (TimerFires (List.length (tasks w)) now) = Some w2
    /\ message (st w2) = s
    /\ messages (st w2) = messages (st w)
    /\ isTyping (st w2) = false
    /\ tasks w2 = tasks w.
Proof.
  intros Hblank _ _ Htyping.
  assert (Hb : send_blocked (render_of w) = true).
  { unfold send_blocked. cbn [render_of r_state]. rewrite Hblank. reflexivity. }
  eexists. eexists. split; [reflexivity|]. split; [reflexivity|].
  cbn [step tasks st props token].
  rewrite nth_error_appended, (handleSendMessage_blocked _ _ _ _ Hb).
  split; [reflexivity|]. cbn [st tasks opt_list List.map set_message message
                              messages isTyping].
  rewrite remove_nth_appended, app_nil_r. repeat split. exact Htyping.
Qed.

End Submit.

Lemma form_submit_on_sample :
  exists w' um,
    step Sample.parse Sample.ready_to_send (Submit 1000) = Some w'
    /\ message (st w') = ""
    /\ content um = Js.Str "generate PO for today"
    /\ List.length (tasks w') = 1%nat.
Proof.
  destruct (form_submit_appends_optimistic_then_one_reply
              Sample.parse Sample.ready_to_send 1000 Sample.project)
    as (w' & um & Hstep & Hclear & _ & Hcontent & _).
  - vm_compute. discriminate.
  - reflexivity.
  - reflexivity.
  - exists w', um. repeat split; trivial.
    vm_compute in Hstep. injection Hstep as <-. reflexivity.
Qed.

Lemma suggestion_click_over_blank_input_sends_nothing_witness :
  exists w w1 w2,
    run Sample.parse (mount (Sample.in_conversation None) (Some "tok") 0)
        Traces.suggestion_shown = Some w
    /\ message (st w) = ""
    /\ step Sample.parse w (SuggestionClick "show totals") = Some w1
    /\ message (st w1) = "show totals"
    /\ step Sample.parse w1 (TimerFires 0 1100) = Some w2
    /\ message (st w2) = "show totals"
    /\ messages (st w2) = messages (st w)
    /\ in_flight w2 = [].
Proof.
  eexists.
  destruct (suggestion_click_over_blank_input_sends_nothing
              Sample.parse
              {| st := {| messages :=
                            new_chat_welcome (Sample.in_conversation None) 0
                            ++ [userMessage
                                  {| r_state :=
                                       {| messages :=
                                            new_chat_welcome
                                              (Sample.in_conversation None) 0;
                                          message := "sales by store";
                                          isTyping := false; error := None |};
                                     r_props := Sample.in_conversation None |}
                                  100;
                                aiResponse
                                  (Sample.answer "see the table"
                                                 [Js.Str "show totals"]) 900];
                          message := ""; isTyping := false; error := None |};
                 props := Sample.in_conversation None;
                 token := Some "tok"; tasks := [] |}
              "show totals" 1100 Sample.project)
    as (w1 & w2 & H1 & Hm1 & H2 & Hm2 & Hms & _ & Ht).
  - reflexivity.
  - vm_compute. discriminate.
  - reflexivity.
  - reflexivity.
  - exists w1, w2. split; [vm_compute; reflexivity|].
    split; [reflexivity|]. split; [exact H1|]. split; [exact Hm1|].
    split; [exact H2|]. split; [exact Hm2|]. split; [exact Hms|].
    unfold in_flight. rewrite Ht. reflexivity.
Defined.

Lemma errorResponse_is_error_reply (r : Render) (msg : string) (now : Z) :
  is_error_reply (errorResponse r msg now) msg.
Proof.
  repeat split. eexists. reflexivity.
Qed.

(** The [try] block reaches its end exactly when the call brought an
    answer. *)
Lemma query_outcome_got (r : Render) (res : FetchResult) (data : Js.value) :
  query_outcome r res = Got data <-> answers r res data.
Proof.
  unfold answers. split.
  - destruct res as [reason | resp]; cbn; [discriminate|].
    destruct (ok resp) eqn:Hok; cbn.
    + destruct (body resp) as [v | err] eqn:Hbody; [|discriminate].
      destruct (Js.nullish v) eqn:Hnull; [discriminate|].
      destruct (isEmbeddingProcessing (r_props r)) eqn:Hp; cbn.
      * destruct (Js.get v "final_answer") eqn:Hfa; cbn; try discriminate;
          intros [= <-]; exists resp; rewrite Hfa; repeat split; assumption.
      * intros [= <-]. exists resp. repeat split; try assumption.
        destruct (Js.get v "final_answer"); trivial.
    + destruct (status resp =? 401)%Z; [discriminate|].
      destruct (Js.nullish _); discriminate.
  - intros (resp & -> & Hok & Hbody & Hnull & Hfa). cbn.
    rewrite Hok, Hbody, Hnull. cbn.
    destruct (Js.get data "final_answer"); cbn; rewrite ?andb_false_r;
      try reflexivity; rewrite Hfa; reflexivity.
Qed.

Lemma call_failed_throws (r : Render) (res : FetchResult) :
  call_failed res = true ->
  exists msg, query_outcome r res = Threw msg /\ explains res msg.
Proof.
  destruct res as [reason | resp]; cbn; intros H.
  - eauto.
  - rewrite H. destruct (Z.eqb_spec (status resp) 401) as [E|E].
    + eexists. split; [reflexivity|]. split; [reflexivity | contradiction].
    + destruct (body resp) as [v | err] eqn:Hbody.
      * destruct (Js.nullish v) eqn:Hnull;
          (eexists; split; [reflexivity|]; split; [contradiction|]; intros _;
           split; [discriminate|]; intros v' detail [= <-] Hd Hne).
        -- destruct v; cbn in Hnull, Hd; discriminate.
        -- rewrite Hd. unfold Js.or. cbn [Js.truthy].
           apply String.eqb_neq in Hne. rewrite Hne. reflexivity.
      * cbn. eexists. split; [reflexivity|]. split; [contradiction|].
        intros _. split; [intros err' _; reflexivity | discriminate].
Qed.

(** C7. Every [/chat/query] call that settles appends exactly one [ai]
    message to the message list and ends the wait.  When the call
    brought an answer the message is the one assembled from it, with the
    answer as content.  In every other case it is the error explanation,
    and its text is kept as the error of the component; a failed call
    (rejected [fetch], status that is not OK, 401 among them) is such a
    case, explained by the reason of the rejection, the fixed text for
    401, the detail of the body or the status.  A send without a stored
    token makes no call and appends the error explanation right after the
    optimistic message. *)
Theorem every_request_gets_one_reply :
  (forall (p : Pending) (res : FetchResult) (now : Z) (s : State),
      exists m,
        messages (send_settled p res now s) = messages s ++ [m]
        /\ sender m = ai
        /\ isTyping (send_settled p res now s) = false
        /\ (forall data,
              answers (p_render p) res data ->
              m = aiResponse data now
              /\ content m = Js.get data "final_answer"
              /\ error (send_settled p res now s) = error s)
        /\ ((forall data, ~ answers (p_render p) res data) ->
            exists msg,
              is_error_reply m msg
              /\ error (send_settled p res now s) = Some msg)
        /\ (call_failed res = true ->
            (forall data, ~ answers (p_render p) res data)
            /\ exists msg,
                is_error_reply m msg /\ explains res msg
                /\ error (send_settled p res now s) = Some msg))
  /\ (forall (r : Render) (tok : option string) (now : Z) (s : State),
      send_blocked r = false ->
      present tok = false ->
      exists m,
        is_error_reply m "No authentication token found. Please log in again."
        /\ fst (handleSendMessage r tok now s)
           = {| messages := messages s ++ [userMessage r now; m];
                message := "";
                isTyping := false;
                error := Some "No authentication token found. Please log in again." |}
        /\ snd (handleSendMessage r tok now s) = None).
Proof.
  split.
  - intros p res now s. exists (reply p res now).
    split; [apply send_settled_appends|].
    split; [apply reply_sender|].
    split; [apply send_settled_idle|].
    unfold reply, send_settled, finish.
    split; [|split].
    + intros data Ha. apply query_outcome_got in Ha. rewrite Ha.
      repeat split.
    + intros Hno. destruct (query_outcome (p_render p) res) as [msg | data] eqn:Ho.
      * exists msg. split; [apply errorResponse_is_error_reply | reflexivity].
      * apply query_outcome_got in Ho. now apply Hno in Ho.
    + intros Hf.
      destruct (call_failed_throws (p_render p) res Hf) as (msg & Ho & He).
      split.
      * intros data Ha. apply query_outcome_got in Ha. congruence.
      * rewrite Ho. exists msg.
        split; [apply errorResponse_is_error_reply|]. split; [exact He|].
        reflexivity.
  - intros r tok now s Hb Htok.
    eexists. split; [apply (errorResponse_is_error_reply r _ now)|].
    unfold handleSendMessage. rewrite Hb.
    apply send_blocked_false in Hb. destruct Hb as (_ & Hp & _).
    destruct (selectedProject (r_props r)) as [pr|]; [|congruence].
    destruct tok as [t|]; cbn in *.
    + apply negb_false_iff in Htok. rewrite Htok. cbn.
      rewrite <- app_assoc. split; reflexivity.
    + rewrite <- app_assoc. split; reflexivity.
Qed.

Lemma every_request_gets_one_reply_witness :
  (exists m,
      messages (send_settled Sample.pending_A
                  (Sample.responds (Some "application/json")
                                   (Sample.answer "total is 42" []))
                  3000%Z (st Sample.showing_B))
      = [m]
      /\ sender m = ai /\ content m = Js.Str "total is 42")
  /\ (exists m,
        messages (send_settled Sample.pending_A
                    (Responded {| ok := false; status := 500;
                                  content_type := Some "text/html";
                                  body := NotJson "Unexpected token" |})
                    3000%Z (st Sample.showing_B))
        = [m]
        /\ is_error_reply m "Server error: 500")
  /\ exists m,
      is_error_reply m "No authentication token found. Please log in again."
      /\ messages
           (fst (handleSendMessage
                   {| r_state := {| messages := []; message := "hello";
                                    isTyping := false; error := None |};
                      r_props := Sample.in_conversation (Some "A") |}
                   None 1000%Z
                   {| messages := []; message := "hello";
                      isTyping := false; error := None |}))
         = [userMessage
              {| r_state := {| messages := []; message := "hello";
                               isTyping := false; error := None |};
                 r_props := Sample.in_conversation (Some "A") |} 1000%Z; m].
Proof.
  destruct every_request_gets_one_reply as [Hcall Htoken].
  split; [|split].
  - destruct (Hcall Sample.pending_A
                (Sample.responds (Some "application/json")
                                 (Sample.answer "total is 42" []))
                3000%Z (st Sample.showing_B))
      as (m & Happ & Hai & _ & Hgot & _).
    exists m. split; [exact Happ|]. split; [exact Hai|].
    destruct (Hgot (Sample.answer "total is 42" [])) as (_ & -> & _);
      [|reflexivity].
    eexists. repeat split.
  - destruct (Hcall Sample.pending_A
                (Responded {| ok := false; status := 500;
                              content_type := Some "text/html";
                              body := NotJson "Unexpected token" |})
                3000%Z (st Sample.showing_B))
      as (m & Happ & _ & _ & _ & _ & Hfail).
    exists m. split; [exact Happ|].
    destruct (Hfail eq_refl) as (_ & msg & Hm & He & _).
    cbn in He. destruct He as (_ & He).
    destruct (He ltac:(discriminate)) as (He' & _).
    rewrite (He' _ eq_refl) in Hm. exact Hm.
  - destruct (Htoken {| r_state := {| messages := []; message := "hello";
                                      isTyping := false; error := None |};
                        r_props := Sample.in_conversation (Some "A") |}
                None 1000%Z
                {| messages := []; message := "hello";
                   isTyping := false; error := None |})
      as (m & Hm & Hst & _).
    + reflexivity.
    + reflexivity.
    + exists m. split; [exact Hm|]. rewrite Hst. reflexivity.
Defined.

End SendFacts.

(** ** Replies and the conversation on display *)

Module ConversationFacts.

Import Net Chat SendSpec Traces.
Local Open Scope list_scope.

(** In conversation B, with the request of A still in flight, the reply
    to A settles and is appended to the two messages of B. *)
Lemma stale_reply_reaches_other_conversation :
  exists (w w' : World) (p : Pending),
    run Sample.parse
        (mount (Sample.in_conversation (Some "A")) (Some "tok") 0)
        switch_while_waiting = Some w
    /\ currentConversationId (props w) = Some "B"
    /\ List.map content (messages (st w))
       = [Js.Str "stock of item 7?"; Js.Str "12 units"]
    /\ tasks w = [QueryTask p]
    /\ req_conversation_id (p_request p) = Some "A"
    /\ step Sample.parse w
            (QuerySettles 0 (Sample.responds (Some "application/json")
                                             (Sample.answer "total is 42" []))
                          3000) = Some w'
    /\ List.map content (messages (st w'))
       = [Js.Str "stock of item 7?"; Js.Str "12 units"; Js.Str "total is 42"].
Proof.
  do 3 eexists.
  split; [vm_compute; reflexivity|].
  repeat split.
Qed.

Section WithParser.

Variable JSON_parse : string -> option Js.value.

(** C1, amended. The handler has no staleness check: when a
    [/chat/query] request settles, its reply (answer or error
    explanation) is appended to the message list the store holds at
    that moment, whether or not the conversation id sent with the
    request is the one now selected. *)
Theorem late_reply_joins_displayed_list
        (w : World) (i : nat) (p : Pending) (res : FetchResult) (now : Z) :
  nth_error (tasks w) i = Some (QueryTask p) ->
  exists w',
    step JSON_parse w (QuerySettles i res now) = Some w'
    /\ messages (st w') = messages (st w) ++ [SendSpec.reply p res now]
    /\ sender (SendSpec.reply p res now) = ai
    /\ props w' = props w.
Proof.
  intros Hi. cbn. rewrite Hi. eexists. split; [reflexivity|]. cbn.
  split; [apply SendFacts.send_settled_appends|].
  split; [apply SendFacts.reply_sender|reflexivity].
Qed.

End WithParser.

Lemma late_reply_joins_displayed_list_witness :
  req_conversation_id (p_request Sample.pending_A) = Some "A"
  /\ currentConversationId (props Sample.showing_B) = Some "B"
  /\ exists w',
      step Sample.parse Sample.showing_B
           (QuerySettles 0 (Rejected "Failed to fetch") 3000) = Some w'
      /\ List.length (messages (st w')) = 1%nat.
Proof.
  split; [reflexivity|]. split; [reflexivity|].
  destruct (late_reply_joins_displayed_list Sample.parse Sample.showing_B 0
              Sample.pending_A (Rejected "Failed to fetch") 3000)
    as (w' & Hstep & Hmsgs & _).
  - reflexivity.
  - exists w'. split; [exact Hstep|]. rewrite Hmsgs. reflexivity.
Defined.

(** C10, on the code. [handleSendMessage] reads [isTyping] from the render
    that created it.  The handler the second timer runs was created
    before the first request was sent: the store says [isTyping = true]
    and a request is in flight, yet the handler passes its guard, appends
    a second optimistic message and issues a second request. *)
Theorem stale_guard_sends_while_in_flight :
  exists (w w' : World),
    run Sample.parse (mount (Sample.in_conversation None) (Some "tok") 0)
        double_click = Some w
    /\ isTyping (st w) = true
    /\ List.map (fun p => req_message (p_request p)) (in_flight w) = ["hello"]
    /\ step Sample.parse w (TimerFires 0 1150) = Some w'
    /\ List.map (fun p => req_message (p_request p)) (in_flight w')
       = ["hello"; "show totals"]
    /\ List.map content (skipn 3 (messages (st w')))
       = [Js.Str "hello"; Js.Str "show totals"].
Proof.
  do 2 eexists.
  split; [vm_compute; reflexivity|].
  repeat split.
Qed.

(** *** What the guard gives for the handlers of the form

    The [onSubmit] and [onKeyPress] handlers are those of the last
    committed render, so their guard reads the [isTyping] of the store.
    Along a trace made of their events, of prop changes and of settled
    calls, at most one request is in flight. *)

Lemma awaited_app (l1 l2 : list Task) :
  awaited (l1 ++ l2) = awaited l1 ++ awaited l2.
Proof.
  apply flat_map_app.
Qed.

Lemma awaited_remove_query (l : list Task) (i : nat) (p : Pending) :
  nth_error l i = Some (QueryTask p) ->
  S (List.length (awaited (remove_nth i l))) = List.length (awaited l).
Proof.
  revert i. induction l as [|t l IH]; intros [|i] H; try discriminate.
  - cbn in H. injection H as ->. reflexivity.
  - cbn in H. specialize (IH i H).
    destruct t; cbn in *; auto.
Qed.

Lemma awaited_remove_load (l : list Task) (i : nat) (q : Props) (c : string) :
  nth_error l i = Some (LoadTask q c) ->
  awaited (remove_nth i l) = awaited l.
Proof.
  revert i. induction l as [|t l IH]; intros [|i] H; try discriminate.
  - cbn in H. injection H as ->. reflexivity.
  - cbn in H. specialize (IH i H).
    destruct t; cbn; unfold awaited in IH; rewrite ?IH; reflexivity.
Qed.

Section Serialization.

Variable JSON_parse : string -> option Js.value.

Lemma load_settled_isTyping (q : Props) (res : FetchResult) (now : Z)
      (s : State) :
  isTyping (load_settled JSON_parse q res now s) = isTyping s.
Proof.
  unfold load_settled.
  repeat match goal with
         | |- context [match ?x with _ => _ end] => destruct x
         end; reflexivity.
Qed.

Lemma step_serialized (w w' : World) (e : Event) :
  from_form e = true -> serialized w ->
  step JSON_parse w e = Some w' -> serialized w'.
Proof.
  intros He [Hlen Htyping] Hstep.
  unfold serialized, in_flight in *. fold (awaited (tasks w)) in *.
  fold (awaited (tasks w')).
  destruct e as [s | now | s | q now | i now | i res now | i res now];
    try discriminate He; cbn [step] in Hstep.
  - injection Hstep as <-. cbn [tasks st]. auto.
  - pose proof (SendFacts.handleSendMessage_passes (render_of w) (token w) now (st w))
      as Hpass.
    destruct (send_blocked (render_of w)) eqn:Hb.
    + rewrite (SendFacts.handleSendMessage_blocked _ _ _ _ Hb) in Hstep.
      injection Hstep as <-. cbn [tasks st opt_list List.map].
      rewrite app_nil_r. auto.
    + specialize (Hpass eq_refl).
      apply SendFacts.send_blocked_false in Hb. destruct Hb as (_ & _ & Hidle).
      cbn in Hidle.
      assert (Hnone : awaited (tasks w) = []).
      { destruct (awaited (tasks w)) eqn:E; [reflexivity|].
        rewrite Htyping in Hidle; discriminate. }
      destruct (handleSendMessage (render_of w) (token w) now (st w)) as [s1 req].
      injection Hstep as <-. cbn [tasks st]. rewrite awaited_app, Hnone.
      destruct req as [p|]; cbn.
      * split; [lia|]. intros _. apply Hpass.
      * split; [lia|]. intros H. now contradiction H.
  - destruct (deps_changed (props w) q).
    + unfold conversation_effect in Hstep.
      destruct (currentConversationId q) as [c|];
        [destruct (negb (c =? ""))|];
        injection Hstep as <-; cbn [tasks st];
        rewrite ?awaited_app; cbn [awaited flat_map];
        rewrite ?app_nil_r; auto.
    + injection Hstep as <-. cbn [tasks st]. auto.
  - destruct (nth_error (tasks w) i) as [[p | |]|] eqn:Hi; try discriminate.
    injection Hstep as <-. cbn [tasks st].
    pose proof (awaited_remove_query _ _ _ Hi) as Hrem.
    assert (Hnone : awaited (remove_nth i (tasks w)) = []).
    { destruct (awaited (remove_nth i (tasks w))); [reflexivity|].
      cbn in Hrem. lia. }
    rewrite Hnone. split; [cbn; lia|]. intros H. now contradiction H.
  - destruct (nth_error (tasks w) i) as [[| q c |]|] eqn:Hi; try discriminate.
    injection Hstep as <-. cbn [tasks st].
    rewrite (awaited_remove_load _ _ _ _ Hi), load_settled_isTyping. auto.
Qed.

Lemma run_serialized (es : list Event) (w w' : World) :
  forallb from_form es = true -> serialized w ->
  run JSON_parse w es = Some w' -> serialized w'.
Proof.
  revert w. induction es as [|e es IH]; intros w Hes Hw Hrun; cbn in *.
  - now injection Hrun as <-.
  - apply andb_prop in Hes. destruct Hes as [He Hes].
    destruct (step JSON_parse w e) as [w1|] eqn:Hstep; [|discriminate].
    apply (IH w1); trivial.
    now apply (step_serialized w w1 e).
Qed.

Lemma mount_serialized (q : Props) (tok : option string) (now : Z) :
  serialized (mount q tok now).
Proof.
  unfold mount, conversation_effect, serialized, in_flight.
  destruct (currentConversationId q) as [c|];
    [destruct (negb (c =? ""))|]; cbn; split; (lia || congruence).
Qed.

Lemma form_submissions_are_serialized
      (q : Props) (tok : option string) (now : Z) (es : list Event) (w : World) :
  forallb from_form es = true ->
  run JSON_parse (mount q tok now) es = Some w ->
  (List.length (in_flight w) <= 1)%nat.
Proof.
  intros Hes Hrun.
  apply (run_serialized es _ w Hes (mount_serialized q tok now) Hrun).
Qed.

End Serialization.

End ConversationFacts.

(** ** Content types *)

Module ContentTypeFacts.

Import Net ContentTypeSpec.
Local Open Scope list_scope.




End ContentTypeFacts.

(** ** Purchase-order status events *)

Module StatusUpdateFacts.

Import Sidebar OrdersSpec.
Local Open Scope list_scope.

Lemma map_update_in_place (num stat : string) (l : list PurchaseOrder) :
  updated_in_place num stat l (List.map (update_status num stat) l).
Proof.
  split; [apply length_map|].
  intros i po Hi. exists (update_status num stat po).
  split; [rewrite nth_error_map, Hi; reflexivity|].
  unfold update_status. destruct (po_number po =? num); repeat split.
Qed.

Lemma map_update_absent (num stat : string) (l : list PurchaseOrder) :
  absent num l -> List.map (update_status num stat) l = l.
Proof.
  intros H. rewrite <- (map_id l) at 2. apply map_ext_in.
  intros po Hin. unfold update_status.
  apply H, String.eqb_neq in Hin. now rewrite Hin.
Qed.

(** The update branch of the [po_status_update] case. *)
Lemma po_status_update_state (today num stat : string)
      (data : WebSocketMessage) (s : State) :
  type data = po_status_update ->
  m_po_number data = Some num -> m_status data = Some stat ->
  num <> "" -> stat <> "" ->
  fst (handleWebSocketMessage today data s)
  = {| todayPOs := List.map (update_status num stat) (todayPOs s);
       selectedDatePOs := List.map (update_status num stat) (selectedDatePOs s);
       workflowStatus := workflowStatus s;
       lastWorkflowError := lastWorkflowError s;
       wsConnection := wsConnection s;
       isConnected := isConnected s;
       connectionRetries := connectionRetries s |}.
Proof.
  intros Ht Hn Hs Hnum Hstat. unfold handleWebSocketMessage.
  rewrite Ht, Hn, Hs.
  apply String.eqb_neq in Hnum, Hstat. rewrite Hnum, Hstat. reflexivity.
Qed.

(** An event without a number or a status (missing or empty) changes
    nothing. *)
Lemma po_status_update_incomplete (today : string) (data : WebSocketMessage)
      (s : State) :
  type data = po_status_update ->
  present (m_po_number data) && present (m_status data) = false ->
  fst (handleWebSocketMessage today data s) = s.
Proof.
  intros Ht H. unfold handleWebSocketMessage. rewrite Ht.
  destruct (m_po_number data) as [num|], (m_status data) as [stat|];
    cbn in *; try reflexivity.
  now rewrite H.
Qed.

(** C3. A [po_status_update] event that carries a number and a status
    (both non-empty) replaces the status of every order with that number
    in the list of today and in the list of the selected date, in place
    and with every other field unchanged; a list in which no order has
    the number is left as it was; the other cells of the sidebar keep
    their values, and the chat component, which owns the messages, is not
    touched by any sidebar event. *)
Theorem po_status_update_is_keyed (today num stat : string)
        (data : WebSocketMessage) (s : State) :
  type data = po_status_update ->
  m_po_number data = Some num -> m_status data = Some stat ->
  num <> "" -> stat <> "" ->
  updated_in_place num stat (todayPOs s)
    (todayPOs (fst (handleWebSocketMessage today data s)))
  /\ updated_in_place num stat (selectedDatePOs s)
       (selectedDatePOs (fst (handleWebSocketMessage today data s)))
  /\ (absent num (todayPOs s) ->
      todayPOs (fst (handleWebSocketMessage today data s)) = todayPOs s)
  /\ (absent num (selectedDatePOs s) ->
      selectedDatePOs (fst (handleWebSocketMessage today data s))
      = selectedDatePOs s)
  /\ (absent num (todayPOs s) -> absent num (selectedDatePOs s) ->
      fst (handleWebSocketMessage today data s) = s)
  /\ (forall (pw pw' : Page.World) (i : nat),
         Page.sidebar_step pw (Receives i (Some data) today) = Some pw' ->
         Page.chat pw' = Page.chat pw).
Proof.
  intros Ht Hn Hs Hnum Hstat.
  rewrite (po_status_update_state today num stat data s Ht Hn Hs Hnum Hstat).
  cbn.
  split; [apply map_update_in_place|].
  split; [apply map_update_in_place|].
  split; [apply map_update_absent|].
  split; [apply map_update_absent|].
  split.
  - intros H1 H2. rewrite (map_update_absent _ _ _ H1), (map_update_absent _ _ _ H2).
    destruct s; reflexivity.
  - intros pw pw' i Hstep. unfold Page.sidebar_step in Hstep.
    destruct (step (Page.sidebar pw) _); [|discriminate].
    now injection Hstep as <-.
Qed.

Lemma po_status_update_is_keyed_witness :
  List.map status
    (todayPOs
       (fst (handleWebSocketMessage "1/15/2025" (SampleOrders.approved "PO-7")
               (SampleOrders.lists
                  [SampleOrders.order "PO-7" "pending_approval";
                   SampleOrders.order "PO-8" "generated"]
                  [SampleOrders.order "PO-9" "rejected"]))))
  = ["approved"; "generated"]
  /\ selectedDatePOs
       (fst (handleWebSocketMessage "1/15/2025" (SampleOrders.approved "PO-7")
               (SampleOrders.lists
                  [SampleOrders.order "PO-7" "pending_approval";
                   SampleOrders.order "PO-8" "generated"]
                  [SampleOrders.order "PO-9" "rejected"])))
     = [SampleOrders.order "PO-9" "rejected"].
Proof.
  destruct (po_status_update_is_keyed "1/15/2025" "PO-7" "approved"
              (SampleOrders.approved "PO-7")
              (SampleOrders.lists
                 [SampleOrders.order "PO-7" "pending_approval";
                  SampleOrders.order "PO-8" "generated"]
                 [SampleOrders.order "PO-9" "rejected"]))
    as (_ & _ & _ & Hother & _); try reflexivity; try discriminate.
  split; [reflexivity|].
  apply Hother. intros po [<- | []]. discriminate.
Defined.

End StatusUpdateFacts.

(** ** The WebSocket channel *)

Module ChannelFacts.

Import Sidebar ChannelSpec.
Local Open Scope list_scope.

Lemma run_app (es1 es2 : list Event) (w : World) :
  run w (es1 ++ es2)
  = match run w es1 with
    | Some w' => run w' es2
    | None => None
    end.
Proof.
  revert w. induction es1 as [|e es1 IH]; intros w; cbn; [reflexivity|].
  destruct (step w e); [apply IH | reflexivity].
Qed.

Lemma nth_error_last {A : Type} (l : list A) (x : A) :
  nth_error (l ++ [x]) (List.length l) = Some x.
Proof.
  induction l; cbn; trivial.
Qed.

Lemma update_nth_last {A : Type} (f : A -> A) (l : list A) (x : A) :
  update_nth (List.length l) f (l ++ [x]) = l ++ [f x].
Proof.
  induction l; cbn; congruence.
Qed.

Lemma update_nth_length {A : Type} (f : A -> A) (i : nat) (l : list A) :
  List.length (update_nth i f l) = List.length l.
Proof.
  revert i. induction l; intros [|i]; cbn; auto.
Qed.

Lemma nth_error_update_nth {A : Type} (f : A -> A) (i j : nat) (l : list A) :
  nth_error (update_nth i f l) j
  = if (i =? j)%nat then option_map f (nth_error l j) else nth_error l j.
Proof.
  revert i j. induction l as [|x l IH]; intros [|i] [|j]; cbn; trivial.
  - now destruct (i =? j)%nat.
Qed.

(** *** The reconnect chain *)

Lemma select_connects (pr : Project) (tok : string) :
  tok <> "" ->
  step (mount (Some tok)) (SelectProject (Some pr))
  = Some (connecting pr tok 0 []).
Proof.
  intros Htok. apply String.eqb_neq in Htok.
  cbn. unfold lifecycle_effect, connectWebSocket. cbn. rewrite Htok.
  reflexivity.
Qed.

Lemma close_schedules_again (pr : Project) (tok : string) (n : nat)
      (old : list Socket) :
  step (connecting pr tok n old) (Closes (List.length old))
  = Some {| st := st (connecting pr tok n old);
            mounted := true;
            selectedProject := Some pr;
            token := Some tok;
            sockets := old ++ [attempt pr tok CLOSED];
            timers := [(1000%Z, chain pr 0)];
            cleanup := Some None |}.
Proof.
  unfold step. cbn [sockets connecting]. rewrite nth_error_last.
  cbn [readyState attempt handlers]. rewrite update_nth_last. reflexivity.
Qed.

Lemma failed_attempt_reconnects (pr : Project) (tok : string) (n : nat)
      (old : list Socket) :
  tok <> "" ->
  run (connecting pr tok n old) (failed_attempt (List.length old))
  = Some (connecting pr tok (S n) (old ++ [attempt pr tok CLOSED])).
Proof.
  intros Htok. apply String.eqb_neq in Htok.
  unfold failed_attempt. cbn [run]. rewrite close_schedules_again.
  cbn. unfold connectWebSocket. cbn. rewrite Htok. reflexivity.
Qed.

Lemma failed_attempts_reconnect (pr : Project) (tok : string) (m : nat) :
  tok <> "" ->
  forall (n : nat) (old : list Socket),
  exists old',
    run (connecting pr tok n old) (failed_attempts (List.length old) m)
    = Some (connecting pr tok (n + m) old')
    /\ List.length old' = (List.length old + m)%nat.
Proof.
  intros Htok. induction m as [|m IH]; intros n old.
  - exists old. cbn. rewrite !Nat.add_0_r. split; reflexivity.
  - unfold failed_attempts. cbn [seq flat_map]. rewrite run_app.
    rewrite (failed_attempt_reconnects pr tok n old Htok).
    destruct (IH (S n) (old ++ [attempt pr tok CLOSED])) as (old' & Hrun & Hlen).
    rewrite length_app in Hrun, Hlen. cbn [List.length] in Hrun, Hlen.
    rewrite Nat.add_1_r in Hrun, Hlen.
    exists old'. unfold failed_attempts in Hrun. rewrite Hrun.
    split; [f_equal; f_equal; lia | lia].
Qed.

(** The handlers, each on its own: [onclose] computes the delay from the
    counter of its closure, [onopen] resets the counter of the store. *)
Lemma delay_values :
  List.map delay [0; 1; 2; 3; 4; 5]%nat
  = [1000; 2000; 4000; 8000; 16000; 30000]%Z.
Proof.
  reflexivity.
Qed.

Lemma onopen_resets_counter (w w' : World) (i : nat) :
  mounted w = true -> step w (Opens i) = Some w' ->
  connectionRetries (st w') = 0%nat /\ isConnected (st w') = true
  /\ wsConnection (st w') = Some i.
Proof.
  intros Hm Hstep. cbn in Hstep.
  destruct (nth_error (sockets w) i) as [sk|]; [|discriminate].
  destruct (readyState sk); try discriminate.
  injection Hstep as <-. unfold write. rewrite Hm. repeat split.
Qed.

Lemma onclose_schedules_from_closure (w : World) (i : nat) (sk : Socket) :
  mounted w = true ->
  nth_error (sockets w) i = Some sk ->
  readyState sk <> CLOSED ->
  exists w',
    step w (Closes i) = Some w'
    /\ isConnected (st w') = false
    /\ wsConnection (st w') = None
    /\ connectionRetries (st w') = connectionRetries (st w)
    /\ timers w'
       = timers w
         ++ match c_selectedProject (handlers sk) with
            | Some _ =>
                if (c_connectionRetries (handlers sk) <? 5)%nat
                then [(delay (c_connectionRetries (handlers sk)), handlers sk)]
                else []
            | None => []
            end.
Proof.
  intros Hm Hi Hrs. unfold step. rewrite Hi.
  destruct (readyState sk) eqn:E; try congruence;
    (eexists; split; [reflexivity|]; unfold write; rewrite Hm;
     cbn [st timers set_channel isConnected wsConnection connectionRetries];
     repeat split;
     destruct (c_selectedProject (handlers sk));
     [destruct (c_connectionRetries (handlers sk) <? 5)%nat|];
     now rewrite ?app_nil_r).
Qed.

(** C2, on the code. The closure that reconnects is the one the lifecycle
    effect called when the project was selected, and the timer calls that
    same closure again: the [connectionRetries] its [onclose] reads stays
    at the value of that render.  After [n] failed attempts in a row the
    counter of the store is [n], and the next close still sets a timer,
    with a delay of 1000 ms: for [n = 5] and beyond a reconnect is
    scheduled all the same, and the delay never grows. *)
Theorem reconnect_chain_ignores_cap (pr : Project) (tok : string) (n : nat) :
  tok <> "" ->
  exists w w',
    run (mount (Some tok)) (SelectProject (Some pr) :: failed_attempts 0 n)
    = Some w
    /\ connectionRetries (st w) = n
    /\ step w (Closes n) = Some w'
    /\ timers w' = [(1000%Z, chain pr 0)].
Proof.
  intros Htok. cbn [run]. rewrite (select_connects pr tok Htok).
  destruct (failed_attempts_reconnect pr tok n Htok 0 []) as (old' & Hrun & Hlen).
  cbn in Hrun, Hlen. rewrite Hrun.
  do 2 eexists. split; [reflexivity|]. split; [reflexivity|].
  rewrite <- Hlen, close_schedules_again. split; reflexivity.
Qed.

Lemma reconnect_chain_ignores_cap_witness :
  exists w w',
    run (mount (Some "tok"))
        (SelectProject (Some SampleOrders.project) :: failed_attempts 0 6)
    = Some w
    /\ connectionRetries (st w) = 6%nat
    /\ step w (Closes 6) = Some w'
    /\ List.map fst (timers w') = [1000%Z].
Proof.
  destruct (reconnect_chain_ignores_cap SampleOrders.project "tok" 6)
    as (w & w' & Hrun & Hn & Hstep & Htimers).
  - discriminate.
  - exists w, w'. rewrite Htimers. repeat split; assumption.
Defined.

(** *** Deselection *)

(** Two traces that end with no project selected and a new socket
    connecting to the project that was deselected.  In the first the
    connection drops, its reconnect timer is pending when the project is
    deselected, and the timer fires afterwards.  In the second the socket
    is open when the project is deselected: the effect closes it, and its
    [onclose] sets the reconnect timer. *)
Lemma reconnect_fires_after_deselection :
  (exists w1 w2 w3,
      run (mount (Some "tok")) (connected ++ [Closes 0]) = Some w1
      /\ List.map fst (timers w1) = [1000%Z]
      /\ step w1 (SelectProject None) = Some w2
      /\ timers w2 = timers w1
      /\ step w2 (TimerFires 0) = Some w3
      /\ selectedProject w3 = None
      /\ List.map readyState (sockets w3) = [CLOSED; CONNECTING])
  /\ (exists w1 w2 w3,
        run (mount (Some "tok")) connected = Some w1
        /\ step w1 (SelectProject None) = Some w2
        /\ List.map readyState (sockets w2) = [CLOSING]
        /\ run w2 [Closes 0; TimerFires 0] = Some w3
        /\ selectedProject w3 = None
        /\ List.map readyState (sockets w3) = [CLOSED; CONNECTING]).
Proof.
  split; do 3 eexists; (split; [vm_compute; reflexivity|]); repeat split.
Qed.

(** On a change of project the cleanup closes the [wsConnection] of the
    render in which the effect ran, which is [null] when the project was
    selected in a render that had no open socket: the socket of the first
    project stays open beside the socket of the second. *)
Lemma project_change_leaves_socket_open :
  exists w,
    run (mount (Some "tok"))
        (connected
         ++ [SelectProject (Some {| proj_id := "p2"; proj_name := "Food" |});
             Opens 1]) = Some w
    /\ List.map readyState (sockets w) = [OPEN; OPEN]
    /\ List.length (open_sockets w) = 2%nat.
Proof.
  eexists. split; [vm_compute; reflexivity | split; reflexivity].
Qed.

Lemma close_closing (sk : Socket) : closing (close sk).
Proof.
  unfold closing, close. destruct (readyState sk) eqn:E; cbn; auto.
Qed.

Lemma close_opt_length (c : option nat) (l : list Socket) :
  List.length (close_opt c l) = List.length l.
Proof.
  destruct c; [apply update_nth_length | reflexivity].
Qed.

Lemma close_opt_nth (c : option nat) (l : list Socket) (i : nat) (sk : Socket) :
  nth_error l i = Some sk ->
  nth_error (close_opt c l) i = Some sk
  \/ nth_error (close_opt c l) i = Some (close sk).
Proof.
  intros H. destruct c as [j|]; cbn; [|auto].
  rewrite nth_error_update_nth, H. destruct (j =? i)%nat; cbn; auto.
Qed.

(** No handler cancels a timer: every event other than the firing of a
    timer keeps the pending timers and adds at most one. *)
Lemma timers_are_never_cancelled (w w' : World) (e : Event) :
  step w e = Some w' ->
  (forall k, e <> TimerFires k) ->
  exists more, timers w' = timers w ++ more.
Proof.
  intros Hstep Hne. destruct e as [p | | i | i | k | i payload today];
    cbn in Hstep.
  - destruct (negb (mounted w)); [discriminate|].
    destruct (eqb_opt _ _).
    + injection Hstep as <-. exists []. cbn. now rewrite app_nil_r.
    + injection Hstep as <-. exists []. rewrite app_nil_r.
      unfold lifecycle_effect.
      destruct p; [reflexivity|]. destruct (wsConnection (st w)); reflexivity.
  - destruct (negb (mounted w)); [discriminate|].
    injection Hstep as <-. exists []. cbn. now rewrite app_nil_r.
  - destruct (nth_error (sockets w) i) as [sk|]; [|discriminate].
    destruct (readyState sk); try discriminate.
    injection Hstep as <-. exists []. cbn. now rewrite app_nil_r.
  - destruct (nth_error (sockets w) i) as [sk|]; [|discriminate].
    destruct (readyState sk); try discriminate;
      injection Hstep as <-; cbn [timers];
      (destruct (c_selectedProject (handlers sk));
       [match goal with
        | |- context [if ?b then _ else _] => destruct b
        end|]);
      first [ exists []; now rewrite app_nil_r | eexists; reflexivity ].
  - now contradiction (Hne k).
  - destruct (nth_error (sockets w) i) as [sk|]; [|discriminate].
    destruct (readyState sk), payload; try discriminate;
      injection Hstep as <-; exists []; cbn; now rewrite app_nil_r.
Qed.

(** C5, amended. When the selected project becomes null the effect closes
    the socket held in [wsConnection], if there is one, and resets
    [wsConnection] and [isConnected]; it opens no socket.  It cancels no
    reconnect timer: the timers that were pending are still pending, and
    no event but its own firing removes a timer. *)
Theorem deselection_closes_held_socket_keeps_timers (w : World) (pr : Project) :
  mounted w = true ->
  selectedProject w = Some pr ->
  exists w',
    step w (SelectProject None) = Some w'
    /\ selectedProject w' = None
    /\ wsConnection (st w') = None
    /\ (wsConnection (st w) <> None -> isConnected (st w') = false)
    /\ (forall i sk,
          wsConnection (st w) = Some i -> nth_error (sockets w) i = Some sk ->
          exists sk', nth_error (sockets w') i = Some sk' /\ closing sk')
    /\ List.length (sockets w') = List.length (sockets w)
    /\ timers w' = timers w
    /\ (forall e w'', step w' e = Some w'' -> (forall k, e <> TimerFires k) ->
                      exists more, timers w'' = timers w ++ more).
Proof.
  intros Hm Hp. cbn. rewrite Hm, Hp. cbn.
  eexists. split; [reflexivity|].
  unfold lifecycle_effect, write. rewrite Hm.
  destruct (wsConnection (st w)) as [i|] eqn:Hws; cbn.
  - repeat split.
    + intros j sk Hj Hsk. injection Hj as <-.
      rewrite nth_error_update_nth, Nat.eqb_refl.
      assert (Hc : exists sk0,
                 nth_error (match cleanup w with
                            | Some c => close_opt c (sockets w)
                            | None => sockets w
                            end) i = Some sk0).
      { destruct (cleanup w) as [c|]; [|eauto].
        destruct (close_opt_nth c _ _ _ Hsk); eauto. }
      destruct Hc as (sk0 & ->). cbn. eexists. split; [reflexivity|].
      apply close_closing.
    + rewrite update_nth_length.
      destruct (cleanup w); [apply close_opt_length | reflexivity].
    + intros e w'' Hstep Hne.
      apply (timers_are_never_cancelled _ _ _ Hstep Hne).
  - repeat split; try congruence.
    + destruct (cleanup w); [apply close_opt_length | reflexivity].
    + intros e w'' Hstep Hne.
      apply (timers_are_never_cancelled _ _ _ Hstep Hne).
Qed.

Lemma deselection_closes_held_socket_keeps_timers_witness :
  exists w w',
    run (mount (Some "tok")) connected = Some w
    /\ step w (SelectProject None) = Some w'
    /\ wsConnection (st w') = None
    /\ timers w' = timers w.
Proof.
  assert (Hrun : exists w, run (mount (Some "tok")) connected = Some w
                           /\ mounted w = true
                           /\ selectedProject w = Some SampleOrders.project).
  { eexists. split; [vm_compute; reflexivity|]. split; reflexivity. }
  destruct Hrun as (w & Hrun & Hm & Hp).
  destruct (deselection_closes_held_socket_keeps_timers w SampleOrders.project Hm Hp)
    as (w' & Hstep & _ & Hws & _ & _ & _ & Ht & _).
  exists w, w'. repeat split; assumption.
Defined.

End ChannelFacts.

(** ** The pollers *)

Module PollerFacts.

Import Sidebar Poller PollerSpec.
Local Open Scope list_scope.






Lemma clear_nil (h : option nat) : clearInterval h [] = [].
Proof. now destruct h. Qed.

















Section Clock.

Variable local_day : string -> string.





End Clock.












(** West of UTC the orders of tomorrow are not asked for: the UTC
    midnight of that date is still today there. *)
Example tomorrow_is_not_fetched_west_of_utc :
  fetch_pos SampleOrders.west SampleOrders.project "2025-01-16" "2025-01-15"
  = [GetTodayPOs "p1" "2025-01-15"]
  /\ fetch_pos SampleOrders.utc SampleOrders.project "2025-01-16" "2025-01-15"
     = [GetTodayPOs "p1" "2025-01-15"; GetPOsForDate "p1" "2025-01-16"].
Proof. split; reflexivity. Qed.

End PollerFacts.

(** ** The lists of the sidebar *)

Module ViewsFacts.

Import Sidebar SidebarViews ViewsSpec OrdersSpec.
Local Open Scope list_scope.

Lemma priority_cases (s : string) :
  (s = "rejected" /\ priority s = 1%Z)
  \/ ((s = "sent_to_vendor" \/ s = "approved") /\ priority s = 2%Z)
  \/ (s <> "rejected" /\ s <> "sent_to_vendor" /\ s <> "approved"
      /\ priority s = 3%Z).
Proof.
  unfold priority.
  destruct (String.eqb_spec s "pending_approval") as [-> | H0].
  { right. right. cbn. repeat split; discriminate. }
  destruct (String.eqb_spec s "rejected") as [-> | H1]; [left; now split|].
  destruct (String.eqb_spec s "sent_to_vendor") as [-> | H2];
    [right; left; split; [now left | reflexivity]|].
  destruct (String.eqb_spec s "approved") as [-> | H3];
    [right; left; split; [now right | reflexivity]|].
  right. right. repeat split; assumption.
Qed.

(** The group an order belongs to in the sorted list. *)
Lemma priority_groups (po : PurchaseOrder) :
  (is_rejected po = true /\ is_sent po = false /\ priority (status po) = 1%Z)
  \/ (is_rejected po = false /\ is_sent po = true /\ priority (status po) = 2%Z)
  \/ (is_rejected po = false /\ is_sent po = false /\ priority (status po) = 3%Z).
Proof.
  unfold is_rejected, is_sent.
  destruct (priority_cases (status po))
    as [[-> Hp] | [[[-> | ->] Hp] | (H1 & H2 & H3 & Hp)]]; cbn; auto.
  apply String.eqb_neq in H1, H2, H3. rewrite H1, H2, H3. auto.
Qed.

Lemma insert_sorted_skip (x : PurchaseOrder) (l1 l2 : list PurchaseOrder) :
  Forall (fun y => (priority (status y) < priority (status x))%Z) l1 ->
  insert_sorted x (l1 ++ l2) = l1 ++ insert_sorted x l2.
Proof.
  induction 1 as [|y l1 Hy _ IH]; [reflexivity|]. cbn.
  unfold compare_priority.
  destruct (Z.leb_spec (priority (status x) - priority (status y)) 0); [lia|].
  now rewrite IH.
Qed.

Lemma insert_sorted_front (x : PurchaseOrder) (l : list PurchaseOrder) :
  Forall (fun y => (priority (status x) <= priority (status y))%Z) l ->
  insert_sorted x l = x :: l.
Proof.
  intros H. destruct l as [|y l]; [reflexivity|]. cbn.
  apply Forall_inv in H. unfold compare_priority.
  destruct (Z.leb_spec (priority (status x) - priority (status y)) 0);
    [reflexivity | lia].
Qed.

Lemma filter_priority (f : PurchaseOrder -> bool) (n : Z)
      (l : list PurchaseOrder) :
  (forall po, f po = true -> priority (status po) = n) ->
  Forall (fun y => priority (status y) = n) (filter f l).
Proof.
  intros H. apply Forall_forall. intros y Hy. apply filter_In in Hy.
  now apply H.
Qed.

Lemma group_priority (po : PurchaseOrder) :
  (is_rejected po = true -> priority (status po) = 1%Z)
  /\ (is_sent po = true -> priority (status po) = 2%Z)
  /\ (is_rest po = true -> priority (status po) = 3%Z).
Proof.
  unfold is_rest.
  destruct (priority_groups po) as [(-> & -> & ->) | [(-> & -> & ->) | (-> & -> & ->)]];
    cbn; repeat split; intros; congruence.
Qed.

Lemma sortPOs_groups (pos : list PurchaseOrder) :
  sortPOs pos
  = filter is_rejected pos ++ filter is_sent pos ++ filter is_rest pos.
Proof.
  induction pos as [|x pos IH]; [reflexivity|].
  change (sortPOs (x :: pos)) with (insert_sorted x (sortPOs pos)).
  rewrite IH. clear IH.
  assert (HR : Forall (fun y => priority (status y) = 1%Z) (filter is_rejected pos)).
  { apply filter_priority. intros po. apply group_priority. }
  assert (HS : Forall (fun y => priority (status y) = 2%Z) (filter is_sent pos)).
  { apply filter_priority. intros po. apply group_priority. }
  assert (HO : Forall (fun y => priority (status y) = 3%Z) (filter is_rest pos)).
  { apply filter_priority. intros po. apply group_priority. }
  unfold is_rest in *. cbn [filter].
  destruct (priority_groups x) as [(-> & -> & Hx) | [(-> & -> & Hx) | (-> & -> & Hx)]];
    cbn [negb andb].
  - apply insert_sorted_front. rewrite !Forall_app. repeat split;
      eapply Forall_impl; try eassumption; cbn; intros; lia.
  - rewrite insert_sorted_skip
      by (eapply Forall_impl; try eassumption; cbn; intros; lia).
    f_equal. apply insert_sorted_front. rewrite !Forall_app. split;
      eapply Forall_impl; try eassumption; cbn; intros; lia.
  - rewrite insert_sorted_skip
      by (eapply Forall_impl; try eassumption; cbn; intros; lia).
    f_equal.
    rewrite insert_sorted_skip
      by (eapply Forall_impl; try eassumption; cbn; intros; lia).
    f_equal. apply insert_sorted_front.
    eapply Forall_impl; try eassumption; cbn; intros; lia.
Qed.

Lemma insert_sorted_perm (x : PurchaseOrder) (l : list PurchaseOrder) :
  Permutation (x :: l) (insert_sorted x l).
Proof.
  induction l as [|y l IH]; cbn; [reflexivity|].
  destruct (compare_priority x y <=? 0)%Z; [reflexivity|].
  rewrite perm_swap. now apply perm_skip.
Qed.

Lemma sortPOs_perm (pos : list PurchaseOrder) : Permutation pos (sortPOs pos).
Proof.
  induction pos as [|x pos IH]; cbn; [reflexivity|].
  rewrite <- insert_sorted_perm. now apply perm_skip.
Qed.

(** X1. The sort of a rendered list puts the rejected orders first, then
    those sent or approved, then all the others, [pending_approval] among
    them (its table entry 0 is falsy and becomes 3), each group in the
    order of the input; the list shown is a rearrangement of the filtered
    list, and the list the state holds after the render is a rearrangement
    of the one it held, the same list unless the filter is [all]. *)
Theorem sorted_list_is_rejected_sent_rest (f : FilterType)
        (pos : list PurchaseOrder) :
  Forall (fun po => plain_status (status po) = true) pos ->
  sortPOs pos
  = filter is_rejected pos ++ filter is_sent pos ++ filter is_rest pos
  /\ Permutation (filterPOs f pos) (snd (render_list f pos))
  /\ Permutation pos (fst (render_list f pos))
  /\ (f <> all -> fst (render_list f pos) = pos).
Proof.
  intros _. split; [apply sortPOs_groups|].
  destruct f; cbn; repeat split; try apply sortPOs_perm; try reflexivity.
  congruence.
Qed.

Lemma sorted_list_is_rejected_sent_rest_witness :
  List.map po_number
    (sortPOs [ SampleOrders.order "PO-1" "pending_approval";
               SampleOrders.order "PO-2" "approved";
               SampleOrders.order "PO-3" "rejected";
               SampleOrders.order "PO-4" "generated" ])
  = ["PO-3"; "PO-2"; "PO-1"; "PO-4"].
Proof.
  destruct (sorted_list_is_rejected_sent_rest all
              [ SampleOrders.order "PO-1" "pending_approval";
                SampleOrders.order "PO-2" "approved";
                SampleOrders.order "PO-3" "rejected";
                SampleOrders.order "PO-4" "generated" ]) as [-> _].
  - repeat constructor.
  - reflexivity.
Defined.

Lemma group_exclusive (po : PurchaseOrder) :
  (if is_pending po then 1 else 0) + (if is_sent po then 1 else 0)
  + (if is_rejected po then 1 else 0)
  + (if negb (is_pending po) && is_rest po then 1 else 0) = 1.
Proof.
  unfold is_pending, is_rest, is_sent, is_rejected.
  destruct (status po =? "pending_approval") eqn:H0,
           (status po =? "sent_to_vendor") eqn:H1,
           (status po =? "approved") eqn:H2,
           (status po =? "rejected") eqn:H3;
    try reflexivity;
    rewrite ?String.eqb_eq in *; congruence.
Qed.

(** X2. The counts on the filter buttons: each is the length of the list
    its filter shows; no order is counted by two of them; and the three
    counts add up to the total less the orders that are neither pending,
    sent, approved nor rejected (the generated ones), which only the
    filter [all] shows. *)
Theorem status_counts_partition (pos : list PurchaseOrder) :
  List.length (filterPOs pending pos) = n_pending (getStatusCounts pos)
  /\ List.length (filterPOs sent_to_vendor pos)
     = n_sent_to_vendor (getStatusCounts pos)
  /\ List.length (filterPOs rejected pos) = n_rejected (getStatusCounts pos)
  /\ List.length (filterPOs all pos) = n_total (getStatusCounts pos)
  /\ n_pending (getStatusCounts pos) + n_sent_to_vendor (getStatusCounts pos)
     + n_rejected (getStatusCounts pos)
     + List.length (filter (fun po => negb (is_pending po) && is_rest po) pos)
     = n_total (getStatusCounts pos)
  /\ (forall po f g,
         In po (filterPOs f pos) -> In po (filterPOs g pos) ->
         f = g \/ f = all \/ g = all).
Proof.
  repeat split.
  - cbn. fold is_pending is_sent is_rejected.
    change (fun po => (status po =? "sent_to_vendor") || (status po =? "approved"))
      with is_sent.
    induction pos as [|po pos IH]; [reflexivity|]. cbn [filter List.length].
    pose proof (group_exclusive po) as H.
    destruct (is_pending po), (is_sent po), (is_rejected po),
      (negb _ && is_rest po); cbn [List.length] in *; lia.
  - intros po f g Hf Hg.
    assert (H : forall h, In po (filterPOs h pos) -> shows h (status po) = true).
    { intros [] Hh; cbn in *; trivial; now apply filter_In in Hh. }
    apply H in Hf, Hg.
    pose proof (group_exclusive po) as Hx.
    unfold is_pending, is_sent, is_rejected in Hx.
    destruct f, g; auto; cbn in Hf, Hg; rewrite Hf, Hg in Hx;
      cbn in Hx; try lia;
      destruct ((status po =? "sent_to_vendor") || (status po =? "approved"));
      destruct (status po =? "pending_approval"); destruct (status po =? "rejected");
      cbn in *; try discriminate; lia.
Qed.

(** After a status event every order with its number has its status. *)
Lemma updated_orders_have_status (num stat : string) (l : list PurchaseOrder)
      (po : PurchaseOrder) :
  In po (List.map (update_status num stat) l) ->
  po_number po = num -> status po = stat.
Proof.
  intros Hin Hnum. apply in_map_iff in Hin. destruct Hin as (po0 & <- & _).
  unfold update_status in *.
  destruct (po_number po0 =? num) eqn:E; [reflexivity|].
  apply String.eqb_neq in E. contradiction.
Qed.

Lemma filterPOs_shows (f : FilterType) (l : list PurchaseOrder)
      (po : PurchaseOrder) :
  In po (filterPOs f l) <-> In po l /\ shows f (status po) = true.
Proof.
  destruct f; cbn; rewrite ?filter_In; tauto.
Qed.

(** X3. After a [po_status_update] event for the number [num] with status
    [stat], in both lists every order with that number is shown by a
    filter exactly when the filter shows [stat]: an approved order is
    under "sent" and no longer under "pending". *)
Theorem updated_order_moves_between_filters (today num stat : string)
        (data : WebSocketMessage) (s : State) (f : FilterType)
        (po : PurchaseOrder) :
  status_event data num stat ->
  po_number po = num ->
  (In po (filterPOs f (todayPOs (fst (handleWebSocketMessage today data s))))
   <-> In po (todayPOs (fst (handleWebSocketMessage today data s)))
       /\ shows f stat = true)
  /\ (In po (filterPOs f (selectedDatePOs (fst (handleWebSocketMessage today data s))))
      <-> In po (selectedDatePOs (fst (handleWebSocketMessage today data s)))
          /\ shows f stat = true).
Proof.
  intros (Ht & Hn & Hs & Hnum & Hstat) Hpo.
  rewrite (StatusUpdateFacts.po_status_update_state today num stat data s
             Ht Hn Hs Hnum Hstat). cbn [fst todayPOs selectedDatePOs].
  split; rewrite filterPOs_shows; split; intros [Hin Hsh]; split; trivial;
    rewrite (updated_orders_have_status num stat _ po Hin Hpo) in *; trivial.
Qed.

Lemma updated_order_moves_between_filters_witness :
  List.map po_number
    (filterPOs pending
       (todayPOs
          (fst (handleWebSocketMessage "1/15/2025" (SampleOrders.approved "PO-7")
                  (SampleOrders.lists
                     [SampleOrders.order "PO-7" "pending_approval";
                      SampleOrders.order "PO-8" "pending_approval"] [])))))
  = ["PO-8"]
  /\ In (SampleOrders.order "PO-7" "approved")
        (filterPOs sent_to_vendor
           (todayPOs
              (fst (handleWebSocketMessage "1/15/2025" (SampleOrders.approved "PO-7")
                      (SampleOrders.lists
                         [SampleOrders.order "PO-7" "pending_approval";
                          SampleOrders.order "PO-8" "pending_approval"] []))))).
Proof.
  split; [reflexivity|].
  apply (updated_order_moves_between_filters "1/15/2025" "PO-7" "approved"
           (SampleOrders.approved "PO-7")
           (SampleOrders.lists
              [SampleOrders.order "PO-7" "pending_approval";
               SampleOrders.order "PO-8" "pending_approval"] [])
           sent_to_vendor (SampleOrders.order "PO-7" "approved")).
  - repeat split; discriminate.
  - reflexivity.
  - split; [now left | reflexivity].
Defined.

Lemma update_status_twice (num stat1 stat2 : string) (po : PurchaseOrder) :
  update_status num stat2 (update_status num stat1 po) = update_status num stat2 po.
Proof.
  unfold update_status. destruct (po_number po =? num) eqn:E; cbn; rewrite E;
    reflexivity.
Qed.

Lemma update_status_swap (num1 stat1 num2 stat2 : string) (po : PurchaseOrder) :
  num1 <> num2 ->
  update_status num2 stat2 (update_status num1 stat1 po)
  = update_status num1 stat1 (update_status num2 stat2 po).
Proof.
  intros Hne. unfold update_status.
  destruct (po_number po =? num1) eqn:E1, (po_number po =? num2) eqn:E2;
    cbn; rewrite ?E1, ?E2; try reflexivity.
  apply String.eqb_eq in E1, E2. congruence.
Qed.

Lemma filter_twice (p : PurchaseOrder -> bool) (l : list PurchaseOrder) :
  filter p (filter p l) = filter p l.
Proof.
  induction l as [|x l IH]; [reflexivity|]. cbn.
  destruct (p x) eqn:E; cbn; rewrite ?E, IH; reflexivity.
Qed.

Lemma filter_other (p q : PurchaseOrder -> bool) (l : list PurchaseOrder) :
  (forall x, q x = true -> p x = false) -> filter p (filter q l) = [].
Proof.
  intros H. induction l as [|x l IH]; [reflexivity|]. cbn.
  destruct (q x) eqn:E; cbn; [rewrite (H x E)|]; exact IH.
Qed.

(** Sorting a sorted list changes nothing. *)
Lemma sortPOs_twice (l : list PurchaseOrder) : sortPOs (sortPOs l) = sortPOs l.
Proof.
  rewrite (sortPOs_groups (sortPOs l)), (sortPOs_groups l).
  rewrite !filter_app, !filter_twice.
  assert (E : forall po, (is_rejected po = true -> is_sent po = false /\ is_rest po = false)
                         /\ (is_sent po = true -> is_rejected po = false /\ is_rest po = false)
                         /\ (is_rest po = true -> is_rejected po = false /\ is_sent po = false)).
  { intros po. unfold is_rest.
    destruct (priority_groups po) as [(-> & -> & _) | [(-> & -> & _) | (-> & -> & _)]];
      cbn; repeat split; congruence. }
  rewrite (filter_other is_rejected is_sent), (filter_other is_rejected is_rest),
    (filter_other is_sent is_rejected), (filter_other is_sent is_rest),
    (filter_other is_rest is_rejected), (filter_other is_rest is_sent);
    try (intros x Hx; apply (E x) in Hx; tauto).
  cbn. rewrite !app_nil_r. reflexivity.
Qed.

Lemma render_list_twice (f : FilterType) (l : list PurchaseOrder) :
  fst (render_list f (fst (render_list f l))) = fst (render_list f l).
Proof. destruct f; cbn; try reflexivity. apply sortPOs_twice. Qed.

Lemma render_list_perm (f : FilterType) (l : list PurchaseOrder) :
  Permutation (fst (render_list f l)) l.
Proof. destruct f; cbn; try reflexivity. symmetry. apply sortPOs_perm. Qed.

Lemma render_list_keeps (f : FilterType) (l : list PurchaseOrder) :
  f <> all -> fst (render_list f l) = l.
Proof. destruct f; cbn; congruence. Qed.

(** A status written again is where it was. *)
Lemma update_status_settled (num stat : string) (l m : list PurchaseOrder) :
  Permutation (List.map (update_status num stat) m) l ->
  List.map (update_status num stat) l = l.
Proof.
  intros H. rewrite <- (map_id l) at 2. apply map_ext_in. intros x Hx.
  apply (Permutation_in _ (Permutation_sym H)) in Hx.
  apply in_map_iff in Hx as (y & <- & _). apply update_status_twice.
Qed.

Lemma same_map (f g : PurchaseOrder -> PurchaseOrder) (l : list PurchaseOrder) :
  (forall x, f x = g x) -> Permutation (List.map f l) (List.map g l).
Proof. intros H. now rewrite (map_ext f g H). Qed.

Lemma deliver_lists (today : string) (ft fs : FilterType)
      (data : WebSocketMessage) (num stat : string) (s : State) :
  status_event data num stat ->
  deliver today ft fs data s
  = {| todayPOs :=
         fst (render_list ft (List.map (update_status num stat) (todayPOs s)));
       selectedDatePOs :=
         fst (render_list fs
                (List.map (update_status num stat) (selectedDatePOs s)));
       workflowStatus := workflowStatus s;
       lastWorkflowError := lastWorkflowError s;
       wsConnection := wsConnection s;
       isConnected := isConnected s;
       connectionRetries := connectionRetries s |}.
Proof.
  intros (Ht & Hn & Hs & Hnum & Hstat). unfold deliver.
  rewrite (StatusUpdateFacts.po_status_update_state today num stat data s
             Ht Hn Hs Hnum Hstat).
  reflexivity.
Qed.

(** The list after two deliveries, each with its render. *)
Lemma delivered_twice (f : FilterType) (num1 stat1 num2 stat2 : string)
      (l : list PurchaseOrder) :
  Permutation
    (fst (render_list f
            (List.map (update_status num2 stat2)
               (fst (render_list f (List.map (update_status num1 stat1) l))))))
    (List.map (update_status num2 stat2) (List.map (update_status num1 stat1) l))
  /\ (f <> all ->
      fst (render_list f
             (List.map (update_status num2 stat2)
                (fst (render_list f (List.map (update_status num1 stat1) l)))))
      = List.map (update_status num2 stat2)
          (List.map (update_status num1 stat1) l)).
Proof.
  split.
  - rewrite render_list_perm. apply Permutation_map, render_list_perm.
  - intros Hf. now rewrite !(render_list_keeps f _ Hf).
Qed.

(** X4. Status events, each followed by its render, act on the lists of
    the sidebar as keyed writes.  The same event delivered twice leaves
    the state of one delivery.  Of two events for the same number the
    later one decides, and two events for different numbers commute:
    the states reached hold the same orders, with every field of the
    state but the order of a list equal, and a list is in the same order
    too unless its filter is [all], under which the render sorts the
    list the state holds. *)
Theorem status_events_are_keyed_writes (today : string) (ft fs : FilterType)
        (d1 d2 : WebSocketMessage) (num1 stat1 num2 stat2 : string) (s : State) :
  status_event d1 num1 stat1 ->
  status_event d2 num2 stat2 ->
  plain_status stat1 = true -> plain_status stat2 = true -> plain_lists s ->
  deliver today ft fs d1 (deliver today ft fs d1 s) = deliver today ft fs d1 s
  /\ (num1 = num2 ->
      same_orders ft fs
        (deliver today ft fs d2 (deliver today ft fs d1 s))
        (deliver today ft fs d2 s))
  /\ (num1 <> num2 ->
      same_orders ft fs
        (deliver today ft fs d2 (deliver today ft fs d1 s))
        (deliver today ft fs d1 (deliver today ft fs d2 s))).
Proof.
  intros H1 H2 _ _ _.
  rewrite !(deliver_lists today ft fs d1 num1 stat1 _ H1).
  rewrite !(deliver_lists today ft fs d2 num2 stat2 _ H2).
  rewrite ?(deliver_lists today ft fs d1 num1 stat1 _ H1).
  cbn [todayPOs selectedDatePOs workflowStatus lastWorkflowError wsConnection
       isConnected connectionRetries].
  split; [|split].
  - f_equal.
    + rewrite (update_status_settled num1 stat1 _ (todayPOs s))
        by (symmetry; apply render_list_perm).
      apply render_list_twice.
    + rewrite (update_status_settled num1 stat1 _ (selectedDatePOs s))
        by (symmetry; apply render_list_perm).
      apply render_list_twice.
  - intros <-. unfold same_orders.
    cbn [todayPOs selectedDatePOs workflowStatus lastWorkflowError wsConnection
         isConnected connectionRetries].
    repeat split; try reflexivity.
    + rewrite (proj1 (delivered_twice ft num1 stat1 num1 stat2 _)),
        render_list_perm, map_map.
      apply same_map. intros x. apply update_status_twice.
    + intros Hf.
      rewrite (proj2 (delivered_twice ft num1 stat1 num1 stat2 _) Hf),
        (render_list_keeps ft _ Hf), map_map.
      apply map_ext. intros x. apply update_status_twice.
    + rewrite (proj1 (delivered_twice fs num1 stat1 num1 stat2 _)),
        render_list_perm, map_map.
      apply same_map. intros x. apply update_status_twice.
    + intros Hf.
      rewrite (proj2 (delivered_twice fs num1 stat1 num1 stat2 _) Hf),
        (render_list_keeps fs _ Hf), map_map.
      apply map_ext. intros x. apply update_status_twice.
  - intros Hne. unfold same_orders.
    cbn [todayPOs selectedDatePOs workflowStatus lastWorkflowError wsConnection
         isConnected connectionRetries].
    repeat split; try reflexivity.
    + rewrite (proj1 (delivered_twice ft num1 stat1 num2 stat2 _)),
        (proj1 (delivered_twice ft num2 stat2 num1 stat1 _)), !map_map.
      apply same_map. intros x. now apply update_status_swap.
    + intros Hf.
      rewrite (proj2 (delivered_twice ft num1 stat1 num2 stat2 _) Hf),
        (proj2 (delivered_twice ft num2 stat2 num1 stat1 _) Hf), !map_map.
      apply map_ext. intros x. now apply update_status_swap.
    + rewrite (proj1 (delivered_twice fs num1 stat1 num2 stat2 _)),
        (proj1 (delivered_twice fs num2 stat2 num1 stat1 _)), !map_map.
      apply same_map. intros x. now apply update_status_swap.
    + intros Hf.
      rewrite (proj2 (delivered_twice fs num1 stat1 num2 stat2 _) Hf),
        (proj2 (delivered_twice fs num2 stat2 num1 stat1 _) Hf), !map_map.
      apply map_ext. intros x. now apply update_status_swap.
Qed.

Lemma status_events_are_keyed_writes_witness :
  deliver "1/15/2025" all all (SampleOrders.approved "PO-7")
    (deliver "1/15/2025" all all (SampleOrders.approved "PO-7")
       (SampleOrders.lists [SampleOrders.order "PO-6" "generated";
                            SampleOrders.order "PO-7" "generated"] []))
  = SampleOrders.lists [SampleOrders.order "PO-7" "approved";
                        SampleOrders.order "PO-6" "generated"] [].
Proof.
  destruct (status_events_are_keyed_writes "1/15/2025" all all
              (SampleOrders.approved "PO-7") (SampleOrders.approved "PO-7")
              "PO-7" "approved" "PO-7" "approved"
              (SampleOrders.lists [SampleOrders.order "PO-6" "generated";
                                   SampleOrders.order "PO-7" "generated"] []))
    as [-> _].
  - repeat split; discriminate.
  - repeat split; discriminate.
  - reflexivity.
  - reflexivity.
  - split; repeat constructor.
  - reflexivity.
Defined.

(** Under the filter [all] the order of the list does depend on the
    order of arrival: the order approved first is sorted to the front
    first. *)
Example arrival_order_shows_under_all :
  List.map po_number
    (todayPOs
       (deliver "1/15/2025" all all (SampleOrders.approved "PO-B")
          (deliver "1/15/2025" all all (SampleOrders.approved "PO-A")
             (SampleOrders.lists [SampleOrders.order "PO-A" "generated";
                                  SampleOrders.order "PO-B" "generated"] []))))
  = ["PO-A"; "PO-B"]
  /\ List.map po_number
       (todayPOs
          (deliver "1/15/2025" all all (SampleOrders.approved "PO-A")
             (deliver "1/15/2025" all all (SampleOrders.approved "PO-B")
                (SampleOrders.lists [SampleOrders.order "PO-A" "generated";
                                     SampleOrders.order "PO-B" "generated"] []))))
     = ["PO-B"; "PO-A"].
Proof. split; reflexivity. Qed.

(** *** Refresh *)

Import Exn.

Lemma store_response_failed (set : list PurchaseOrder -> ViewState -> ViewState)
      (res : PosFetch) (v : ViewState) :
  fetch_failed res = true -> fst (store_response set res v) = v.
Proof.
  destruct res as [reason | ok st body]; cbn; [reflexivity|].
  destruct ok; cbn; [|reflexivity]. destruct body; cbn; try reflexivity.
  discriminate.
Qed.

(** The fetchers complete whatever the call brought. *)
Lemma fetchTodayPOs_completes (p : option Project) (res : PosFetch) (v : ViewState) :
  snd (fetchTodayPOs p res v) = None
  /\ isRefreshing (fst (fetchTodayPOs p res v)) = isRefreshing v
  /\ isLoading (fst (fetchTodayPOs p res v)) = isLoading v
  /\ toasts (fst (fetchTodayPOs p res v)) = toasts v
  /\ selectedDatePOs (store (fst (fetchTodayPOs p res v)))
     = selectedDatePOs (store v)
  /\ (fetch_failed res = true -> fst (fetchTodayPOs p res v) = v).
Proof.
  unfold fetchTodayPOs, try_catch, skip. destruct p; [|cbn; auto 10].
  pose proof (store_response_failed set_todayPOs res v) as Hf.
  destruct res as [reason | ok st body]; cbn in *; [auto 10|].
  destruct ok; cbn in *; [|auto 10].
  destruct body as [[pos|] | | err]; cbn in *; auto 10.
Qed.

Lemma fetchPOsForDate_completes (p : option Project) (today : bool)
      (res : PosFetch) (v : ViewState) :
  snd (fetchPOsForDate p today res v) = None
  /\ isRefreshing (fst (fetchPOsForDate p today res v)) = isRefreshing v
  /\ toasts (fst (fetchPOsForDate p today res v)) = toasts v
  /\ todayPOs (store (fst (fetchPOsForDate p today res v))) = todayPOs (store v)
  /\ (fetch_failed res = true ->
      store (fst (fetchPOsForDate p today res v)) = store v).
Proof.
  unfold fetchPOsForDate, seq, finally, try_catch, write, skip.
  destruct p; [|cbn; auto 10]. destruct today; [cbn; auto 10|].
  destruct res as [reason | ok st body]; cbn; [auto 10|].
  destruct ok; cbn; [|auto 10].
  destruct body as [[pos|] | | err]; cbn;
    repeat split; try reflexivity; discriminate.
Qed.

(** X5. [handleRefresh] does nothing without a project or while a
    refresh is running.  Otherwise it completes, resets [isRefreshing] and
    shows the success toast, never the failure toast, whatever the two
    fetches brought: the fetchers catch their own errors, so a fetch that
    failed only leaves its list as it was. *)
Theorem refresh_always_reports_success
        (p : option Project) (refreshing date_today parsed_today : bool)
        (res_today res_date : PosFetch) (v : ViewState) :
  snd (handleRefresh p refreshing date_today parsed_today res_today res_date v)
  = None
  /\ match p with
     | None =>
         fst (handleRefresh p refreshing date_today parsed_today
                res_today res_date v) = v
     | Some _ =>
         if refreshing
         then fst (handleRefresh p refreshing date_today parsed_today
                     res_today res_date v) = v
         else
           isRefreshing
             (fst (handleRefresh p refreshing date_today parsed_today
                     res_today res_date v)) = false
           /\ toasts
                (fst (handleRefresh p refreshing date_today parsed_today
                        res_today res_date v))
              = toasts v ++ [ToastSuccess]
           /\ (fetch_failed res_today = true ->
               todayPOs
                 (store (fst (handleRefresh p refreshing date_today parsed_today
                                res_today res_date v)))
               = todayPOs (store v))
           /\ (fetch_failed res_date = true ->
               selectedDatePOs
                 (store (fst (handleRefresh p refreshing date_today parsed_today
                                res_today res_date v)))
               = selectedDatePOs (store v))
     end.
Proof.
  unfold handleRefresh. destruct p as [pr|]; [|split; reflexivity].
  destruct refreshing; [split; reflexivity|].
  unfold seq, finally, try_catch, write.
  pose proof (fetchTodayPOs_completes (Some pr) res_today (set_isRefreshing true v))
    as (He & Hr & Hl & Ht & Hd & Hf).
  destruct (fetchTodayPOs (Some pr) res_today (set_isRefreshing true v))
    as [v2 e2]. cbn [fst snd] in *. subst e2.
  assert (Hdate :
            exists v3,
              (if date_today then skip
               else fetchPOsForDate (Some pr) parsed_today res_date) v2
              = (v3, None)
              /\ toasts v3 = toasts v2
              /\ todayPOs (store v3) = todayPOs (store v2)
              /\ (fetch_failed res_date = true -> store v3 = store v2)).
  { destruct date_today; [exists v2; repeat split|].
    pose proof (fetchPOsForDate_completes (Some pr) parsed_today res_date v2)
      as (He' & _ & Ht' & Htd & Hf').
    destruct (fetchPOsForDate (Some pr) parsed_today res_date v2) as [v3 e3].
    cbn [fst snd] in *. subst e3. exists v3. repeat split; trivial. }
  destruct Hdate as (v3 & -> & Ht3 & Htd3 & Hf3).
  cbn. rewrite Ht3, Ht. cbn. split; [reflexivity|].
  repeat split.
  - intros H. rewrite Htd3, (Hf H). reflexivity.
  - intros H. rewrite (Hf3 H), Hd. reflexivity.
Qed.

End ViewsFacts.

(** ** The exported table *)

Module CsvFacts.

Import Chat SqlResult CsvSpec.

Lemma append_assoc (a b c : string) : ((a ++ b) ++ c = a ++ (b ++ c))%string.
Proof. induction a as [|x a IH]; cbn; [reflexivity | now rewrite IH]. Qed.

Lemma append_empty (a : string) : (a ++ "" = a)%string.
Proof. induction a as [|x a IH]; cbn; [reflexivity | now rewrite IH]. Qed.

Lemma bare_ends (cur : string) (cells : list string) (rows : list (list string))
      (rest : string) :
  ends rest -> read Bare cur cells rows rest = after (cells ++ [cur])%list rows rest.
Proof. intros [-> | [r ->]]; reflexivity. Qed.

Lemma seen_ends (cur : string) (cells : list string) (rows : list (list string))
      (rest : string) :
  ends rest ->
  read QuoteSeen cur cells rows rest = after (cells ++ [cur])%list rows rest.
Proof. intros [-> | [r ->]]; reflexivity. Qed.

Lemma read_quoted_body (v : string) :
  forall cur cells rows rest,
    read Quoted cur cells rows (double_quotes v ++ rest)
    = read Quoted (cur ++ v) cells rows rest.
Proof.
  induction v as [|c v IH]; intros cur cells rows rest;
    cbn [double_quotes append].
  - now rewrite append_empty.
  - destruct (Ascii.eqb_spec c (ascii_of_nat 34)) as [-> | Hc].
    + cbn. rewrite IH, append_assoc. reflexivity.
    + cbn [append read]. change quote with (ascii_of_nat 34).
      destruct (Ascii.eqb_spec c (ascii_of_nat 34)) as [Hq | _];
        [contradiction|].
      rewrite IH, append_assoc. reflexivity.
Qed.

Lemma read_quoted_cell (v : string) (cells : list string)
      (rows : list (list string)) (rest : string) :
  read Bare "" cells rows ((dquote ++ double_quotes v ++ dquote) ++ rest)
  = read QuoteSeen v cells rows rest.
Proof.
  rewrite !append_assoc. cbn. rewrite read_quoted_body. reflexivity.
Qed.

Lemma read_bare_cell (s : string) :
  forall cur cells rows rest,
    plain s = true ->
    read Bare cur cells rows (s ++ rest) = read Bare (cur ++ s) cells rows rest.
Proof.
  induction s as [|c s IH]; intros cur cells rows rest H;
    cbn [plain append read] in *.
  - now rewrite append_empty.
  - apply andb_prop in H as [H Hs]. apply andb_prop in H as [H Hq].
    apply andb_prop in H as [Hc Hn].
    apply negb_true_iff in Hc, Hn, Hq. rewrite Hc, Hn, Hq.
    rewrite IH, append_assoc by exact Hs. reflexivity.
Qed.

Lemma quoted_line_reads (vs : list string) :
  vs <> [] ->
  reads_as
    (Js.join "," (map (fun v => dquote ++ double_quotes v ++ dquote) vs)) vs.
Proof.
  induction vs as [|v vs IH]; [congruence|]. intros _ cells rows rest Hr.
  destruct vs as [|v' vs].
  - cbn [map Js.join]. rewrite read_quoted_cell. now apply seen_ends.
  - change (Js.join "," (map (fun v => dquote ++ double_quotes v ++ dquote)
                             (v :: v' :: vs)))
      with ((dquote ++ double_quotes v ++ dquote) ++ "," ++
            Js.join "," (map (fun v => dquote ++ double_quotes v ++ dquote)
                             (v' :: vs))).
    rewrite append_assoc, read_quoted_cell.
    change (("," ++ Js.join "," (map (fun v => dquote ++ double_quotes v ++ dquote)
                                    (v' :: vs))) ++ rest)
      with (String comma
              (Js.join "," (map (fun v => dquote ++ double_quotes v ++ dquote)
                                (v' :: vs)) ++ rest)).
    cbn [read]. cbn.
    rewrite (IH ltac:(discriminate) _ _ _ Hr), <- app_assoc. reflexivity.
Qed.

Lemma bare_line_reads (hs : list string) :
  hs <> [] -> forallb plain hs = true -> reads_as (Js.join "," hs) hs.
Proof.
  induction hs as [|h hs IH]; [congruence|]. intros _ Hp cells rows rest Hr.
  cbn [forallb] in Hp. apply andb_prop in Hp as [Hh Hp].
  destruct hs as [|h' hs].
  - cbn [Js.join]. rewrite read_bare_cell by exact Hh. now apply bare_ends.
  - change (Js.join "," (h :: h' :: hs))
      with (h ++ "," ++ Js.join "," (h' :: hs)).
    rewrite append_assoc, read_bare_cell by exact Hh.
    change (("," ++ Js.join "," (h' :: hs)) ++ rest)
      with (String comma (Js.join "," (h' :: hs) ++ rest)).
    cbn [read]. cbn.
    rewrite (IH ltac:(discriminate) Hp _ _ _ Hr), <- app_assoc. reflexivity.
Qed.

Lemma text_line (headers : list string) (row : Row) :
  all_text headers row = true ->
  line headers row
  = Js.join "," (map (fun v => dquote ++ double_quotes v ++ dquote)
                     (cells_of headers row)).
Proof.
  unfold line, all_text, cells_of. intros H. f_equal. rewrite map_map.
  apply map_ext_in. intros h Hh.
  rewrite forallb_forall in H. specialize (H h Hh).
  destruct (Js.lookup h row); try discriminate. reflexivity.
Qed.

Lemma lines_read (ls : list string) (css : list (list string)) :
  Forall2 reads_as ls css -> ls <> [] ->
  forall rows, read Bare "" [] rows (Js.join nl ls) = Some (rows ++ css)%list.
Proof.
  induction 1 as [|l cs ls css Hl Hls IH]; [congruence|]. intros _ rows.
  destruct ls as [|l' ls].
  - inversion Hls; subst. cbn [Js.join].
    rewrite <- (append_empty l), (Hl [] rows "") by (left; reflexivity).
    reflexivity.
  - change (Js.join nl (l :: l' :: ls)) with (l ++ nl ++ Js.join nl (l' :: ls)).
    rewrite (Hl [] rows) by (right; eexists; reflexivity).
    cbn [after nl append app]. rewrite IH by discriminate.
    rewrite <- app_assoc. reflexivity.
Qed.

Lemma rows_read (headers : list string) (d : list Row) :
  (forall row, In row d ->
               reads_as (line headers row) (cells_of headers row)) ->
  Forall2 reads_as (map (line headers) d) (map (cells_of headers) d).
Proof.
  induction d as [|row rows IH]; intros Hall; constructor.
  - apply Hall. now left.
  - apply IH. intros r Hr. apply Hall. now right.
Qed.

(** X6. When every column name is free of commas, quotes and line feeds
    and every cell of the exported rows is a string, the text that
    [downloadCSV] produces reads back, as CSV, as the header record
    followed by the rows cell for cell, whatever quotes, commas or line
    feeds the cells hold.  The rows exported are [data] when it has any,
    else [sample_data]. *)
Theorem exported_csv_reads_back
        (data sample_data : option (list Row)) (first : Row) (rest : list Row) :
  exportData data sample_data = Some (first :: rest) ->
  keys first <> [] ->
  forallb plain (keys first) = true ->
  forallb (all_text (keys first)) (first :: rest) = true ->
  exists csv,
    downloadCSV data sample_data = Some csv
    /\ parse csv
       = Some (keys first :: map (cells_of (keys first)) (first :: rest)).
Proof.
  intros He Hk Hp Ht. unfold downloadCSV. rewrite He.
  exists (csvContent first (first :: rest)). split; [reflexivity|].
  unfold parse, csvContent.
  rewrite (lines_read
             (Js.join "," (keys first) :: map (line (keys first)) (first :: rest))
             (keys first :: map (cells_of (keys first)) (first :: rest)));
    [reflexivity | | discriminate].
  constructor; [now apply bare_line_reads|].
  rewrite forallb_forall in Ht.
  assert (Hall : forall row, In row (first :: rest) ->
                             reads_as (line (keys first) row)
                                      (cells_of (keys first) row)).
  { intros row Hin. rewrite text_line by now apply Ht.
    apply quoted_line_reads. unfold cells_of.
    destruct (keys first); [congruence | discriminate]. }
  exact (rows_read _ _ Hall).
Qed.

Lemma exported_csv_reads_back_witness :
  exists csv,
    downloadCSV (Some [sample_row]) (Some []) = Some csv
    /\ parse csv
       = Some (keys sample_row :: map (cells_of (keys sample_row)) [sample_row]).
Proof.
  apply (exported_csv_reads_back (Some [sample_row]) (Some []) sample_row []);
    [reflexivity | discriminate | reflexivity | reflexivity].
Defined.

End CsvFacts.

(** ** The upload dialog *)

Module UploadFacts.

Import Net Upload UploadDialog UploadSpec.
Local Open Scope list_scope.

Lemma all_failed (msg : string) (l : list UploadFile) :
  Forall (has_failed msg) (map (mark_error msg) l).
Proof.
  apply Forall_forall. intros f Hf. apply in_map_iff in Hf as (g & <- & _).
  split; reflexivity.
Qed.

Lemma all_done (l : list UploadFile) : Forall is_done (map mark_completed l).
Proof.
  apply Forall_forall. intros f Hf. apply in_map_iff in Hf as (g & <- & _).
  split; reflexivity.
Qed.

Ltac failed_with pre :=
  eexists _, pre; cbn; repeat split; try reflexivity;
  try apply all_failed; rewrite ?map_map; reflexivity.

Lemma settled_success (captured : list UploadFile) (res : FetchResult) (s : State) :
  succeeded res = true ->
  exists notes ret,
    upload_settled captured res s
    = ({| uploadFiles := map mark_completed (uploadFiles s);
          isUploading := false |},
       OnUploadComplete (map mark_completed captured) :: notes,
       Some ret)
    /\ reported notes = [] /\ (List.length notes <= 1)%nat.
Proof.
  destruct res as [reason | resp]; cbn; [discriminate|].
  destruct (Js.includes _ _); cbn; [|rewrite andb_false_r; discriminate].
  destruct (body resp) as [data | err]; [|rewrite andb_false_r; discriminate].
  destruct (ok resp); cbn; [|discriminate].
  destruct (Js.nullish data); cbn; [discriminate|]. intros _.
  destruct (Js.truthy _ && gt_zero _); eexists _, _; cbn;
    (split; [reflexivity | split; [reflexivity | cbn; lia]]).
Qed.

Lemma settled_failure (captured : list UploadFile) (res : FetchResult) (s : State) :
  succeeded res = false ->
  exists msg pre,
    isUploading (fst (fst (upload_settled captured res s))) = false
    /\ Forall (has_failed msg)
              (uploadFiles (fst (fst (upload_settled captured res s))))
    /\ map uf_id (uploadFiles (fst (fst (upload_settled captured res s))))
       = map uf_id (uploadFiles s)
    /\ snd (fst (upload_settled captured res s)) = pre ++ [Alert msg]
    /\ filter is_alert pre = []
    /\ snd (upload_settled captured res s) = None.
Proof.
  destruct res as [reason | resp]; cbn [succeeded upload_settled].
  - intros _. failed_with (@nil Effect).
  - destruct (Js.includes _ _); cbn [andb]; [|intros _; failed_with (@nil Effect)].
    destruct (body resp) as [data | err]; [|intros _; failed_with (@nil Effect)].
    destruct (ok resp); cbn [andb negb].
    + destruct (Js.nullish data); [|discriminate]. intros _.
      failed_with [OnUploadComplete (map mark_completed captured)].
    + intros _. destruct (Js.nullish data); failed_with (@nil Effect).
Qed.

(** X7. However the upload request settles, the dialog ends with
    [isUploading] false and the same files in the same order, all in one
    state: after a 2xx JSON object every listed file is completed at 100
    and [onUploadComplete] gets the files of the request once; after
    anything else every listed file is failed with one and the same
    message, and that message is the one alert shown. *)
Theorem upload_outcome_is_uniform
        (captured : list UploadFile) (res : FetchResult) (s : State) :
  isUploading (fst (fst (upload_settled captured res s))) = false
  /\ map uf_id (uploadFiles (fst (fst (upload_settled captured res s))))
     = map uf_id (uploadFiles s)
  /\ if succeeded res
     then Forall is_done (uploadFiles (fst (fst (upload_settled captured res s))))
          /\ reported (snd (fst (upload_settled captured res s)))
             = [map mark_completed captured]
          /\ snd (upload_settled captured res s) <> None
     else exists msg,
         Forall (has_failed msg)
                (uploadFiles (fst (fst (upload_settled captured res s))))
         /\ filter is_alert (snd (fst (upload_settled captured res s)))
            = [Alert msg]
         /\ snd (upload_settled captured res s) = None.
Proof.
  destruct (succeeded res) eqn:Hs.
  - destruct (settled_success captured res s Hs) as (notes & ret & -> & Hn & _).
    unfold reported in *. cbn. rewrite Hn, map_map.
    repeat split; try discriminate. apply all_done.
  - destruct (settled_failure captured res s Hs)
      as (msg & pre & Hu & Hf & Hi & He & Hp & Hr).
    repeat split; trivial. exists msg. repeat split; trivial.
    rewrite He, filter_app, Hp. reflexivity.
Qed.

Lemma upload_outcome_state (captured : list UploadFile) (res : FetchResult)
      (s : State) :
  isUploading (fst (fst (upload_settled captured res s))) = false.
Proof.
  destruct (succeeded res) eqn:Hs.
  - now destruct (settled_success captured res s Hs) as (notes & ret & -> & _).
  - now destruct (settled_failure captured res s Hs) as (msg & pre & Hu & _).
Qed.

Lemma completed_of_done (l : list UploadFile) :
  filter is_completed (map mark_completed l) = map mark_completed l.
Proof. induction l as [|f l IH]; cbn; [reflexivity | now rewrite IH]. Qed.

Lemma completed_of_new (files : list (string * string)) :
  filter is_completed (map new_file files) = [].
Proof. induction files as [|f l IH]; cbn; [reflexivity | exact IH]. Qed.

Lemma completedCount_handleFiles (files : list (string * string)) (s : State) :
  completedCount (handleFiles files s) = completedCount s.
Proof.
  unfold completedCount, handleFiles. cbn [uploadFiles].
  fold new_file. rewrite filter_app.
  change (map _ files) with (map new_file files).
  rewrite completed_of_new, app_nil_r. reflexivity.
Qed.

Lemma reported_app (a b : list Effect) :
  reported (a ++ b) = reported a ++ reported b.
Proof. apply flat_map_app. Qed.

Lemma click_upload_ready (w : World) :
  ready w ->
  step w ClickUpload
  = Some {| st := {| uploadFiles := uploadFiles (st w); isUploading := true |};
            inflight := [uploadFiles (st w)]; log := log w;
            closes := closes w |}.
Proof.
  intros (Hu & Hi & Hl & Hc). cbn [step]. rewrite Hu, Hc, Hi. unfold handleUpload.
  destruct (uploadFiles (st w)) as [|f l]; [congruence | reflexivity].
Qed.

Lemma settle_success_step (w : World) (c : list UploadFile)
      (rest : list (list UploadFile)) (res : FetchResult) :
  inflight w = c :: rest -> succeeded res = true ->
  exists notes,
    step w (UploadSettles res)
    = Some {| st := {| uploadFiles := map mark_completed (uploadFiles (st w));
                       isUploading := false |};
              inflight := rest;
              log := log w ++ OnUploadComplete (map mark_completed c) :: notes;
              closes := closes w |}
    /\ reported notes = [].
Proof.
  intros Hi Hs. cbn [step]. rewrite Hi.
  destruct (settled_success c res (st w) Hs) as (notes & ret & -> & Hn & _).
  exists notes. split; [reflexivity | exact Hn].
Qed.

Lemma click_upload_refused (w : World) :
  (0 < completedCount (st w))%nat -> step w ClickUpload = None.
Proof.
  intros H. cbn [step].
  destruct (Nat.eqb_spec (completedCount (st w)) 0) as [E|_]; [lia|].
  now rewrite andb_false_r.
Qed.

Lemma click_complete (w : World) :
  (0 < completedCount (st w))%nat ->
  step w ClickComplete
  = Some {| st := {| uploadFiles := []; isUploading := isUploading (st w) |};
            inflight := inflight w;
            log := log w ++ [OnUploadComplete
                               (filter is_completed (uploadFiles (st w)))];
            closes := S (closes w) |}.
Proof.
  intros H. cbn [step].
  destruct (Nat.ltb_spec 0 (completedCount (st w))) as [_|E]; [|lia].
  reflexivity.
Qed.

Lemma step_one_request (w w' : World) (e : Event) :
  one_request w -> step w e = Some w' -> one_request w'.
Proof.
  intros I H. destruct e as [files | fileId | | res |]; cbn [step] in H.
  - injection H as <-. destruct I as [(Hu & Hi) | (Hu & Hc & c & later & Hi & Hl)].
    + left. split; assumption.
    + right. cbn [st inflight]. rewrite completedCount_handleFiles.
      repeat split; trivial. exists c, (later ++ map new_file files).
      split; [exact Hi|]. cbn. rewrite Hl, <- app_assoc. reflexivity.
  - destruct (isUploading (st w)) eqn:Hu; cbn in H; [discriminate|].
    destruct (existsb _ _); [|discriminate]. injection H as <-.
    destruct I as [(_ & Hi) | (Hu' & _)]; [|congruence].
    left. split; [exact Hu | exact Hi].
  - destruct (isUploading (st w)) eqn:Hu; cbn in H; [discriminate|].
    destruct (Nat.eqb_spec (List.length (uploadFiles (st w))) 0) as [|Hl];
      cbn in H; [discriminate|].
    destruct (Nat.eqb_spec (completedCount (st w)) 0) as [Hc|]; [|discriminate].
    destruct I as [(_ & Hi) | (Hu' & _)]; [|congruence].
    unfold handleUpload in H.
    destruct (uploadFiles (st w)) as [|f l] eqn:Hf; [cbn in Hl; congruence|].
    injection H as <-. right. cbn. repeat split.
    + unfold completedCount in *. cbn. rewrite Hf in Hc. exact Hc.
    + exists (f :: l), []. rewrite Hi, app_nil_r. split; reflexivity.
  - destruct (inflight w) as [|c rest] eqn:Hi; [discriminate|].
    destruct (upload_settled c res (st w)) as [[s effs] ret] eqn:Hs.
    injection H as <-.
    destruct I as [(_ & Hi') | (_ & _ & c' & later & Hi' & _)]; [congruence|].
    left. cbn. split.
    + pose proof (upload_outcome_state c res (st w)) as Ho.
      rewrite Hs in Ho. exact Ho.
    + congruence.
  - destruct (Nat.ltb_spec 0 (completedCount (st w))) as [Hc|]; [|discriminate].
    cbn in H. injection H as <-.
    destruct I as [(Hu & Hi) | (_ & Hc' & _)]; [|lia].
    left. split; assumption.
Qed.

(** X8. Along every run of the dialog from its opening, at most one
    upload request is in flight, and one is exactly while [isUploading]
    is set; while it is, no listed file is completed and the files of
    the request are the first files of the list. *)
Theorem one_upload_at_a_time (evs : list Event) (w : World) :
  run init evs = Some w ->
  (isUploading (st w) = true <-> inflight w <> [])
  /\ (List.length (inflight w) <= 1)%nat
  /\ forall c, In c (inflight w) ->
               completedCount (st w) = 0
               /\ exists later, uploadFiles (st w) = c ++ later.
Proof.
  assert (Hrun : forall evs w0, one_request w0 -> run w0 evs = Some w ->
                                one_request w).
  { induction evs0 as [|e evs0 IH]; intros w0 I H; cbn in H.
    - now injection H as <-.
    - destruct (step w0 e) as [w1|] eqn:Hs; [|discriminate].
      exact (IH w1 (step_one_request _ _ _ I Hs) H). }
  intros H.
  assert (I : one_request w).
  { apply (Hrun evs init); [left; split; reflexivity | exact H]. }
  destruct I as [(Hu & Hi) | (Hu & Hc & c & later & Hi & Hl)].
  - rewrite Hu, Hi. cbn. repeat split; try congruence; try lia; contradiction.
  - rewrite Hu, Hi. cbn. split; [split; congruence|]. split; [lia|].
    intros c' [<- | []]. split; [exact Hc | now exists later].
Qed.

Lemma one_upload_at_a_time_witness :
  (isUploading
     (st {| st := {| uploadFiles := map new_file two_files; isUploading := true |};
            inflight := [map new_file two_files]; log := []; closes := 0 |})
   = true
   <-> [map new_file two_files] <> [])
  /\ (List.length [map new_file two_files] <= 1)%nat
  /\ forall c, In c [map new_file two_files] ->
               completedCount
                 {| uploadFiles := map new_file two_files; isUploading := true |}
               = 0
               /\ exists later, map new_file two_files = c ++ later.
Proof.
  exact (one_upload_at_a_time [SelectFiles two_files; ClickUpload] _ eq_refl).
Defined.

Lemma run_removes (ids : list string) :
  forall w w', run w (map ClickRemove ids) = Some w' ->
               isUploading (st w') = isUploading (st w)
               /\ inflight w' = inflight w /\ log w' = log w
               /\ closes w' = closes w.
Proof.
  induction ids as [|i ids IH]; intros w w' H; cbn [map run] in H.
  - injection H as <-. repeat split.
  - cbn [step] in H.
    destruct (negb (isUploading (st w)) && existsb _ _); [|discriminate].
    apply IH in H. cbn [st inflight log closes removeFile isUploading] in H.
    exact H.
Qed.

Lemma two_listed_ready : ready two_listed.
Proof. repeat split. discriminate. Defined.

(** X9. After a successful upload from a dialog at rest, files selected
    later are listed behind the uploaded ones.  Whatever is removed from
    the list then, the upload button is not offered while a completed
    file is listed; once none is, it is offered again and sends what is
    listed.  [Complete Upload] empties the list and closes the dialog
    without a request, so the later files are dropped unsent; it hands
    [onUploadComplete] the uploaded files a second time, and only
    them. *)
Theorem complete_reports_again_and_drops_later_files
        (w : World) (res : FetchResult) (files : list (string * string)) :
  ready w -> succeeded res = true ->
  exists w3,
    run w [ClickUpload; UploadSettles res; SelectFiles files] = Some w3
    /\ uploadFiles (st w3)
       = map mark_completed (uploadFiles (st w)) ++ map new_file files
    /\ inflight w3 = []
    /\ (forall ids w4,
          run w3 (map ClickRemove ids) = Some w4 ->
          if (0 <? completedCount (st w4))%nat
          then step w4 ClickUpload = None
          else uploadFiles (st w4) <> [] ->
               exists w5, step w4 ClickUpload = Some w5
                          /\ inflight w5 = [uploadFiles (st w4)])
    /\ exists w',
        step w3 ClickComplete = Some w'
        /\ uploadFiles (st w') = []
        /\ inflight w' = []
        /\ closes w' = S (closes w)
        /\ reported (log w')
           = reported (log w)
             ++ [map mark_completed (uploadFiles (st w));
                 map mark_completed (uploadFiles (st w))].
Proof.
  intros Hr Hs. pose proof Hr as (Hu & Hi & Hl & Hc).
  cbn [run]. rewrite (click_upload_ready w Hr).
  destruct (settle_success_step
              {| st := {| uploadFiles := uploadFiles (st w); isUploading := true |};
                 inflight := [uploadFiles (st w)]; log := log w;
                 closes := closes w |}
              (uploadFiles (st w)) [] res eq_refl Hs) as (notes & -> & Hn).
  cbn [st inflight log closes uploadFiles].
  set (s3 := handleFiles files
               {| uploadFiles := map mark_completed (uploadFiles (st w));
                  isUploading := false |}).
  set (w3 := {| st := s3; inflight := [];
                log := log w ++ OnUploadComplete
                                  (map mark_completed (uploadFiles (st w)))
                                :: notes;
                closes := closes w |}).
  change (step _ (SelectFiles files)) with (Some w3). cbv beta iota.
  assert (Hdone : filter is_completed (uploadFiles s3)
                  = map mark_completed (uploadFiles (st w))).
  { unfold s3, handleFiles. cbn [uploadFiles].
    change (map _ files) with (map new_file files).
    now rewrite filter_app, completed_of_done, completed_of_new, app_nil_r. }
  assert (Hpos : (0 < completedCount (st w3))%nat).
  { unfold completedCount. cbn [st w3]. rewrite Hdone, length_map.
    destruct (uploadFiles (st w)); [congruence | cbn; lia]. }
  exists w3. split; [reflexivity|]. split; [reflexivity|].
  split; [reflexivity|]. split.
  - intros ids w4 Hrun.
    destruct (run_removes ids w3 w4 Hrun) as (Hu4 & Hi4 & _).
    destruct (Nat.ltb_spec 0 (completedCount (st w4))) as [Hp|Hz].
    + exact (click_upload_refused w4 Hp).
    + intros Hne. eexists. split.
      * apply click_upload_ready. repeat split; trivial. lia.
      * reflexivity.
  - rewrite (click_complete w3 Hpos). eexists. split; [reflexivity|].
    cbn [st inflight log closes uploadFiles w3]. repeat split.
    rewrite Hdone, !reported_app. unfold reported at 2 3. cbn [flat_map app].
    fold (reported notes). rewrite Hn, <- app_assoc. reflexivity.
Qed.

Lemma complete_reports_again_and_drops_later_files_witness :
  exists w3,
    run two_listed [ClickUpload; UploadSettles accepted; SelectFiles late_file]
    = Some w3
    /\ uploadFiles (st w3)
       = map mark_completed (uploadFiles (st two_listed)) ++ map new_file late_file
    /\ inflight w3 = []
    /\ (forall ids w4,
          run w3 (map ClickRemove ids) = Some w4 ->
          if (0 <? completedCount (st w4))%nat
          then step w4 ClickUpload = None
          else uploadFiles (st w4) <> [] ->
               exists w5, step w4 ClickUpload = Some w5
                          /\ inflight w5 = [uploadFiles (st w4)])
    /\ exists w',
        step w3 ClickComplete = Some w'
        /\ uploadFiles (st w') = []
        /\ inflight w' = []
        /\ closes w' = S (closes two_listed)
        /\ reported (log w')
           = reported (log two_listed)
             ++ [map mark_completed (uploadFiles (st two_listed));
                 map mark_completed (uploadFiles (st two_listed))].
Proof.
  exact (complete_reports_again_and_drops_later_files
           two_listed accepted late_file two_listed_ready eq_refl).
Defined.

(** The uploaded files removed one by one, the file selected after the
    upload is sent by the next click on the upload button. *)
Example removing_uploaded_files_brings_upload_back :
  exists w,
    run two_listed [ClickUpload; UploadSettles accepted; SelectFiles late_file;
                    ClickRemove "1-0.25"; ClickRemove "1-0.75"; ClickUpload]
    = Some w
    /\ inflight w = [map new_file late_file].
Proof. eexists. split; vm_compute; reflexivity. Qed.

(** X10. Files selected while the request is in flight are not part of
    it, yet a successful answer marks them completed with the rest, and
    [Complete Upload] hands them to [onUploadComplete] as uploaded. *)
Theorem files_selected_in_flight_count_as_uploaded
        (w : World) (res : FetchResult) (files : list (string * string)) :
  ready w -> succeeded res = true ->
  exists w1 w',
    run w [ClickUpload; SelectFiles files] = Some w1
    /\ inflight w1 = [uploadFiles (st w)]
    /\ run w1 [UploadSettles res; ClickComplete] = Some w'
    /\ uploadFiles (st w') = []
    /\ reported (log w')
       = reported (log w)
         ++ [map mark_completed (uploadFiles (st w));
             map mark_completed (uploadFiles (st w) ++ map new_file files)].
Proof.
  intros Hr Hs. pose proof Hr as (Hu & Hi & Hl & Hc).
  cbn [run]. rewrite (click_upload_ready w Hr).
  set (w1 := {| st := handleFiles files
                        {| uploadFiles := uploadFiles (st w);
                           isUploading := true |};
                inflight := [uploadFiles (st w)]; log := log w;
                closes := closes w |}).
  change (step _ (SelectFiles files)) with (Some w1). cbv beta iota.
  destruct (settle_success_step w1 (uploadFiles (st w)) [] res eq_refl Hs)
    as (notes & Hstep & Hn).
  eexists w1, _. split; [reflexivity|]. split; [reflexivity|].
  rewrite Hstep.
  set (w2 := {| st := {| uploadFiles := map mark_completed (uploadFiles (st w1));
                         isUploading := false |};
                inflight := [];
                log := log w1 ++ OnUploadComplete
                                   (map mark_completed (uploadFiles (st w)))
                                 :: notes;
                closes := closes w1 |}).
  assert (Hfiles : uploadFiles (st w1) = uploadFiles (st w) ++ map new_file files)
    by reflexivity.
  assert (Hpos : (0 < completedCount (st w2))%nat).
  { unfold completedCount. cbn [st w2 uploadFiles].
    rewrite completed_of_done, length_map, Hfiles, length_app.
    destruct (uploadFiles (st w)); [congruence | cbn; lia]. }
  rewrite (click_complete w2 Hpos). split; [reflexivity|].
  cbn [st inflight log closes uploadFiles w2]. split; [reflexivity|].
  rewrite completed_of_done, Hfiles, !reported_app.
  unfold reported at 2 3. cbn [flat_map app log w1].
  fold (reported notes). rewrite Hn, <- app_assoc. reflexivity.
Qed.

Lemma files_selected_in_flight_count_as_uploaded_witness :
  exists w1 w',
    run two_listed [ClickUpload; SelectFiles late_file] = Some w1
    /\ inflight w1 = [uploadFiles (st two_listed)]
    /\ run w1 [UploadSettles accepted; ClickComplete] = Some w'
    /\ uploadFiles (st w') = []
    /\ reported (log w')
       = reported (log two_listed)
         ++ [map mark_completed (uploadFiles (st two_listed));
             map mark_completed
               (uploadFiles (st two_listed) ++ map new_file late_file)].
Proof.
  exact (files_selected_in_flight_count_as_uploaded
           two_listed accepted late_file two_listed_ready eq_refl).
Defined.

End UploadFacts.

(** ** The alert panel *)

Module AlertsFacts.

Import Alerts AlertsSpec.
Local Open Scope list_scope.

Lemma filter_other_ids {A : Type} (key : A -> Z) (i : Z) (l : list A) :
  ~ In i (map key l) -> filter (fun x => negb (key x =? i)%Z) l = l.
Proof.
  induction l as [|x l IH]; cbn; [reflexivity|]. intros H.
  destruct (Z.eqb_spec (key x) i) as [E|_]; [tauto|]. cbn.
  rewrite IH; [reflexivity | tauto].
Qed.

Lemma filter_moves_one {A : Type} (key : A -> Z) (l : list A) :
  forall n a,
    NoDup (map key l) -> nth_error l n = Some a ->
    Permutation l (filter (fun x => negb (key x =? key a)%Z) l ++ [a]).
Proof.
  induction l as [|x l IH]; intros [|n] a Hd Hn; cbn in Hn; try discriminate.
  - injection Hn as ->. cbn. rewrite Z.eqb_refl. cbn.
    inversion Hd; subst. rewrite filter_other_ids by assumption.
    apply Permutation_cons_append.
  - inversion Hd as [|? ? Hx Hd']; subst. cbn.
    destruct (Z.eqb_spec (key x) (key a)) as [E|_].
    + exfalso. apply Hx. rewrite E. apply in_map. eapply nth_error_In, Hn.
    + cbn. apply perm_skip. now apply (IH n).
Qed.

Lemma filter_keeps_NoDup {A : Type} (key : A -> Z) (f : A -> bool) (l : list A) :
  NoDup (map key l) -> NoDup (map key (filter f l)).
Proof.
  induction l as [|x l IH]; cbn; [trivial|]. intros Hd.
  inversion Hd as [|? ? Hx Hd']; subst. destruct (f x); cbn; [|now apply IH].
  constructor; [|now apply IH]. intros Hin. apply Hx.
  apply in_map_iff in Hin as (y & <- & Hy). apply in_map.
  now apply filter_In in Hy.
Qed.

Lemma moved_refl (s s' : State) :
  triggeredAlerts s' = triggeredAlerts s ->
  acknowledgedAlerts s' = acknowledgedAlerts s ->
  moved s s'.
Proof.
  intros Ht Ha. unfold moved, all_triggered. rewrite Ht, Ha.
  repeat split; trivial. exists []. rewrite app_nil_r. split; [reflexivity|].
  cbn. lia.
Qed.

Lemma step_moved (s s' : State) (e : Event) :
  NoDup (map triggered_id (triggeredAlerts s)) ->
  step s e = Some s' -> moved s s'.
Proof.
  intros Hd H.
  destruct e as [t | n | n m | n | n | n | n date time | now date time];
    cbn [step] in H.
  - injection H as <-. now apply moved_refl.
  - destruct (activeTab s); try discriminate.
    destruct (nth_error (createdAlerts s) n) as [a|]; [|discriminate].
    destruct (in_edit s (id a)); [discriminate|]. injection H as <-.
    now apply moved_refl.
  - destruct (nth_error (shown s) n) as [i|]; [|discriminate].
    destruct (in_edit s i); [|discriminate]. injection H as <-.
    now apply moved_refl.
  - destruct (nth_error (shown s) n) as [i|]; [|discriminate].
    destruct (in_edit s i); [|discriminate]. injection H as <-.
    now apply moved_refl.
  - destruct (nth_error (shown s) n) as [i|]; [|discriminate].
    destruct (in_edit s i); [|discriminate]. injection H as <-.
    now apply moved_refl.
  - destruct (activeTab s); try discriminate.
    destruct (nth_error (createdAlerts s) n) as [a|]; [|discriminate].
    destruct (in_edit s (id a)); [discriminate|]. injection H as <-.
    now apply moved_refl.
  - destruct (activeTab s); try discriminate.
    destruct (nth_error (triggeredAlerts s) n) as [a|] eqn:Hn; [|discriminate].
    destruct (in_edit s (id (t_alert a))); [discriminate|]. injection H as <-.
    pose proof (filter_moves_one triggered_id (triggeredAlerts s) n a Hd Hn) as Hp.
    unfold moved, all_triggered, handleAcknowledge.
    cbn [triggeredAlerts acknowledgedAlerts].
    fold (triggered_id a). split; [|split].
    + rewrite map_app. cbn [map a_alert].
      etransitivity; [apply Permutation_app_tail, Hp|].
      rewrite <- !app_assoc. apply Permutation_app_head.
      apply Permutation_app_comm.
    + intros _. now apply filter_keeps_NoDup.
    + eexists. split; [reflexivity|]. apply Permutation_length in Hp.
      rewrite length_app in Hp. unfold triggered_id in *.
      cbn [List.length] in *. lia.
  - destruct (activeTab s); try discriminate. injection H as <-.
    now apply moved_refl.
Qed.

(** X11. When the triggered alerts have distinct ids, no sequence of
    clicks loses or duplicates one of them: the triggered and the
    acknowledged alerts taken together stay the same alerts, unchanged
    but for the acknowledgement stamp; acknowledged alerts are only ever
    appended, one for each alert that left the triggered list. *)
Theorem acknowledging_moves_alerts (s0 s : State) (evs : list Event) :
  NoDup (map triggered_id (triggeredAlerts s0)) ->
  run s0 evs = Some s ->
  Permutation (all_triggered s0) (all_triggered s)
  /\ NoDup (map triggered_id (triggeredAlerts s))
  /\ exists newly,
      acknowledgedAlerts s = acknowledgedAlerts s0 ++ newly
      /\ List.length (triggeredAlerts s) + List.length newly
         = List.length (triggeredAlerts s0).
Proof.
  revert s0. induction evs as [|e evs IH]; intros s0 Hd H; cbn in H.
  - injection H as <-. repeat split; trivial. exists [].
    rewrite app_nil_r. split; [reflexivity | cbn; lia].
  - destruct (step s0 e) as [s1|] eqn:Hs; [|discriminate].
    destruct (step_moved s0 s1 e Hd Hs) as (Hp & Hn & new1 & Ha & Hl).
    destruct (IH s1 (Hn Hd) H) as (Hp' & Hn' & new2 & Ha' & Hl').
    split; [now transitivity (all_triggered s1)|]. split; [exact Hn'|].
    exists (new1 ++ new2). rewrite Ha', Ha, app_assoc, length_app.
    split; [reflexivity | lia].
Qed.

Lemma acknowledging_moves_alerts_witness :
  exists s,
    run init acknowledge_first = Some s
    /\ Permutation (all_triggered init) (all_triggered s)
    /\ NoDup (map triggered_id (triggeredAlerts s))
    /\ exists newly,
        acknowledgedAlerts s = acknowledgedAlerts init ++ newly
        /\ List.length (triggeredAlerts s) + List.length newly
           = List.length (triggeredAlerts init).
Proof.
  eexists. split; [reflexivity|].
  apply (acknowledging_moves_alerts init _ acknowledge_first).
  - cbn. constructor; [intros [] | constructor].
  - reflexivity.
Defined.

Lemma step_edit_is_listed (s s' : State) (e : Event) :
  edit_is_listed s -> step s e = Some s' -> edit_is_listed s'.
Proof.
  unfold edit_is_listed. intros I H.
  destruct e as [t | n | n m | n | n | n | n date time | now date time];
    cbn [step] in H.
  - injection H as <-. exact I.
  - destruct (activeTab s); try discriminate.
    destruct (nth_error (createdAlerts s) n) as [a|] eqn:Hn; [|discriminate].
    destruct (in_edit s (id a)); [discriminate|]. injection H as <-.
    cbn. intros i [= <-]. apply in_map. eapply nth_error_In, Hn.
  - destruct (nth_error (shown s) n) as [i|]; [|discriminate].
    destruct (in_edit s i); [|discriminate]. injection H as <-. exact I.
  - destruct (nth_error (shown s) n) as [i|]; [|discriminate].
    destruct (in_edit s i); [|discriminate]. injection H as <-.
    cbn. discriminate.
  - destruct (nth_error (shown s) n) as [i|]; [|discriminate].
    destruct (in_edit s i); [|discriminate]. injection H as <-.
    cbn. discriminate.
  - destruct (activeTab s); try discriminate.
    destruct (nth_error (createdAlerts s) n) as [a|] eqn:Hn; [|discriminate].
    destruct (in_edit s (id a)) eqn:He; [discriminate|]. injection H as <-.
    cbn. intros i Hi. specialize (I i Hi).
    apply in_map_iff in I as (x & Hx & Hin). apply in_map_iff. exists x.
    split; [exact Hx|]. apply filter_In. split; [exact Hin|].
    unfold in_edit in He. rewrite Hi in He. rewrite Hx, He.
    reflexivity.
  - destruct (activeTab s); try discriminate.
    destruct (nth_error (triggeredAlerts s) n) as [a|]; [|discriminate].
    destruct (in_edit s (id (t_alert a))); [discriminate|]. injection H as <-.
    exact I.
  - destruct (activeTab s); try discriminate. injection H as <-.
    cbn. intros i Hi. right. exact (I i Hi).
Qed.

(** X12. The alert under edit cannot be deleted: along every sequence
    of clicks from a state where the alert under edit, if any, is a
    created alert, it stays one, so Save always finds the alert it
    rewords. *)
Theorem alert_in_edit_stays_listed (s0 s : State) (evs : list Event) :
  edit_is_listed s0 -> run s0 evs = Some s -> edit_is_listed s.
Proof.
  revert s0. induction evs as [|e evs IH]; intros s0 I H; cbn in H.
  - now injection H as <-.
  - destruct (step s0 e) as [s1|] eqn:Hs; [|discriminate].
    exact (IH s1 (step_edit_is_listed _ _ _ I Hs) H).
Qed.

Lemma alert_in_edit_stays_listed_witness :
  exists s,
    run init [ClickEdit 1; ClickDelete 0; ClickAdd 1700000000000 "2025-09-27" "08:00 AM"]
    = Some s
    /\ edit_is_listed s.
Proof.
  eexists. split; [reflexivity|].
  apply (alert_in_edit_stays_listed
           init _
           [ClickEdit 1; ClickDelete 0;
            ClickAdd 1700000000000 "2025-09-27" "08:00 AM"]).
  - intros i H. discriminate H.
  - reflexivity.
Defined.

Lemma with_own_message (a : Alert) : with_message (message a) a = a.
Proof. now destruct a. Qed.

Lemma reword_by_id (m : string) (l : list Alert) :
  forall n a,
    NoDup (map id l) -> nth_error l n = Some a ->
    map (fun x => if (id x =? id a)%Z then with_message m x else x) l
    = firstn n l ++ with_message m a :: skipn (S n) l.
Proof.
  induction l as [|x l IH]; intros [|n] a Hd Hn; cbn in Hn; try discriminate;
    inversion Hd as [|? ? Hx Hd']; subst.
  - injection Hn as ->. cbn. rewrite Z.eqb_refl. f_equal.
    rewrite <- (map_id l) at 2. apply map_ext_in. intros y Hy.
    destruct (Z.eqb_spec (id y) (id a)) as [E|_]; [|reflexivity].
    exfalso. apply Hx. rewrite <- E. now apply in_map.
  - cbn [map firstn skipn app].
    destruct (Z.eqb_spec (id x) (id a)) as [E|_].
    + exfalso. apply Hx. rewrite E. apply in_map. eapply nth_error_In, Hn.
    + f_equal. now apply IH.
Qed.

(** X13. With distinct ids among the created alerts and no edit open,
    Edit on a card, typing a text and Save reword that alert alone: the
    list keeps its order and every other alert, the triggered and
    acknowledged alerts are untouched and the edit is closed.  Save
    right after Edit leaves the list as it was. *)
Theorem edit_and_save_reword_one_alert (s : State) (n : nat) (a : Alert)
        (m : string) :
  activeTab s = created ->
  editingAlert s = None ->
  NoDup (map id (createdAlerts s)) ->
  nth_error (createdAlerts s) n = Some a ->
  run s [ClickEdit n; TypeMessage n m; ClickSave n]
  = Some {| activeTab := created;
            createdAlerts := reworded n m (createdAlerts s);
            triggeredAlerts := triggeredAlerts s;
            acknowledgedAlerts := acknowledgedAlerts s;
            editingAlert := None; editMessage := "" |}
  /\ run s [ClickEdit n; ClickSave n]
     = Some {| activeTab := created;
               createdAlerts := createdAlerts s;
               triggeredAlerts := triggeredAlerts s;
               acknowledgedAlerts := acknowledgedAlerts s;
               editingAlert := None; editMessage := "" |}.
Proof.
  intros Ht He Hd Hn.
  assert (Hshown : forall e msg,
             nth_error (shown (setEditing e msg s)) n = Some (id a)).
  { intros e msg. unfold shown. cbn [activeTab setEditing createdAlerts].
    rewrite Ht. now apply map_nth_error. }
  assert (Hedit : step s (ClickEdit n) = Some (handleEdit a s)).
  { cbn [step]. rewrite Ht, Hn. unfold in_edit. now rewrite He. }
  unfold reworded. rewrite Hn. split.
  - cbn [run]. rewrite Hedit. cbn [step]. unfold handleEdit. rewrite Hshown.
    unfold in_edit at 1. cbn [editingAlert setEditing]. rewrite Z.eqb_refl.
    unfold setEditMessage. cbn [editingAlert setEditing].
    change (shown (setEditing (Some (id a)) m
                     (setEditing (Some (id a)) (message a) s)))
      with (shown (setEditing (Some (id a)) m s)).
    rewrite Hshown. unfold in_edit. cbn [editingAlert setEditing].
    rewrite Z.eqb_refl. unfold saveEdit, setCreatedAlerts, setEditing.
    cbn. rewrite Ht, (reword_by_id m _ n a Hd Hn). reflexivity.
  - cbn [run]. rewrite Hedit. cbn [step]. unfold handleEdit. rewrite Hshown.
    unfold in_edit. cbn [editingAlert setEditing]. rewrite Z.eqb_refl.
    unfold saveEdit, setCreatedAlerts, setEditing.
    cbn. rewrite Ht, (reword_by_id (message a) _ n a Hd Hn), with_own_message.
    rewrite <- (firstn_skipn n (createdAlerts s)) at 3.
    f_equal. f_equal. f_equal.
    clear - Hn. revert n Hn.
    induction (createdAlerts s) as [|x l IH]; intros [|n] Hn; cbn in *;
      try discriminate.
    + now injection Hn as ->.
    + now apply IH.
Qed.

Lemma edit_and_save_reword_one_alert_witness :
  run init [ClickEdit 1; TypeMessage 1 "Galaxy S24 below 10 units"; ClickSave 1]
  = Some {| activeTab := created;
            createdAlerts :=
              reworded 1 "Galaxy S24 below 10 units" (createdAlerts init);
            triggeredAlerts := triggeredAlerts init;
            acknowledgedAlerts := acknowledgedAlerts init;
            editingAlert := None; editMessage := "" |}
  /\ run init [ClickEdit 1; ClickSave 1]
     = Some {| activeTab := created;
               createdAlerts := createdAlerts init;
               triggeredAlerts := triggeredAlerts init;
               acknowledgedAlerts := acknowledgedAlerts init;
               editingAlert := None; editMessage := "" |}.
Proof.
  apply (edit_and_save_reword_one_alert
           init 1
           {| id := 2; message := "Samsung Galaxy S24 inventory running low";
              creationDate := "2025-09-26"; creationTime := "11:15 AM" |}
           "Galaxy S24 below 10 units");
    try reflexivity.
  cbn. repeat constructor; cbn; intuition discriminate.
Defined.

End AlertsFacts.

(** ** The user badge *)

Module ProfileFacts.

Import Profile ProfileSpec.
Local Open Scope list_scope.

Lemma toUpperCase_length (s : string) :
  String.length (toUpperCase s) = String.length s.
Proof. induction s as [|c s IH]; cbn; [reflexivity | now rewrite IH]. Qed.

Section Strip.

Variable two : ascii -> ascii -> bool.
Variable three : ascii -> ascii -> ascii -> bool.

Lemma strip_bounded (n : nat) :
  forall l, (List.length l <= n)%nat ->
            (exists pre, l = pre ++ Js.strip two three l)
            /\ (Js.strip two three l = []
                \/ exists c l', Js.strip two three l = c :: l'
                                /\ Js.is_space c = false).
Proof.
  induction n as [|n IH]; intros l Hl.
  - destruct l; [|cbn in Hl; lia]. split; [now exists [] | now left].
  - destruct l as [|c l1]; [split; [now exists [] | now left]|].
    cbn [Js.strip]. cbn in Hl. destruct (Js.is_space c) eqn:Hc.
    + destruct (IH l1 ltac:(lia)) as ((pre & Hp) & Hh).
      split; [|exact Hh]. exists (c :: pre). cbn. now rewrite <- Hp.
    + assert (Hkeep : (exists pre, c :: l1 = pre ++ c :: l1)
                      /\ (c :: l1 = []
                          \/ exists c' l', c :: l1 = c' :: l'
                                           /\ Js.is_space c' = false)).
      { split; [now exists [] | right; now exists c, l1]. }
      destruct l1 as [|c2 l2]; [exact Hkeep|]. cbn in Hl.
      destruct (two c c2).
      * destruct (IH l2 ltac:(lia)) as ((pre & Hp) & Hh).
        split; [|exact Hh]. exists (c :: c2 :: pre). cbn. now rewrite <- Hp.
      * destruct l2 as [|c3 l3]; [exact Hkeep|]. cbn in Hl.
        destruct (three c c2 c3); [|exact Hkeep].
        destruct (IH l3 ltac:(lia)) as ((pre & Hp) & Hh).
        split; [|exact Hh]. exists (c :: c2 :: c3 :: pre). cbn.
        now rewrite <- Hp.
Qed.

Lemma strip_suffix (l : list ascii) :
  exists pre, l = pre ++ Js.strip two three l.
Proof. apply (strip_bounded (List.length l) l (le_n _)). Qed.

Lemma strip_head (l : list ascii) :
  Js.strip two three l = []
  \/ exists c l', Js.strip two three l = c :: l' /\ Js.is_space c = false.
Proof. apply (strip_bounded (List.length l) l (le_n _)). Qed.

End Strip.

(** What [trim_end] leaves is the start of the list. *)
Lemma trim_end_prefix (l : list ascii) :
  exists post, l = Js.trim_end l ++ post.
Proof.
  unfold Js.trim_end.
  destruct (strip_suffix (fun a b => Js.wide2 b a) (fun a b c => Js.wide3 c b a)
                         (rev l)) as (pre & Hp).
  exists (rev pre). rewrite <- rev_app_distr, <- Hp, rev_involutive.
  reflexivity.
Qed.

(** A trimmed text is empty or starts with a character that is no white
    space. *)
Lemma trim_head (s : string) :
  Js.trim s = ""%string
  \/ exists c s', Js.trim s = String c s' /\ Js.is_space c = false.
Proof.
  unfold Js.trim, Js.trim_start.
  destruct (strip_head Js.wide2 Js.wide3 (list_ascii_of_string s))
    as [-> | (c & l & -> & Hc)].
  - now left.
  - destruct (trim_end_prefix (c :: l)) as (post & Hp).
    destruct (Js.trim_end (c :: l)) as [|d r]; [now left|].
    right. cbn in Hp. injection Hp as <- _.
    now exists c, (string_of_list_ascii r).
Qed.

Lemma split_head (sep c : ascii) (s : string) :
  Ascii.eqb c sep = false ->
  exists piece pieces, split sep (String c s) = String c piece :: pieces.
Proof.
  intros H. cbn. rewrite H. destruct (split sep s); eauto.
Qed.

Lemma split_nonempty (sep : ascii) (s : string) : split sep s <> [].
Proof.
  destruct s as [|c s]; cbn; [discriminate|].
  destruct (Ascii.eqb c sep); [discriminate|].
  destruct (split sep s); discriminate.
Qed.

Lemma space_is_space (c : ascii) :
  Js.is_space c = false -> Ascii.eqb c " " = false.
Proof.
  intros H. destruct (Ascii.eqb_spec c " ") as [-> | _]; [|reflexivity].
  discriminate H.
Qed.

Lemma upper_first_badge (e s : string) :
  upper (first e) = Exn.Return s -> badge s.
Proof.
  destruct e as [|c e]; cbn; [discriminate|]. intros [= <-]. now left.
Qed.

Lemma initials_of_badge (user : Js.value) (s : string) :
  initials_of user = Exn.Return (Some s) -> badge s.
Proof.
  unfold initials_of.
  set (by_email := match Js.get user "email" with
                   | Js.Str e => _
                   | _ => _
                   end).
  assert (Hmail : by_email = Exn.Return (Some s) -> badge s).
  { unfold by_email. destruct (Js.get user "email") as [| | | |e| |];
      try discriminate.
    destruct (Js.truthy (Js.Str e)); [|discriminate].
    destruct (upper (first e)) as [r|] eqn:Hu; [|discriminate].
    intros [= <-]. exact (upper_first_badge _ _ Hu). }
  destruct (Js.get user "full_name") as [| | | |n| |]; try exact Hmail.
  destruct (Js.truthy (Js.Str n)); [|exact Hmail].
  destruct (trim_head n) as [-> | (c & t & -> & Hc)].
  - cbn. discriminate.
  - destruct (split_head " " c t (space_is_space c Hc)) as (piece & pieces & ->).
    destruct pieces as [|n1 pieces].
    + cbn. intros [= <-]. now left.
    + destruct n1 as [|c1 n1]; cbn; intros [= <-].
      * right. right. now exists c.
      * right. now left.
Qed.

(** X14. The initials on the badge are never empty.  They are one or
    two characters, or the first letter of the name followed by
    UNDEFINED: the second initial is read from the second piece of the
    name split at spaces, which is empty when two spaces follow the first
    word. *)
Theorem initials_are_never_empty (user : Js.value) :
  getUserInitials user <> ""%string
  /\ (String.length (getUserInitials user) = 1
      \/ String.length (getUserInitials user) = 2
      \/ exists c, getUserInitials user = String (upper_char c) "UNDEFINED").
Proof.
  assert (H : badge (getUserInitials user)).
  { unfold getUserInitials. destruct (negb (Js.truthy user)); [now left|].
    destruct (initials_of user) as [[s|]|] eqn:Hi; try (now left).
    exact (initials_of_badge user s Hi). }
  split; [|exact H].
  destruct H as [H | [H | (c & ->)]]; try discriminate;
    destruct (getUserInitials user); cbn in H; discriminate.
Qed.

Lemma split_word (w rest : string) :
  one_word w = true ->
  split " " (w ++ String " " rest) = w :: split " " rest.
Proof.
  induction w as [|c w IH]; cbn; [reflexivity|]. intros H.
  apply andb_prop in H as [Hc Hw]. apply negb_true_iff in Hc.
  rewrite Hc, (IH Hw). reflexivity.
Qed.

(** X15. A full name that starts with an ASCII character, written with
    two spaces after its first word and no white space around it, gives
    that character, in upper case when it is a letter, followed by
    UNDEFINED as initials, whatever follows. *)
Theorem double_space_gives_undefined
        (c : ascii) (w rest : string) (others : list (string * Js.value)) :
  (nat_of_ascii c < 128)%nat ->
  one_word (String c w) = true ->
  Js.trim (String c w ++ "  " ++ rest) = (String c w ++ "  " ++ rest)%string ->
  getUserInitials (named (String c w ++ "  " ++ rest) others)
  = String (upper_char c) "UNDEFINED".
Proof.
  intros _ Hw Ht. unfold getUserInitials, named. cbn [Js.truthy negb].
  unfold initials_of. cbn [Js.get Js.lookup String.eqb Ascii.eqb Bool.eqb].
  replace (Js.truthy (Js.Str (String c w ++ "  " ++ rest))) with true
    by reflexivity.
  rewrite Ht.
  change (String c w ++ "  " ++ rest)%string
    with (String c w ++ String " " (String " " rest))%string.
  rewrite (split_word _ _ Hw).
  change (split " " (String " " rest)) with (EmptyString :: split " " rest).
  reflexivity.
Qed.

Lemma double_space_gives_undefined_witness :
  getUserInitials (named "Ada  Lovelace" [("email", Js.Str "ada@example.com")])
  = "AUNDEFINED"%string.
Proof.
  exact (double_space_gives_undefined "A" "da" "Lovelace"
           [("email", Js.Str "ada@example.com")]
           (proj1 (Nat.ltb_lt 65 128) eq_refl) eq_refl eq_refl).
Defined.

End ProfileFacts.

(** ** Signing in *)

Module LoginFacts.

Import Net Exn LoginPage LoginSpec.
Local Open Scope list_scope.

Ltac run_handler :=
  unfold seq, finally, try_catch, fetched, eval, emit, write, throw, json,
    member;
  cbn.

Ltac settle :=
  run_handler; repeat split; eexists;
  (split; [rewrite <- ?app_assoc; reflexivity|]); repeat split.

(** X16. [handleRegister] sends nothing unless the two passwords are
    equal and their [length], which counts UTF-16 code units, is at
    least six.  Whatever the two requests
    bring, it ends with [isLoading] false and exactly one alert; a token
    is stored exactly when the dashboard is entered, which is exactly
    when the form is valid, the registration answered 2xx with a JSON
    body and the login that follows 2xx with a JSON body that is not
    null. *)
Theorem register_outcomes (f : Form) (res login_res : FetchResult) (s : State) :
  snd (handleRegister f res login_res s) = None
  /\ isLoading (fst (handleRegister f res login_res s)) = false
  /\ error (fst (handleRegister f res login_res s)) = error s
  /\ exists effs,
      log (fst (handleRegister f res login_res s)) = log s ++ effs
      /\ List.length (filter is_alert effs) = 1
      /\ existsb is_fetch effs = valid f
      /\ existsb is_push effs = valid f && registers res && logs_in login_res
      /\ existsb is_store effs = existsb is_push effs.
Proof.
  unfold handleRegister, valid, registers, logs_in, ok_json.
  destruct (registerPassword f =? registerConfirmPassword f); [|settle].
  destruct (Nat.ltb_spec (Js.length (registerPassword f)) 6) as [Hl|Hl].
  - replace (6 <=? Js.length (registerPassword f))%nat with false
      by (symmetry; apply Nat.leb_gt; exact Hl).
    settle.
  - replace (6 <=? Js.length (registerPassword f))%nat with true
      by (symmetry; apply Nat.leb_le; exact Hl).
    destruct res as [reason | resp]; [settle|].
    run_handler. destruct (ok resp).
    + destruct (body resp) as [userData | err]; [|settle].
      destruct login_res as [reason | lresp]; [settle|].
      run_handler. destruct (ok lresp); [|settle].
      destruct (body lresp) as [loginData | err]; [|settle].
      destruct (Js.nullish loginData); settle.
    + destruct (body resp) as [errorData | err]; [|settle].
      destruct (Js.nullish errorData); settle.
Qed.

(** A password of five accented letters, ten bytes in UTF-8, has length
    five and is refused: one alert, no request. *)
Example short_accented_password_is_refused (res login_res : FetchResult) :
  let e := String (ascii_of_nat 195) (String (ascii_of_nat 169) "") in
  let f := {| registerEmail := "a@example.com";
              registerPassword := e ++ e ++ e ++ e ++ e;
              registerConfirmPassword := e ++ e ++ e ++ e ++ e;
              fullName := "Ada" |} in
  log (fst (handleRegister f res login_res
              {| isLoading := false; error := ""; log := [] |}))
  = [Alert "Password must be at least 6 characters long!"].
Proof. reflexivity. Qed.

(** X17. [handleLogin] sends one request and ends with [isLoading]
    false and the error text cleared.  After a 2xx answer with a JSON
    body that is not null it stores the token and enters the dashboard
    without an alert, also when the body holds no [access_token]: the
    text stored is then [undefined].  After anything else it shows one
    alert, stores nothing and stays. *)
Theorem login_outcomes (loginEmail loginPassword : string) (res : FetchResult)
        (s : State) :
  snd (handleLogin loginEmail loginPassword res s) = None
  /\ isLoading (fst (handleLogin loginEmail loginPassword res s)) = false
  /\ error (fst (handleLogin loginEmail loginPassword res s)) = ""%string
  /\ exists request effs,
      log (fst (handleLogin loginEmail loginPassword res s))
      = log s ++ Fetch "/auth/login" request :: effs
      /\ match ok_json res with
         | Some data =>
             if Js.nullish data then effs = [Alert network_error]
             else effs = [SetItem "access_token"
                                  (Js.to_string (Js.get data "access_token"));
                          Push "/dashboard"]
                  /\ (Js.get data "access_token" = Js.Undefined ->
                      effs = [SetItem "access_token" "undefined";
                              Push "/dashboard"])
         | None => exists msg, effs = [Alert msg]
         end.
Proof.
  unfold handleLogin, ok_json.
  destruct res as [reason | resp].
  - run_handler. repeat split. eexists _, _.
    split; [rewrite <- ?app_assoc; reflexivity|]. now eexists.
  - run_handler. destruct (ok resp).
    + destruct (body resp) as [data | err].
      * destruct (Js.nullish data); run_handler; repeat split; eexists _, _;
          (split; [rewrite <- ?app_assoc; reflexivity|]);
          [reflexivity|]. split; [reflexivity|]. now intros ->.
      * run_handler. repeat split. eexists _, _.
        split; [rewrite <- ?app_assoc; reflexivity|]. now eexists.
    + destruct (body resp) as [data | err].
      * destruct (Js.nullish data); run_handler; repeat split; eexists _, _;
          (split; [rewrite <- ?app_assoc; reflexivity|]); now eexists.
      * run_handler. repeat split. eexists _, _.
        split; [rewrite <- ?app_assoc; reflexivity|]. now eexists.
Qed.

End LoginFacts.

(** ** The project list of the dashboard *)

Module DashboardFacts.

Import Dashboard DashboardSpec.
Local Open Scope list_scope.

Lemma update_project_other (pid : string) (f : Project -> Project)
      (l : list Project) (p : Project) :
  (forall q, id (f q) = id q) ->
  In p (update_project pid f l) -> id p <> pid -> In p l.
Proof.
  intros Hf Hin Hne. apply in_map_iff in Hin as (q & <- & Hq).
  destruct (String.eqb_spec (id q) pid) as [E|_]; [|exact Hq].
  rewrite Hf in Hne. contradiction.
Qed.

Lemma update_project_hit (pid : string) (f : Project -> Project)
      (l : list Project) (p : Project) :
  (forall q, id (f q) = id q) ->
  In p (update_project pid f l) -> id p = pid -> exists q, In q l /\ p = f q.
Proof.
  intros Hf Hin He. apply in_map_iff in Hin as (q & <- & Hq).
  destruct (String.eqb_spec (id q) pid) as [E|E]; [now exists q|].
  contradiction.
Qed.

Lemma select_idle (w : World) (n : nat) (a : Project) :
  idle w -> nth_error (projects (st w)) n = Some a ->
  step w (Select n)
  = Some {| st := {| projects := projects (st w); selectedProject := Some a;
                     isRefreshingCounts := true; uploadOpen := false |};
            tasks := [DocsFor (id a); CountsFor (id a)] |}.
Proof.
  intros (Hs & Hu & Ht) Hn. unfold step, handle. rewrite Hn.
  unfold effects, selected_id. rewrite Hs, Hu, Ht. reflexivity.
Qed.

(** X18. Documents fetched for a project are written on whichever
    project is selected when they arrive.  With projects A and B chosen
    one after the other, and the documents of B arriving before those of
    A, the selected project is B showing the documents of A, while the
    entry of B in the list holds its own. *)
Theorem late_documents_land_on_selection
        (w : World) (na nb : nat) (a b : Project)
        (docsA docsB : list ProjectDocument) :
  idle w ->
  nth_error (projects (st w)) na = Some a ->
  nth_error (projects (st w)) nb = Some b ->
  id a <> id b ->
  exists w',
    run w [Select na; Select nb; Settle 2 (Docs (Some docsB));
           Settle 0 (Docs (Some docsA))] = Some w'
    /\ selectedProject (st w') = Some (with_documents docsA b)
    /\ forall p, In p (projects (st w')) -> id p = id b ->
                 documents p = Some docsB.
Proof.
  intros Hi Ha Hb Hne. cbn [run]. rewrite (select_idle w na a Hi Ha).
  apply String.eqb_neq in Hne.
  unfold step at 1, handle. cbn [st tasks projects]. rewrite Hb.
  unfold effects, selected_id.
  cbn [selectedProject option_map same_id uploadOpen Bool.eqb negb orb andb
       projects isRefreshingCounts app].
  rewrite Hne. cbn [negb orb andb app].
  unfold step at 1, handle.
  cbn [st tasks nth_error firstn skipn app docs_settled projects selectedProject
       option_map isRefreshingCounts uploadOpen].
  unfold effects, selected_id.
  cbn [selectedProject option_map same_id with_documents id uploadOpen Bool.eqb
       negb orb andb app]. rewrite String.eqb_refl. cbn [negb orb andb app].
  unfold step at 1, handle.
  cbn [st tasks nth_error firstn skipn app docs_settled projects selectedProject
       option_map isRefreshingCounts uploadOpen].
  unfold effects, selected_id.
  cbn [selectedProject option_map same_id with_documents id uploadOpen Bool.eqb
       negb orb andb app]. rewrite String.eqb_refl. cbn [negb orb andb app].
  eexists. split; [reflexivity|]. cbn [st selectedProject projects].
  split; [reflexivity|]. intros p Hp He.
  apply update_project_other in Hp; [|reflexivity|].
  - apply update_project_hit in Hp as (q & _ & ->); [reflexivity..|exact He].
  - rewrite He. intros E. rewrite E, String.eqb_refl in Hne. discriminate.
Qed.

Lemma two_projects_idle : idle two_projects.
Proof. repeat split. Defined.

Lemma late_documents_land_on_selection_witness :
  exists w',
    run two_projects
        [Select 0; Select 1; Settle 2 (Docs (Some [doc "d2" "vendors.csv"]));
         Settle 0 (Docs (Some [doc "d1" "stores.csv"]))] = Some w'
    /\ selectedProject (st w')
       = Some (with_documents [doc "d1" "stores.csv"] (project "p2" "Vendors"))
    /\ forall p, In p (projects (st w')) -> id p = id (project "p2" "Vendors") ->
                 documents p = Some [doc "d2" "vendors.csv"].
Proof.
  apply (late_documents_land_on_selection
           two_projects 0 1 (project "p1" "Stores") (project "p2" "Vendors")
           [doc "d1" "stores.csv"] [doc "d2" "vendors.csv"]
           two_projects_idle eq_refl eq_refl).
  discriminate.
Defined.

Lemma effects_same_selection (old new : State) :
  selected_id new = selected_id old -> uploadOpen new = uploadOpen old ->
  effects old new = (new, []).
Proof.
  intros Hs Hu. unfold effects. rewrite Hs, Hu, Bool.eqb_reflx.
  replace (same_id (selected_id old) (selected_id old)) with true.
  - cbn. now destruct (selectedProject new).
  - destruct (selected_id old); cbn; [now rewrite String.eqb_refl | reflexivity].
Qed.

Lemma nth_error_middle {A : Type} (before after : list A) (x : A) :
  nth_error (before ++ x :: after) (List.length before) = Some x.
Proof. induction before as [|y l IH]; cbn; [reflexivity | exact IH]. Qed.

Lemma remove_middle {A : Type} (before after : list A) (x : A) :
  firstn (List.length before) (before ++ x :: after)
  ++ skipn (S (List.length before)) (before ++ x :: after)
  = before ++ after.
Proof.
  induction before as [|y l IH]; [reflexivity|].
  simpl. f_equal. exact IH.
Qed.

(** X19. [handleCreateProject] installs the project list of the render
    that sent the request, with the new project in front: counts that a
    refresh wrote into the list while the request was in flight are gone
    from it once the creation settles. *)
Theorem creation_restores_list_of_its_render
        (w : World) (before after : list Task) (pid newProjectName : string)
        (counts : Counts) (p : Project) :
  tasks w = before ++ CountsFor pid :: after ->
  Js.trim newProjectName <> ""%string ->
  exists w1 w',
    run w [ClickCreate newProjectName;
           Settle (List.length before) (Counted counts)] = Some w1
    /\ projects (st w1) = update_project pid (with_counts counts) (projects (st w))
    /\ step w1 (Settle (List.length before + List.length after)
                       (Created (Some p))) = Some w'
    /\ projects (st w') = transformed p :: projects (st w)
    /\ selectedProject (st w') = Some (transformed p).
Proof.
  intros Ht Hn. apply String.eqb_neq in Hn.
  set (w1 := {| st := counts_settled pid counts (st w);
                tasks := before ++ after ++ [Creating (projects (st w))] |}).
  assert (H1 : run w [ClickCreate newProjectName;
                      Settle (List.length before) (Counted counts)] = Some w1).
  { cbn [run]. unfold step at 1, handle. rewrite Hn.
    rewrite effects_same_selection by reflexivity. rewrite app_nil_r, Ht.
    unfold step at 1, handle. cbn [st tasks].
    rewrite <- app_assoc. cbn [app]. rewrite nth_error_middle, remove_middle.
    rewrite effects_same_selection;
      [|unfold selected_id; cbn; now destruct (selectedProject (st w))
       |reflexivity].
    rewrite app_nil_r. reflexivity. }
  assert (H2 : exists s' started,
             step w1 (Settle (List.length before + List.length after)
                             (Created (Some p)))
             = Some {| st := s'; tasks := (before ++ after) ++ started |}
             /\ projects s' = transformed p :: projects (st w)
             /\ selectedProject s' = Some (transformed p)).
  { unfold step, handle. cbn [st tasks w1 counts_settled projects].
    rewrite <- length_app, app_assoc, nth_error_middle, remove_middle.
    rewrite app_nil_r.
    destruct (effects _ _) as [s' started] eqn:He. exists s', started.
    split; [reflexivity|]. unfold effects in He. cbn in He.
    destruct ((negb _ || _) && _) in He; injection He as <- _; split; reflexivity. }
  destruct H2 as (s' & started & Hstep & Hp & Hs).
  exists w1, {| st := s'; tasks := (before ++ after) ++ started |}.
  repeat split; assumption.
Qed.

Lemma creation_restores_list_of_its_render_witness :
  exists w1 w',
    run {| st := st two_projects; tasks := [CountsFor "p1"] |}
        [ClickCreate "Depots";
         Settle 0 (Counted {| metadata := 3; businesslogic := 1;
                              references := 0 |})] = Some w1
    /\ projects (st w1)
       = update_project "p1"
           (with_counts {| metadata := 3; businesslogic := 1; references := 0 |})
           (projects (st two_projects))
    /\ step w1 (Settle 0 (Created (Some (project "p3" "Depots")))) = Some w'
    /\ projects (st w')
       = transformed (project "p3" "Depots") :: projects (st two_projects)
    /\ selectedProject (st w') = Some (transformed (project "p3" "Depots")).
Proof.
  apply (creation_restores_list_of_its_render
           {| st := st two_projects; tasks := [CountsFor "p1"] |}
           [] [] "p1" "Depots"
           {| metadata := 3; businesslogic := 1; references := 0 |}
           (project "p3" "Depots") eq_refl).
  discriminate.
Defined.

Lemma last_updated_some (pid : string) (f : Project -> Project)
      (l : list Project) (a : Project) :
  In a l -> id a = pid ->
  exists p, last_updated pid f l = Some (f p) /\ In p l /\ id p = pid.
Proof.
  intros Hin He. unfold last_updated.
  destruct (rev (filter (fun p => id p =? pid) l)) as [|p r] eqn:Hr.
  - assert (Hf : In a (filter (fun p => id p =? pid) l)).
    { apply filter_In. split; [exact Hin|]. now rewrite He, String.eqb_refl. }
    apply in_rev in Hf. rewrite Hr in Hf. contradiction.
  - exists p. split; [reflexivity|].
    assert (Hp : In p (filter (fun p => id p =? pid) l)).
    { apply in_rev. rewrite Hr. now left. }
    apply filter_In in Hp as (Hp & E). split; [exact Hp|].
    now apply String.eqb_eq.
Qed.

(** X20. The refresh that [handleUploadComplete] awaits sets the
    selection when it arrives: if another project was selected after the
    upload dialog closed, the selection goes back to the project of the
    upload, as long as that one is still listed. *)
Theorem upload_refresh_takes_selection_back
        (w : World) (nb : nat) (a a0 b : Project)
        (docs : list ProjectDocument) (counts : Counts) :
  tasks w = [] ->
  uploadOpen (st w) = true ->
  selectedProject (st w) = Some a ->
  In a0 (projects (st w)) -> id a0 = id a ->
  nth_error (projects (st w)) nb = Some b ->
  id a <> id b ->
  exists w1 w' p,
    run w [UploadCompleted; CloseUpload; Select nb] = Some w1
    /\ selectedProject (st w1) = Some b
    /\ step w1 (Settle 0 (Refreshed (Some (docs, counts)))) = Some w'
    /\ selectedProject (st w')
       = Some (with_counts counts (with_documents docs p))
    /\ In p (projects (st w)) /\ id p = id a.
Proof.
  intros Ht Hu Hs Hin He Hb Hne. apply String.eqb_neq in Hne.
  set (w1 := {| st := {| projects := projects (st w); selectedProject := Some b;
                         isRefreshingCounts := true; uploadOpen := false |};
                tasks := [Refreshing a; CountsFor (id a); DocsFor (id b);
                          CountsFor (id b)] |}).
  assert (H1 : run w [UploadCompleted; CloseUpload; Select nb] = Some w1).
  { cbn [run]. unfold step at 1, handle. rewrite Hs, Ht.
    rewrite effects_same_selection by (unfold selected_id; cbn; now rewrite ?Hs).
    unfold step at 1, handle. cbn [st tasks app].
    unfold effects, selected_id.
    cbn [selectedProject option_map uploadOpen projects isRefreshingCounts].
    rewrite ?Hs, ?Hu. cbn [option_map same_id]. rewrite String.eqb_refl.
    cbn [negb orb andb Bool.eqb app].
    unfold step at 1, handle. cbn [st tasks app projects]. rewrite Hb.
    unfold effects, selected_id.
    cbn [selectedProject option_map uploadOpen projects isRefreshingCounts
         same_id].
    rewrite Hne. reflexivity. }
  destruct (last_updated_some (id a)
              (fun p => with_counts counts (with_documents docs p))
              (projects (st w)) a0 Hin He) as (p & Hl & Hp & Hid).
  assert (H2 : exists s' ts,
             step w1 (Settle 0 (Refreshed (Some (docs, counts))))
             = Some {| st := s'; tasks := ts |}
             /\ selectedProject s'
                = Some (with_counts counts (with_documents docs p))).
  { unfold step, handle. cbn [st tasks w1 nth_error refresh_settled projects].
    rewrite Hl. destruct (effects _ _) as [s' started] eqn:Hf.
    eexists s', _. split; [reflexivity|]. unfold effects in Hf. cbn in Hf.
    destruct ((negb _ || _) && _) in Hf; injection Hf as <- _; reflexivity. }
  destruct H2 as (s' & ts & Hstep & Hsel).
  exists w1, {| st := s'; tasks := ts |}, p. repeat split; assumption.
Qed.

Lemma upload_refresh_takes_selection_back_witness :
  exists w1 w' p,
    run {| st := {| projects := projects (st two_projects);
                    selectedProject := Some (project "p1" "Stores");
                    isRefreshingCounts := false; uploadOpen := true |};
           tasks := [] |}
        [UploadCompleted; CloseUpload; Select 1] = Some w1
    /\ selectedProject (st w1) = Some (project "p2" "Vendors")
    /\ step w1 (Settle 0 (Refreshed
                            (Some ([doc "d1" "stores.csv"],
                                   {| metadata := 1; businesslogic := 0;
                                      references := 0 |}))))
       = Some w'
    /\ selectedProject (st w')
       = Some (with_counts {| metadata := 1; businesslogic := 0;
                              references := 0 |}
                           (with_documents [doc "d1" "stores.csv"] p))
    /\ In p (projects (st two_projects))
    /\ id p = id (project "p1" "Stores").
Proof.
  apply (upload_refresh_takes_selection_back
           {| st := {| projects := projects (st two_projects);
                       selectedProject := Some (project "p1" "Stores");
                       isRefreshingCounts := false; uploadOpen := true |};
              tasks := [] |}
           1 (project "p1" "Stores") (project "p1" "Stores")
           (project "p2" "Vendors") [doc "d1" "stores.csv"]
           {| metadata := 1; businesslogic := 0; references := 0 |}
           eq_refl eq_refl eq_refl (or_introl eq_refl) eq_refl eq_refl).
  discriminate.
Defined.

End DashboardFacts.

(** ** The typing indicator of the chat *)

Module TypingFacts.

Import Net Chat SendSpec IndicatorSpec.
Local Open Scope list_scope.

Lemma awaited_remove_timer (l : list Task) (i : nat) (r : Render) :
  nth_error l i = Some (SendTimer r) ->
  awaited (remove_nth i l) = awaited l.
Proof.
  revert i. induction l as [|t l IH]; intros [|i] H; try discriminate.
  - cbn in H. injection H as ->. reflexivity.
  - cbn in H. specialize (IH i H). cbn [remove_nth].
    destruct t; cbn; unfold awaited in IH; rewrite ?IH; reflexivity.
Qed.

Lemma finish_isTyping (r : Render) (o : Outcome) (now : Z) (s : State) :
  isTyping (finish r o now s) = false.
Proof. now destruct o. Qed.

Section Indicator.

Variable JSON_parse : string -> option Js.value.

Lemma sent_backed (r : Render) (w : World) (now : Z) (ts : list Task) :
  awaited ts = awaited (tasks w) -> backed w ->
  backed {| st := fst (handleSendMessage r (token w) now (st w));
            props := props w; token := token w;
            tasks := ts ++ List.map QueryTask
                                    (opt_list (snd (handleSendMessage
                                                      r (token w) now (st w)))) |}.
Proof.
  intros Hts I. unfold backed, in_flight in *. fold (awaited (tasks w)) in I.
  cbn [st tasks]. fold (awaited (ts ++ List.map QueryTask
                                   (opt_list (snd (handleSendMessage
                                                     r (token w) now (st w)))))).
  rewrite ConversationFacts.awaited_app, Hts.
  destruct (send_blocked r) eqn:Hb.
  - rewrite (SendFacts.handleSendMessage_blocked _ _ _ _ Hb). cbn.
    rewrite app_nil_r. exact I.
  - pose proof (SendFacts.handleSendMessage_passes r (token w) now (st w) Hb)
      as Hpass.
    destruct (handleSendMessage r (token w) now (st w)) as [s1 [p|]]; cbn.
    + intros _ E. apply app_eq_nil in E as [_ E]. discriminate.
    + destruct Hpass as (_ & _ & Hf & _). congruence.
Qed.

Lemma step_backed (w w' : World) (e : Event) :
  backed w -> step JSON_parse w e = Some w' -> backed w'.
Proof.
  intros I H.
  destruct e as [s | now | s | q now | i now | i res now | i res now];
    cbn [step] in H.
  - injection H as <-. exact I.
  - pose proof (sent_backed (render_of w) w now (tasks w) eq_refl I) as Hs.
    destruct (handleSendMessage (render_of w) (token w) now (st w)) as [s1 req].
    injection H as <-. exact Hs.
  - injection H as <-. unfold backed, in_flight in *. cbn [st tasks set_message isTyping].
    rewrite flat_map_app. cbn. rewrite app_nil_r. exact I.
  - destruct (deps_changed (props w) q); [|injection H as <-; exact I].
    unfold conversation_effect in H. unfold backed, in_flight in *.
    destruct (currentConversationId q) as [cid|];
      [destruct (negb (cid =? ""))|]; injection H as <-;
      cbn [st tasks set_messages isTyping]; rewrite flat_map_app; cbn;
      rewrite app_nil_r; exact I.
  - destruct (nth_error (tasks w) i) as [[p | q c | r]|] eqn:Hn;
      try discriminate.
    pose proof (sent_backed r w now (remove_nth i (tasks w))
                  (awaited_remove_timer _ _ _ Hn) I) as Hs.
    destruct (handleSendMessage r (token w) now (st w)) as [s1 req].
    injection H as <-. exact Hs.
  - destruct (nth_error (tasks w) i) as [[p | q c | r]|] eqn:Hn;
      try discriminate.
    injection H as <-. unfold backed. cbn [st]. unfold send_settled.
    rewrite finish_isTyping. discriminate.
  - destruct (nth_error (tasks w) i) as [[p | q c | r]|] eqn:Hn;
      try discriminate.
    injection H as <-. unfold backed, in_flight in *. cbn [st tasks].
    rewrite (ConversationFacts.load_settled_isTyping JSON_parse).
    fold (awaited (remove_nth i (tasks w))).
    rewrite (ConversationFacts.awaited_remove_load _ _ _ _ Hn). exact I.
Qed.

(** X21. The typing indicator never hangs: along every sequence of
    events of the chat from its mount (typing, submits, suggestion clicks
    and their timers, prop changes, settled loads and queries), whenever
    [isTyping] is set a [/chat/query] request is in flight, and the
    settlement of any such request clears it. *)
Theorem typing_indicator_has_request_in_flight
        (q : Props) (tok : option string) (now : Z) (es : list Event) (w : World) :
  run JSON_parse (mount q tok now) es = Some w ->
  (isTyping (st w) = true -> in_flight w <> [])
  /\ forall i res t w',
      step JSON_parse w (QuerySettles i res t) = Some w' ->
      isTyping (st w') = false.
Proof.
  intros H. split.
  - assert (Hrun : forall es w0, backed w0 -> run JSON_parse w0 es = Some w ->
                                 backed w).
    { clear. induction es as [|e es IH]; intros w0 I H; cbn in H.
      - now injection H as <-.
      - destruct (step JSON_parse w0 e) as [w1|] eqn:Hs; [|discriminate].
        exact (IH w1 (step_backed _ _ _ I Hs) H). }
    apply (Hrun es (mount q tok now)); [|exact H].
    unfold backed, mount, conversation_effect.
    destruct (currentConversationId q) as [c|];
      [destruct (negb (c =? ""))|]; cbn; discriminate.
  - intros i res t w' Hs. cbn [step] in Hs.
    destruct (nth_error (tasks w) i) as [[p | q' c | r]|]; try discriminate.
    injection Hs as <-. cbn [st]. unfold send_settled. apply finish_isTyping.
Qed.

End Indicator.

Lemma typing_indicator_has_request_in_flight_witness :
  exists w,
    run Sample.parse (mount (Sample.in_conversation None) (Some "tok") 0)
        Traces.double_click = Some w
    /\ (isTyping (st w) = true -> in_flight w <> [])
    /\ forall i res t w',
        step Sample.parse w (QuerySettles i res t) = Some w' ->
        isTyping (st w') = false.
Proof.
  eexists. split; [vm_compute; reflexivity|].
  apply (typing_indicator_has_request_in_flight
           Sample.parse (Sample.in_conversation None) (Some "tok") 0
           Traces.double_click).
  vm_compute. reflexivity.
Defined.

End TypingFacts.

(** ** The connection indicator of the sidebar *)

Module IndicatorFacts.

Import Sidebar IndicatorSpec.
Local Open Scope list_scope.

Lemma held_close (l : list Socket) (c : option nat) (j : nat) :
  held l c -> held (update_nth j close l) c.
Proof.
  intros H i Hi. destruct (H i Hi) as (sk & Hn & Hl).
  rewrite ChannelFacts.nth_error_update_nth, Hn.
  destruct (j =? i)%nat; [|now exists sk]. exists (close sk).
  split; [reflexivity|]. unfold close.
  destruct (readyState sk) eqn:E; cbn; rewrite ?E; try reflexivity;
    discriminate.
Qed.

Lemma held_close_opt (l : list Socket) (c c' : option nat) :
  held l c -> held (close_opt c' l) c.
Proof. destruct c'; [apply held_close | trivial]. Qed.

Lemma held_connect (l : list Socket) (c : option nat) (cl : Closure)
      (tok : option string) :
  held l c -> held (connectWebSocket cl tok l) c.
Proof.
  intros H. unfold connectWebSocket.
  destruct (c_selectedProject cl); [|exact H].
  destruct tok as [t|]; [|exact H]. destruct (t =? ""); [exact H|].
  intros i Hi. destruct (H i Hi) as (sk & Hn & Hl). exists sk.
  split; [|exact Hl]. rewrite nth_error_app1; [exact Hn|].
  apply nth_error_Some. congruence.
Qed.

Lemma held_none (l : list Socket) : held l None.
Proof. intros i H. discriminate. Qed.

Lemma handleWebSocketMessage_channel (today : string) (data : WebSocketMessage)
      (s : State) :
  wsConnection (fst (handleWebSocketMessage today data s)) = wsConnection s
  /\ isConnected (fst (handleWebSocketMessage today data s)) = isConnected s.
Proof.
  unfold handleWebSocketMessage.
  destruct (type data); try (split; reflexivity).
  destruct (m_po_number data) as [num|]; [|split; reflexivity].
  destruct (m_status data) as [stat|]; [|split; reflexivity].
  destruct (negb (num =? "") && negb (stat =? "")); split; reflexivity.
Qed.

Lemma step_indicator (w w' : World) (e : Event) :
  mounted w = true -> indicator_ok w -> step w e = Some w' ->
  mounted w' = true -> indicator_ok w'.
Proof.
  intros Hm [Hc Hh] H Hm'. unfold indicator_ok.
  destruct e as [p | | i | i | k | i payload today]; cbn [step] in H.
  - rewrite Hm in H. cbn [negb] in H.
    destruct (eqb_opt _ _); [injection H as <-; split; assumption|].
    injection H as <-. unfold lifecycle_effect, write. rewrite Hm.
    assert (Hclosed : held match cleanup w with
                           | Some c => close_opt c (sockets w)
                           | None => sockets w
                           end (wsConnection (st w))).
    { destruct (cleanup w); [now apply held_close_opt | exact Hh]. }
    destruct p as [pr|].
    + cbn [st sockets]. split; [exact Hc|]. now apply held_connect.
    + destruct (wsConnection (st w)) as [i|] eqn:Hw; cbn [st sockets].
      * cbn. split; [split; [discriminate | congruence] | apply held_none].
      * rewrite Hw. split; [exact Hc | apply held_none].
  - rewrite Hm in H. injection H as <-. discriminate Hm'.
  - destruct (nth_error (sockets w) i) as [sk|] eqn:Hn; [|discriminate].
    destruct (readyState sk); try discriminate. injection H as <-.
    unfold write. rewrite Hm. cbn. split; [split; [discriminate | reflexivity]|].
    intros j [= <-]. rewrite ChannelFacts.nth_error_update_nth, Hn, Nat.eqb_refl.
    now exists (set_ready OPEN sk).
  - destruct (nth_error (sockets w) i) as [sk|] eqn:Hn; [|discriminate].
    destruct (readyState sk); try discriminate; injection H as <-;
      unfold write; rewrite Hm; cbn;
      (split; [split; [discriminate | congruence] | apply held_none]).
  - destruct (nth_error (timers w) k) as [[d c]|]; [|discriminate].
    injection H as <-. unfold write. rewrite Hm. cbn.
    split; [exact Hc | now apply held_connect].
  - destruct (nth_error (sockets w) i) as [sk|]; [|discriminate].
    destruct (readyState sk); try discriminate.
    destruct payload as [data|]; injection H as <-; [|split; assumption].
    unfold write. rewrite Hm. cbn [st sockets].
    destruct (handleWebSocketMessage_channel today data (st w)) as [-> ->].
    split; assumption.
Qed.

Lemma step_mounted (w w' : World) (e : Event) :
  step w e = Some w' -> mounted w' = true -> mounted w = true.
Proof.
  intros H Hm. destruct (mounted w) eqn:E; [reflexivity|]. exfalso.
  destruct e as [p | | i | i | k | i payload today]; cbn [step] in H;
    rewrite ?E in H; cbn in H; try discriminate.
  - destruct (nth_error (sockets w) i) as [sk|]; [|discriminate].
    destruct (readyState sk); try discriminate. injection H as <-.
    cbn in Hm. congruence.
  - destruct (nth_error (sockets w) i) as [sk|]; [|discriminate].
    destruct (readyState sk); try discriminate; injection H as <-;
      cbn in Hm; congruence.
  - destruct (nth_error (timers w) k) as [[d c]|]; [|discriminate].
    injection H as <-. cbn in Hm. congruence.
  - destruct (nth_error (sockets w) i) as [sk|]; [|discriminate].
    destruct (readyState sk); try discriminate.
    destruct payload; injection H as <-; cbn in Hm; congruence.
Qed.

(** X22. While the sidebar is mounted, along every sequence of its
    events (project changes, socket openings and closings, reconnect
    timers, messages), [isConnected] is true exactly when the state holds
    a socket, and the socket it holds has opened and has not yet had its
    [close] event handled. *)
Theorem connected_means_held_socket_is_live
        (tok : option string) (es : list Event) (w : World) :
  run (mount tok) es = Some w -> mounted w = true ->
  (isConnected (st w) = true <-> wsConnection (st w) <> None)
  /\ forall i, wsConnection (st w) = Some i ->
               exists sk, nth_error (sockets w) i = Some sk
                          /\ live (readyState sk) = true.
Proof.
  assert (Hrun : forall es w0,
             (mounted w0 = true -> indicator_ok w0) ->
             run w0 es = Some w -> mounted w = true -> indicator_ok w).
  { clear. induction es as [|e es IH]; intros w0 I H Hm; cbn in H.
    - injection H as <-. now apply I.
    - destruct (step w0 e) as [w1|] eqn:Hs; [|discriminate].
      apply (IH w1); [|exact H | exact Hm]. intros Hm1.
      pose proof (step_mounted _ _ _ Hs Hm1) as Hm0.
      exact (step_indicator _ _ _ Hm0 (I Hm0) Hs Hm1). }
  intros H Hm. apply (Hrun es (mount tok)); [|exact H | exact Hm].
  intros _. unfold indicator_ok. cbn.
  split; [split; [discriminate | congruence] | apply held_none].
Qed.

Lemma connected_means_held_socket_is_live_witness :
  exists w,
    run (mount (Some "tok"))
        [SelectProject (Some {| proj_id := "p1"; proj_name := "Stores" |});
         Opens 0] = Some w
    /\ (isConnected (st w) = true <-> wsConnection (st w) <> None)
    /\ forall i, wsConnection (st w) = Some i ->
                 exists sk, nth_error (sockets w) i = Some sk
                            /\ live (readyState sk) = true.
Proof.
  eexists. split; [reflexivity|].
  apply (connected_means_held_socket_is_live
           (Some "tok")
           [SelectProject (Some {| proj_id := "p1"; proj_name := "Stores" |});
            Opens 0]); reflexivity.
Defined.

End IndicatorFacts.

(** ** The generated documents *)

Module DownloadsFacts.

Import Downloads DownloadsSpec.
Local Open Scope list_scope.

Lemma filter_filter {A : Type} (p q : A -> bool) (l : list A) :
  filter q (filter p l) = filter (fun x => p x && q x) l.
Proof.
  induction l as [|x l IH]; cbn; [reflexivity|].
  destruct (p x); cbn; [destruct (q x)|]; now rewrite IH.
Qed.

Lemma filter_all {A : Type} (p : A -> bool) (l : list A) :
  (forall x, p x = true) -> filter p l = l.
Proof.
  intros H. induction l as [|x l IH]; cbn; [reflexivity|].
  now rewrite H, IH.
Qed.

Lemma by_project_filter (f : Filters) (l : list GeneratedDocument) :
  by_project f l = filter (in_project f) l.
Proof.
  unfold by_project, in_project. destruct (selectedProject f); [reflexivity|].
  destruct (projectFilter f =? "all"); cbn; [|reflexivity].
  symmetry. now apply filter_all.
Qed.

Lemma by_search_filter (f : Filters) (l : list GeneratedDocument) :
  by_search f l = filter (in_search f) l.
Proof.
  unfold by_search, in_search. destruct (searchQuery f =? ""); cbn; [|reflexivity].
  symmetry. now apply filter_all.
Qed.

Lemma by_type_filter (f : Filters) (l : list GeneratedDocument) :
  by_type f l = filter (of_type f) l.
Proof.
  unfold by_type, of_type. destruct (typeFilter f =? "all"); cbn; [|reflexivity].
  symmetry. now apply filter_all.
Qed.

Lemma by_date_filter (f : Filters) (today : Z) (l : list GeneratedDocument) :
  by_date f today l = filter (in_period f today) l.
Proof.
  unfold by_date, in_period.
  destruct (dateFilter f =? "today"); [reflexivity|].
  destruct (dateFilter f =? "yesterday"); [reflexivity|].
  destruct (dateFilter f =? "week"); [reflexivity|].
  destruct (dateFilter f =? "month"); [reflexivity|].
  destruct (dateFilter f =? "custom"); [|symmetry; now apply filter_all].
  destruct (customFrom f), (customTo f); try reflexivity;
    symmetry; now apply filter_all.
Qed.

Lemma filters_compose (f : Filters) (today : Z) (l : list GeneratedDocument) :
  by_date f today (by_type f (by_search f (by_project f l)))
  = filter (passes f today) l.
Proof.
  rewrite by_project_filter, by_search_filter, by_type_filter, by_date_filter.
  rewrite !filter_filter. apply filter_ext. intros x. unfold passes.
  destruct (in_project f x), (in_search f x), (of_type f x),
    (in_period f today x); reflexivity.
Qed.

Lemma insert_newest_perm (x : GeneratedDocument) (l : list GeneratedDocument) :
  Permutation (x :: l) (insert_newest x l).
Proof.
  induction l as [|y l IH]; cbn; [reflexivity|].
  destruct (generatedAt y - generatedAt x <=? 0)%Z; [reflexivity|].
  rewrite perm_swap. now apply perm_skip.
Qed.

Lemma sort_newest_perm (l : list GeneratedDocument) :
  Permutation l (sort_newest l).
Proof.
  induction l as [|x l IH]; cbn; [reflexivity|].
  rewrite <- insert_newest_perm. now apply perm_skip.
Qed.

Lemma insert_newest_sorted (x : GeneratedDocument) (l : list GeneratedDocument) :
  StronglySorted newest_first l -> StronglySorted newest_first (insert_newest x l).
Proof.
  induction l as [|y l IH]; intros Hs; cbn.
  - constructor; constructor.
  - inversion Hs as [|? ? Hl Hy]; subst.
    destruct (Z.leb_spec (generatedAt y - generatedAt x) 0) as [Hle|Hgt].
    + constructor; [exact Hs|]. constructor; [unfold newest_first; lia|].
      eapply Forall_impl; [|exact Hy]. unfold newest_first. intros z Hz. lia.
    + constructor; [now apply IH|].
      apply (Permutation_Forall (insert_newest_perm x l)).
      constructor; [unfold newest_first; lia | exact Hy].
Qed.

Lemma sort_newest_sorted (l : list GeneratedDocument) :
  StronglySorted newest_first (sort_newest l).
Proof.
  induction l as [|x l IH]; cbn; [constructor | now apply insert_newest_sorted].
Qed.

Lemma in_project_selected (f : Filters) (p : string) (doc : GeneratedDocument) :
  selectedProject f <> None ->
  in_project (with_projectFilter p f) doc = in_project f doc.
Proof.
  unfold in_project. cbn. destruct (selectedProject f); [reflexivity | congruence].
Qed.

(** X23. The documents listed after the filter effect are those that
    pass every filter that is set, each as often as it is stored, from
    the newest to the oldest; while a project is selected the choice in
    the project list has no part in it.  The stored list is left as it
    was, except when no filter is set: then it is the stored array that
    is sorted. *)
Theorem listed_documents_pass_all_filters_newest_first
        (f : Filters) (today : Z) (documents : list GeneratedDocument) :
  StronglySorted newest_first (snd (filter_effect f today documents))
  /\ Permutation (filter (passes f today) documents)
                 (snd (filter_effect f today documents))
  /\ (forall doc, In doc (snd (filter_effect f today documents))
                  <-> In doc documents /\ passes f today doc = true)
  /\ (forall p, selectedProject f <> None ->
                snd (filter_effect (with_projectFilter p f) today documents)
                = snd (filter_effect f today documents))
  /\ Permutation documents (fst (filter_effect f today documents))
  /\ (aliased f = false -> fst (filter_effect f today documents) = documents).
Proof.
  unfold filter_effect. cbn [fst snd]. rewrite filters_compose.
  split; [apply sort_newest_sorted|].
  split; [apply sort_newest_perm|].
  split.
  { intros doc. rewrite <- filter_In. split; intros H.
    - eapply Permutation_in; [symmetry; apply sort_newest_perm | exact H].
    - eapply Permutation_in; [apply sort_newest_perm | exact H]. }
  split.
  { intros p Hsel. rewrite filters_compose. f_equal. apply filter_ext.
    intros doc. unfold passes. now rewrite in_project_selected. }
  destruct (aliased f) eqn:Ha.
  - split; [|discriminate].
    replace (filter (passes f today) documents) with documents;
      [apply sort_newest_perm|].
    symmetry. apply filter_all. intros doc.
    unfold aliased in Ha. unfold passes, in_project, in_search, of_type, in_period.
    apply andb_prop in Ha as [Ha Hd]. apply andb_prop in Ha as [Ha Ht].
    apply andb_prop in Ha as [Hp Hq]. rewrite Hq, Ht. cbn.
    destruct (selectedProject f); [discriminate|]. rewrite Hp. cbn.
    apply negb_true_iff in Hd.
    repeat (apply orb_false_elim in Hd as [Hd ?]).
    rewrite Hd.
    repeat match goal with
           | H : (dateFilter f =? _) = false |- _ => rewrite H; clear H
           end.
    destruct (dateFilter f =? "custom"); [|reflexivity].
    destruct (customFrom f), (customTo f); try reflexivity; discriminate.
  - split; [reflexivity | reflexivity].
Qed.

End DownloadsFacts.
